(** * RAG cost calculator: the calculation core of [calculations.ts]

    A shallow embedding of the unit converter ([wordsToTokens],
    [tokensToWords]), of the cost calculator ([calculateCosts]) and of its
    self-check ([performBackcheck]); then of the Randomize button of
    [App.vue] and of the example content of [conversation.ts].

    A TypeScript [number] is an IEEE 754 binary64 value; it is modelled by
    Rocq's primitive [float], which is that format with the same
    round-to-nearest-even arithmetic.  [NaN], the infinities and the two
    zeros are therefore part of the model, as they are part of the program. *)

From Stdlib Require Import ZArith Uint63 List Bool Ascii String Lia Reals Lra.
From stdpp Require Import gmap strings.
From Stdlib Require Import Floats.
Import ListNotations.

#[local] Set Warnings "-inexact-float".
#[local] Open Scope float_scope.

(** ** The host language: numbers, [Math], [Array.from] *)

Module JS.

Abbreviation number := float.

(** A non-negative integer below [2^63] as a number (exact below [2^53]). *)
Definition of_Z (z : Z) : number := of_uint63 (Uint63.of_Z z).

Definition of_nat (n : nat) : number := of_Z (Z.of_nat n).

(** [a === b], [a <= b], [a < b], [a > b] on numbers. *)
Definition strict_eq (a b : number) : bool := a =? b.
Definition le (a b : number) : bool := a <=? b.
Definition lt (a b : number) : bool := a <? b.
Definition gt (a b : number) : bool := b <? a.

(** The integer part [floor (m * 2^e)] of a positive magnitude with
    [e < 0], and the numerator of what is left over [2^(-e)]. *)
Definition int_part (m : positive) (e : Z) : Z := Z.shiftr (Zpos m) (- e).
Definition frac_part (m : positive) (e : Z) : Z :=
  (Zpos m - Z.shiftl (int_part m e) (- e))%Z.

(** [Math.ceil]: the smallest integral number not below [x]; [NaN],
    infinities, zeros and integral values are returned unchanged, and a
    value in (-1, 0) gives [-0]. *)
Definition Math_ceil (x : number) : number :=
  match Prim2SF x with
  | S754_finite s m e =>
      if (0 <=? e)%Z then x
      else
        let q := int_part m e in
        if s then - of_Z q
        else of_Z (if (frac_part m e =? 0)%Z then q else q + 1)
  | _ => x
  end.

(** [Math.round]: the nearest integral number, ties towards [+Infinity];
    a value in [-0.5, 0) gives [-0]. *)
Definition Math_round (x : number) : number :=
  match Prim2SF x with
  | S754_finite s m e =>
      if (0 <=? e)%Z then x
      else
        let q := int_part m e in
        let r2 := (2 * frac_part m e)%Z in
        let one := Z.shiftl 1 (- e) in
        if s then - of_Z (if (one <? r2)%Z then q + 1 else q)
        else of_Z (if (one <=? r2)%Z then q + 1 else q)
  | _ => x
  end.

Definition Math_abs (x : number) : number := abs x.

(** [Math.floor]: the greatest integral number not above [x]; [NaN],
    infinities, zeros and integral values are returned unchanged, and a
    value in (0, 1) gives [+0]. *)
Definition Math_floor (x : number) : number :=
  match Prim2SF x with
  | S754_finite s m e =>
      if (0 <=? e)%Z then x
      else
        let q := int_part m e in
        if s then - of_Z (if (frac_part m e =? 0)%Z then q else q + 1)
        else of_Z q
  | _ => x
  end.

(** [ToLength]: truncation to an integer clamped to [0, 2^53 - 1]. *)
Definition max_safe_integer : Z := 2 ^ 53 - 1.

Definition ToLength (x : number) : Z :=
  match Prim2SF x with
  | S754_nan | S754_zero _ => 0
  | S754_infinity s => if s then 0 else max_safe_integer
  | S754_finite s m e =>
      if s then 0
      else if (0 <=? e)%Z then Z.min (Z.shiftl (Zpos m) e) max_safe_integer
      else int_part m e
  end.

(** What a call can throw. *)
Variant error := RangeError.

Variant completion (A : Type) :=
  | Normal (a : A)
  | Throw (e : error).
Arguments Normal {A} a.
Arguments Throw {A} e.

(** [Array.from({ length })]: an array of [ToLength length] undefined
    slots.  The language refuses a length above [2^32 - 1]; the engine that
    runs the program (V8) gives up earlier, with the same [RangeError],
    when asked for [2^27] slots or more, and that is the limit taken here.
    (Between the two limits the engine can also run out of memory before
    it throws; nothing is derived for such lengths but the [catch] result.) *)
Definition max_array_length : Z := 2 ^ 27 - 1.

Definition Array_from_length (length : number) : completion (list unit) :=
  let len := ToLength length in
  if (max_array_length <? len)%Z then Throw RangeError
  else Normal (repeat tt (Z.to_nat len)).

(** [arr.map((x, index) => f x index)] *)
Fixpoint map_from {A B} (f : A -> number -> B) (i : nat) (arr : list A) : list B :=
  match arr with
  | [] => []
  | x :: rest => f x (of_nat i) :: map_from f (S i) rest
  end.
Definition Array_map {A B} (f : A -> number -> B) (arr : list A) : list B :=
  map_from f 0 arr.

(** [arr.reduce(f, init)] *)
Definition Array_reduce {A B} (f : B -> A -> B) (init : B) (arr : list A) : B :=
  fold_left f arr init.

(** [arr[x]] for a number [x]: the element at [x] when [x] is an array
    index, an integer from 0 to [2^32 - 2], and [undefined] otherwise. *)
Definition Array_get {A} (arr : list A) (x : number) : option A :=
  match Prim2SF x with
  | S754_zero _ => nth_error arr 0
  | S754_finite false m e =>
      if (0 <=? e)%Z then None
      else if (frac_part m e =? 0)%Z then nth_error arr (Z.to_nat (int_part m e))
      else None
  | _ => None
  end.

(** [arr.join(sep)] on an array of strings; [undefined] is joined as the
    empty string. *)
Fixpoint Array_join (sep : string) (arr : list (option string)) : string :=
  match arr with
  | [] => ""
  | x :: rest =>
      let s := match x with Some s => s | None => ""%string end in
      match rest with
      | [] => s
      | _ :: _ => (s ++ sep ++ Array_join sep rest)%string
      end
  end.

(** [s.split(" ")]: the pieces of [s] between single spaces, at least
    one. *)
Fixpoint String_split_space (s : string) : list string :=
  match s with
  | EmptyString => [EmptyString]
  | String c rest =>
      if Ascii.eqb c " "%char then EmptyString :: String_split_space rest
      else
        match String_split_space rest with
        | piece :: pieces => String c piece :: pieces
        | [] => [String c EmptyString]
        end
  end.

End JS.

Import JS.

(** ** mathjs on plain numbers

    [math.chain(a).multiply(b).divide(c).add(d).done()] applies the number
    implementations of mathjs, which are the host operators. *)

Module math.
Definition add (a b : number) : number := a + b.
Definition multiply (a b : number) : number := a * b.
Definition divide (a b : number) : number := a / b.
End math.

(** ** Unit converter *)

Definition WORDS_TO_TOKENS_RATIO : number := 1.33.

Definition wordsToTokens (words : number) : number :=
  if le words 0 then 0
  else Math_ceil (words * WORDS_TO_TOKENS_RATIO).

Definition tokensToWords (tokens : number) : number :=
  if le tokens 0 then 0
  else Math_ceil (tokens / WORDS_TO_TOKENS_RATIO).

(** ** Data model *)

Record OpenAIModel := {
  name : string;
  description : string;
  inputPrice : number;
  outputPrice : number;
}.

Definition OPENAI_MODELS : gmap string OpenAIModel :=
  {[ "gpt-4o"%string :=
       {| name := "GPT-40";
          description := "Latest model with vision capabilities, 128K context (Oct 2023)";
          inputPrice := 0.0025;
          outputPrice := 0.01 |} ]}.

Record CalculationInput := {
  selectedModel : string;
  dailyUsers : number;
  conversationsPerUser : number;
  messagesPerConversation : number;
  wordsPerChunk : number;
  userQueryWords : number;
  responseWords : number;
  chunksPerQuery : number;
}.

(** The [expectedValues] and [actualValues] blocks of a backcheck. *)
Module Values.
Record t := mk {
  inputTokens : number;
  outputTokens : number;
  totalMessages : number;
  dailyCost : number;
}.
End Values.

Record BackcheckDetails := {
  inputTokensMatch : bool;
  outputTokensMatch : bool;
  totalMessagesMatch : bool;
  dailyCostMatch : bool;
  expectedValues : Values.t;
  actualValues : Values.t;
}.

Record BackcheckResult := {
  isValid : bool;
  details : BackcheckDetails;
}.

Record CalculationResult := {
  tokensPerMessage : number;
  wordsPerMessage : number;
  totalDailyMessages : number;
  dailyCost : number;
  monthlyCost : number;
  annualCost : number;
  costPerMessage : number;
  costPerUser : number;
  averageHistoryTokens : number;
  backcheck : option BackcheckResult;
}.

(** [model?.inputPrice ?? 0] and [model?.outputPrice ?? 0] *)
Definition inputPrice_or_0 (model : option OpenAIModel) : number :=
  match model with Some m => inputPrice m | None => 0 end.
Definition outputPrice_or_0 (model : option OpenAIModel) : number :=
  match model with Some m => outputPrice m | None => 0 end.

(** ** Backcheck verifier *)

Definition performBackcheck (input : CalculationInput) (result : CalculationResult)
    (model : option OpenAIModel) (totalInputTokens outputTokens : number)
    : BackcheckResult :=
  let expectedTotalMessages :=
    dailyUsers input * conversationsPerUser input * messagesPerConversation input in
  let expectedDailyCost :=
    (totalInputTokens * expectedTotalMessages * inputPrice_or_0 model) / 1000
    + (outputTokens * expectedTotalMessages * outputPrice_or_0 model) / 1000 in
  let actualTotalMessages := totalDailyMessages result in
  let actualDailyCost := dailyCost result in
  let totalMessagesMatch :=
    lt (Math_abs (expectedTotalMessages - actualTotalMessages)) 0.0001 in
  let dailyCostMatch :=
    lt (Math_abs (expectedDailyCost - actualDailyCost)) 0.0001 in
  let inputTokensMatch := true in
  let outputTokensMatch := true in
  {| isValid :=
       totalMessagesMatch && dailyCostMatch && inputTokensMatch && outputTokensMatch;
     details :=
       {| inputTokensMatch := inputTokensMatch;
          outputTokensMatch := outputTokensMatch;
          totalMessagesMatch := totalMessagesMatch;
          dailyCostMatch := dailyCostMatch;
          expectedValues :=
            Values.mk totalInputTokens outputTokens expectedTotalMessages expectedDailyCost;
          actualValues :=
            Values.mk totalInputTokens outputTokens actualTotalMessages actualDailyCost |} |}.

(** ** Cost calculator *)

Definition zeroValues : Values.t := Values.mk 0 0 0 0.

(** The object returned by the zero guard ([flag = true]) and by the
    [catch] block ([flag = false]). *)
Definition degenerateResult (flag : bool) : CalculationResult :=
  {| tokensPerMessage := 0;
     wordsPerMessage := 0;
     totalDailyMessages := 0;
     dailyCost := 0;
     monthlyCost := 0;
     annualCost := 0;
     costPerMessage := 0;
     costPerUser := 0;
     averageHistoryTokens := 0;
     backcheck :=
       Some {| isValid := flag;
               details :=
                 {| inputTokensMatch := flag;
                    outputTokensMatch := flag;
                    totalMessagesMatch := flag;
                    dailyCostMatch := flag;
                    expectedValues := zeroValues;
                    actualValues := zeroValues |} |} |}.

Definition zeroGuard (input : CalculationInput) : bool :=
  strict_eq (dailyUsers input) 0
  || strict_eq (conversationsPerUser input) 0
  || strict_eq (messagesPerConversation input) 0.

Definition getHistoryTokensForMessage (queryTokens outputTokens messageIndex : number)
    : number :=
  if strict_eq messageIndex 0 then 0
  else messageIndex * (queryTokens + outputTokens).

(** The sum of the history tokens of the messages of one conversation. *)
Definition totalHistoryTokens (queryTokens outputTokens : number) (slots : list unit)
    : number :=
  Array_reduce (fun sum tokens => sum + tokens) 0
    (Array_map (fun _ index => getHistoryTokensForMessage queryTokens outputTokens index)
       slots).

(** The body of the [try] block after the zero guard, given the array that
    [Array.from] produced. *)
Definition computeCosts (input : CalculationInput) (model : option OpenAIModel)
    (slots : list unit) : CalculationResult :=
  let chunkTokens := wordsToTokens (wordsPerChunk input) in
  let queryTokens := wordsToTokens (userQueryWords input) in
  let outputTokens := wordsToTokens (responseWords input) in
  let averageHistoryTokens :=
    totalHistoryTokens queryTokens outputTokens slots / messagesPerConversation input in
  let totalInputTokens :=
    math.add (math.add (math.multiply (chunksPerQuery input) chunkTokens) queryTokens)
      averageHistoryTokens in
  let tokensPerMessage := totalInputTokens + outputTokens in
  let wordsPerMessage := tokensToWords (totalInputTokens + outputTokens) in
  let totalDailyMessages :=
    math.multiply (math.multiply (dailyUsers input) (conversationsPerUser input))
      (messagesPerConversation input) in
  let dailyInputCost :=
    math.multiply (math.divide (math.multiply totalInputTokens totalDailyMessages) 1000)
      (inputPrice_or_0 model) in
  let dailyOutputCost :=
    math.multiply (math.divide (math.multiply outputTokens totalDailyMessages) 1000)
      (outputPrice_or_0 model) in
  let dailyCost := math.add dailyInputCost dailyOutputCost in
  let monthlyCost := math.multiply dailyCost 30 in
  let annualCost := math.multiply dailyCost 365 in
  let costPerMessage :=
    if gt totalDailyMessages 0
    then math.divide monthlyCost (math.multiply totalDailyMessages 30)
    else 0 in
  let costPerUser :=
    if gt (dailyUsers input) 0
    then math.divide monthlyCost (dailyUsers input)
    else 0 in
  let result :=
    {| tokensPerMessage := tokensPerMessage;
       wordsPerMessage := wordsPerMessage;
       totalDailyMessages := totalDailyMessages;
       dailyCost := dailyCost;
       monthlyCost := monthlyCost;
       annualCost := annualCost;
       costPerMessage := costPerMessage;
       costPerUser := costPerUser;
       averageHistoryTokens := Math_round averageHistoryTokens;
       backcheck := None |} in
  let backcheck := performBackcheck input result model totalInputTokens outputTokens in
  {| tokensPerMessage := tokensPerMessage;
     wordsPerMessage := wordsPerMessage;
     totalDailyMessages := totalDailyMessages;
     dailyCost := dailyCost;
     monthlyCost := monthlyCost;
     annualCost := annualCost;
     costPerMessage := costPerMessage;
     costPerUser := costPerUser;
     averageHistoryTokens := Math_round averageHistoryTokens;
     backcheck := Some backcheck |}.

(** The [try] block. *)
Definition calculateCosts_try (input : CalculationInput) : completion CalculationResult :=
  let model := OPENAI_MODELS !! selectedModel input in
  if zeroGuard input then Normal (degenerateResult true)
  else
    match Array_from_length (messagesPerConversation input) with
    | Throw e => Throw e
    | Normal slots => Normal (computeCosts input model slots)
    end.

Definition calculateCosts (input : CalculationInput) : CalculationResult :=
  match calculateCosts_try input with
  | Normal result => result
  | Throw _ => degenerateResult false
  end.

(** ** Reference configuration of the test suite *)

Definition defaultInput : CalculationInput :=
  {| selectedModel := "gpt-4o";
     dailyUsers := 100;
     conversationsPerUser := 3;
     messagesPerConversation := 5;
     wordsPerChunk := 200;
     userQueryWords := 18;
     responseWords := 60;
     chunksPerQuery := 2 |}.

(** ** The Randomize button of [App.vue]

    The seven settings of the page are the fields of a
    [CalculationInput]; [Math.random] is an oracle: [random i] is what its
    call number [i] returns, counted from 0 in the order of the source. *)

Definition randomizeSettings (random : nat -> number) (settings : CalculationInput)
    : CalculationInput :=
  let conversationsPerUser := Math_floor (random 0%nat * 5) + 1 in
  let messagesPerConversation := Math_floor (random 1%nat * 7) + 3 in
  let wordsPerChunk := Math_floor (random 2%nat * 300) + 100 in
  let userQueryWords := Math_floor (random 3%nat * 32) + 8 in
  let responseWords := Math_floor (random 4%nat * 90) + 30 in
  let chunksPerQuery := Math_floor (random 5%nat * 3) + 1 in
  {| selectedModel := selectedModel settings;
     dailyUsers := dailyUsers settings;
     conversationsPerUser := conversationsPerUser;
     messagesPerConversation := messagesPerConversation;
     wordsPerChunk := wordsPerChunk;
     userQueryWords := userQueryWords;
     responseWords := responseWords;
     chunksPerQuery := chunksPerQuery |}.

(** ** Example content: [conversation.ts]

    The two loops count with a number and do not end for every bound, so
    they are run on fuel: [None] is a run that has not returned when the
    fuel is spent.  Each result comes with the number of calls of
    [Math.random] made so far. *)

Record Conversation := {
  userQuery : string;
  chunks : list string;
  response : string
}.

Definition loremWords : list string :=
  ["lorem"; "ipsum"; "dolor"; "sit"; "amet"; "consectetur"; "adipiscing"; "elit";
   "sed"; "do"; "eiusmod"; "tempor"; "incididunt"; "ut"; "labore"; "et"; "dolore";
   "magna"; "aliqua"; "enim"; "ad"; "minim"; "veniam"; "quis"; "nostrud";
   "exercitation"]%string.

(** [for (let i = 0; i < wordCount; i++) result.push(...)], from [i]. *)
Fixpoint generateRandomText_loop (fuel : nat) (wordCount i : number)
    (random : nat -> number) (calls : nat) (result : list (option string))
    : option (list (option string) * nat) :=
  match fuel with
  | O => None
  | S fuel' =>
      if lt i wordCount then
        let word :=
          Array_get loremWords
            (Math_floor (random calls * of_nat (length loremWords))) in
        generateRandomText_loop fuel' wordCount (i + 1) random (S calls)
          (result ++ [word])
      else Some (result, calls)
  end.

Definition generateRandomText (fuel : nat) (wordCount : number)
    (random : nat -> number) (calls : nat) : option (string * nat) :=
  match generateRandomText_loop fuel wordCount 0 random calls [] with
  | Some (result, calls') => Some (Array_join " " result, calls')
  | None => None
  end.

(** [Array.from({ length }, () => generateRandomText(wordsPerChunk))] once
    the length is accepted: one text per slot, in order. *)
Fixpoint generateChunks (fuel : nat) (slots : list unit) (wordsPerChunk : number)
    (random : nat -> number) (calls : nat) : option (list string * nat) :=
  match slots with
  | [] => Some ([], calls)
  | _ :: rest =>
      match generateRandomText fuel wordsPerChunk random calls with
      | Some (text, calls') =>
          match generateChunks fuel rest wordsPerChunk random calls' with
          | Some (texts, calls'') => Some (text :: texts, calls'')
          | None => None
          end
      | None => None
      end
  end.

(** [for (let i = 0; i < messagesCount; i++) conversation.push({...})],
    from [i]; the fields of a message are evaluated in the order written. *)
Fixpoint generateConversation_loop (fuel : nat)
    (messagesCount userQueryWords chunksPerQuery wordsPerChunk responseWords i : number)
    (random : nat -> number) (calls : nat) (conversation : list Conversation)
    : option (completion (list Conversation * nat)) :=
  match fuel with
  | O => None
  | S fuel' =>
      if lt i messagesCount then
        match generateRandomText fuel userQueryWords random calls with
        | None => None
        | Some (query, calls1) =>
            match Array_from_length chunksPerQuery with
            | Throw e => Some (Throw e)
            | Normal slots =>
                match generateChunks fuel slots wordsPerChunk random calls1 with
                | None => None
                | Some (texts, calls2) =>
                    match generateRandomText fuel responseWords random calls2 with
                    | None => None
                    | Some (answer, calls3) =>
                        generateConversation_loop fuel' messagesCount userQueryWords
                          chunksPerQuery wordsPerChunk responseWords (i + 1) random
                          calls3
                          (conversation
                             ++ [{| userQuery := query; chunks := texts;
                                    response := answer |}])
                    end
                end
            end
        end
      else Some (Normal (conversation, calls))
  end.

Definition generateConversation (fuel : nat)
    (messagesCount userQueryWords chunksPerQuery wordsPerChunk responseWords : number)
    (random : nat -> number) (calls : nat)
    : option (completion (list Conversation * nat)) :=
  generateConversation_loop fuel messagesCount userQueryWords chunksPerQuery
    wordsPerChunk responseWords 0 random calls [].

(** * Auxiliary definitions

    Names for the intermediate values of [calculateCosts], the
    configurations used as examples, and the vocabulary of the rounding
    analysis. *)

(** [Array.from] throws: the fault path. *)
Definition arrayFault (input : CalculationInput) : bool :=
  (max_array_length <? ToLength (messagesPerConversation input))%Z.

(** The array over which the history tokens are summed. *)
Definition messageSlots (input : CalculationInput) : list unit :=
  repeat tt (Z.to_nat (ToLength (messagesPerConversation input))).

(** The total input tokens per message of a result, as its backcheck
    records them, and likewise the output tokens. *)
Definition totalInputTokensOf (r : CalculationResult) : number :=
  match backcheck r with
  | Some b => Values.inputTokens (expectedValues (details b))
  | None => 0
  end.

Definition outputTokensOf (r : CalculationResult) : number :=
  match backcheck r with
  | Some b => Values.outputTokens (expectedValues (details b))
  | None => 0
  end.

(** The history carried by the message at position [i]: [i] earlier
    exchanges of one query and one response each, none for message 0. *)
Definition historyTerm (queryTokens outputTokens : number) (i : nat) : number :=
  match i with
  | O => 0
  | S _ => of_nat i * (queryTokens + outputTokens)
  end.

(** The sum of [historyTerm] over the positions [0 .. n-1], added in order. *)
Fixpoint historySum (queryTokens outputTokens : number) (n : nat) : number :=
  match n with
  | O => 0
  | S k => historySum queryTokens outputTokens k + historyTerm queryTokens outputTokens k
  end.

(** A configuration whose message volume overflows binary64. *)
Definition overflowInput : CalculationInput :=
  {| selectedModel := "gpt-4o";
     dailyUsers := 1e308;
     conversationsPerUser := 10;
     messagesPerConversation := 1;
     wordsPerChunk := 200;
     userQueryWords := 18;
     responseWords := 60;
     chunksPerQuery := 2 |}.

(** A configuration with finite results whose daily cost is large enough
    for the last bit of the two evaluation orders to differ by more than
    the tolerance. *)
Definition hugeInput : CalculationInput :=
  {| selectedModel := "gpt-4o";
     dailyUsers := 33333333333333;
     conversationsPerUser := 3;
     messagesPerConversation := 5;
     wordsPerChunk := 200;
     userQueryWords := 18;
     responseWords := 60;
     chunksPerQuery := 2 |}.

(** The flags of the backcheck of a result. *)
Definition backcheckFlags (r : CalculationResult) : option (bool * bool * bool) :=
  match backcheck r with
  | Some b => Some (isValid b, totalMessagesMatch (details b), dailyCostMatch (details b))
  | None => None
  end.

(** The configuration with another model selected. *)
Definition withModel (id : string) (input : CalculationInput) : CalculationInput :=
  {| selectedModel := id;
     dailyUsers := dailyUsers input;
     conversationsPerUser := conversationsPerUser input;
     messagesPerConversation := messagesPerConversation input;
     wordsPerChunk := wordsPerChunk input;
     userQueryWords := userQueryWords input;
     responseWords := responseWords input;
     chunksPerQuery := chunksPerQuery input |}.

(** A configuration with an unknown model and [2^32] messages per
    conversation. *)
Definition tooManyMessagesInput : CalculationInput :=
  {| selectedModel := "non-existent-model";
     dailyUsers := 100;
     conversationsPerUser := 3;
     messagesPerConversation := 4294967296;
     wordsPerChunk := 200;
     userQueryWords := 18;
     responseWords := 60;
     chunksPerQuery := 2 |}.

(** A configuration with an unknown model and an infinite user count. *)
Definition infiniteUsersInput : CalculationInput :=
  {| selectedModel := "non-existent-model";
     dailyUsers := infinity;
     conversationsPerUser := 3;
     messagesPerConversation := 5;
     wordsPerChunk := 200;
     userQueryWords := 18;
     responseWords := 60;
     chunksPerQuery := 2 |}.

#[local] Open Scope Z_scope.

(** [inbetween m num den l]: the rational [num / den] lies in
    [m, m + 1) and [l] says where: on [m], below, on or above the middle. *)
Inductive inbetween (m num den : Z) : location -> Prop :=
| inbetween_Exact : num = m * den -> inbetween m num den loc_Exact
| inbetween_Lt :
    m * den < num -> 2 * (num - m * den) < den -> inbetween m num den (loc_Inexact Lt)
| inbetween_Eq :
    2 * (num - m * den) = den -> inbetween m num den (loc_Inexact Eq)
| inbetween_Gt :
    den < 2 * (num - m * den) -> num < (m + 1) * den ->
    inbetween m num den (loc_Inexact Gt).

#[local] Close Scope Z_scope.

#[local] Open Scope R_scope.

(** The power [2^e] for an exponent of any sign. *)
Definition pow2 (e : Z) : R := powerRZ 2 e.

(** The real number a finite specification float stands for; 0 for the
    others. *)
Definition SF2R (x : spec_float) : R :=
  match x with
  | S754_finite s m e => (if s then - IZR (Zpos m) else IZR (Zpos m)) * pow2 e
  | _ => 0
  end.

Definition B2R (x : float) : R := SF2R (Prim2SF x).

(** A positive normal number with its exponent in [lo, hi]. *)
Definition pos_normal (x : float) (lo hi : Z) : Prop :=
  exists m e,
    Prim2SF x = S754_finite false m e
    /\ Zpos (digits2_pos m) = 53%Z /\ (lo <= e <= hi)%Z.

(** The largest relative error of one rounding to nearest: [2^-53]. *)
Definition ulp_half : R := pow2 (-53).

(** [x] approximates [v] after [k] roundings. *)
Definition approx (k : nat) (x v : R) : Prop :=
  v * (1 - ulp_half) ^ k <= x <= v * (1 + ulp_half) ^ k.

#[local] Close Scope R_scope.

(** The daily cost as [calculateCosts] evaluates it. *)
Definition dailyCostOf (T O M ip op : number) : number :=
  (T * M / 1000 * ip + O * M / 1000 * op)%float.

#[local] Open Scope R_scope.

(** The exact daily cost for [K] messages. *)
Definition exactCost (T O ip op : number) (K : Z) : R :=
  IZR K * (B2R T / 1000 * B2R ip + B2R O / 1000 * B2R op).

#[local] Close Scope R_scope.

(** The three usage counts are the integers [a], [b] and [c]. *)
Definition countsAre (input : CalculationInput) (a b c : Z) : Prop :=
  dailyUsers input = of_Z a
  /\ conversationsPerUser input = of_Z b
  /\ messagesPerConversation input = of_Z c.

(** Two configurations that differ in their usage counts at most. *)
Definition sameContent (input input' : CalculationInput) : Prop :=
  selectedModel input = selectedModel input'
  /\ wordsPerChunk input = wordsPerChunk input'
  /\ userQueryWords input = userQueryWords input'
  /\ responseWords input = responseWords input'
  /\ chunksPerQuery input = chunksPerQuery input'.

(** A word count the round trip loses a word of. *)
Definition hugeWordCount : number := 7000000000000050.

(** The configuration with another number of daily users. *)
Definition withUsers (users : number) (input : CalculationInput) : CalculationInput :=
  {| selectedModel := selectedModel input;
     dailyUsers := users;
     conversationsPerUser := conversationsPerUser input;
     messagesPerConversation := messagesPerConversation input;
     wordsPerChunk := wordsPerChunk input;
     userQueryWords := userQueryWords input;
     responseWords := responseWords input;
     chunksPerQuery := chunksPerQuery input |}.

(** A configuration without conversations, for a number of users. *)
Definition idleInput (users : number) : CalculationInput :=
  {| selectedModel := "gpt-4o";
     dailyUsers := users;
     conversationsPerUser := 0;
     messagesPerConversation := 5;
     wordsPerChunk := 200;
     userQueryWords := 18;
     responseWords := 60;
     chunksPerQuery := 2 |}.

(** A configuration with [-1] users and [-10] chunks per query. *)
Definition negativeChunksInput : CalculationInput :=
  {| selectedModel := "gpt-4o";
     dailyUsers := -1;
     conversationsPerUser := 3;
     messagesPerConversation := 5;
     wordsPerChunk := 200;
     userQueryWords := 18;
     responseWords := 60;
     chunksPerQuery := -10 |}.

(** The number of earlier exchanges summed over [n] messages:
    [0 + 1 + ... + (n - 1)]. *)
Definition triangle (n : Z) : Z := (n * (n - 1) / 2)%Z.

(** A word count between 1 and [2^20]. *)
Definition wordsInRange (w : number) : Prop :=
  le 1 w = true /\ le w 1048576 = true.

(** A configuration with an integer number [kc] of chunks per query, at
    most [2^20], and word counts between 1 and [2^20]. *)
Definition realisticContent (input : CalculationInput) (kc : Z) : Prop :=
  chunksPerQuery input = of_Z kc
  /\ (1 <= kc <= 2 ^ 20)%Z
  /\ wordsInRange (wordsPerChunk input)
  /\ wordsInRange (userQueryWords input)
  /\ wordsInRange (responseWords input).

(** The daily cost as [performBackcheck] evaluates it. *)
Definition expectedCostOf (T O M ip op : number) : number :=
  T * M * ip / 1000 + O * M * op / 1000.

(** The configuration with another number of messages per conversation. *)
Definition withMessages (messages : number) (input : CalculationInput)
    : CalculationInput :=
  {| selectedModel := selectedModel input;
     dailyUsers := dailyUsers input;
     conversationsPerUser := conversationsPerUser input;
     messagesPerConversation := messages;
     wordsPerChunk := wordsPerChunk input;
     userQueryWords := userQueryWords input;
     responseWords := responseWords input;
     chunksPerQuery := chunksPerQuery input |}.

(** What [Math.random] may return: zero, or a normal number below 1. *)
Definition unitInterval (r : number) : Prop :=
  r = 0 \/ pos_normal r (-1074) (-53).

(** A text of [k] words of the vocabulary, joined by single spaces. *)
Definition textOf (k : nat) (text : string) : Prop :=
  exists ws : list string,
    text = Array_join " " (map Some ws)
    /\ length ws = k
    /\ Forall (fun w => In w loremWords) ws.

(** A string without a space. *)
Fixpoint no_space (s : string) : bool :=
  match s with
  | EmptyString => true
  | String c rest => negb (Ascii.eqb c " "%char) && no_space rest
  end.

(** A message with texts of the asked numbers of words. *)
Definition messageOf (queryWords chunkCount chunkWords answerWords : nat)
    (message : Conversation) : Prop :=
  textOf queryWords (userQuery message)
  /\ length (chunks message) = chunkCount
  /\ Forall (textOf chunkWords) (chunks message)
  /\ textOf answerWords (response message).

(** A specification float without a minus sign: [NaN], or a zero, a
    finite number or an infinity with the plus sign. *)
Definition unsigned (x : spec_float) : Prop :=
  match x with
  | S754_zero s | S754_infinity s | S754_finite s _ _ => s = false
  | S754_nan => True
  end.

(** * Facts about binary64 numbers

    The primitive operations are specified by the standard library through
    [Prim2SF]; the lemmas below read the class of a number (NaN, infinite,
    zero, finite) off its specification and push it through the
    operations the calculator uses. *)

Section FloatClasses.

Lemma SFcompare_refl_finite s m e :
  SFcompare (S754_finite s m e) (S754_finite s m e) = Some Eq.
Proof.
  simpl. rewrite Z.compare_refl.
  change (Pos.compare_cont Eq m m) with (Pos.compare m m).
  rewrite Pos.compare_refl. now destruct s.
Qed.

Lemma is_nan_spec x :
  is_nan x = match Prim2SF x with S754_nan => true | _ => false end.
Proof.
  unfold is_nan. rewrite eqb_spec. unfold SFeqb.
  destruct (Prim2SF x) as [s|s| |s m e].
  - reflexivity.
  - now destruct s.
  - reflexivity.
  - now rewrite SFcompare_refl_finite.
Qed.

Lemma is_infinity_spec x :
  is_infinity x = match Prim2SF x with S754_infinity _ => true | _ => false end.
Proof.
  unfold is_infinity. rewrite eqb_spec. rewrite abs_spec.
  change (Prim2SF infinity) with (S754_infinity false).
  now destruct (Prim2SF x) as [s|s| |s m e].
Qed.

Lemma is_finite_spec x :
  is_finite x =
  match Prim2SF x with S754_zero _ | S754_finite _ _ _ => true | _ => false end.
Proof.
  unfold is_finite. rewrite is_nan_spec, is_infinity_spec.
  now destruct (Prim2SF x).
Qed.

Lemma is_zero_spec x :
  is_zero x = match Prim2SF x with S754_zero _ => true | _ => false end.
Proof.
  unfold is_zero. rewrite eqb_spec.
  change (Prim2SF zero) with (S754_zero false).
  destruct (Prim2SF x) as [s|s| |s m e]; try reflexivity; now destruct s.
Qed.

End FloatClasses.

(** ** Integers as binary64 numbers *)

Section IntegerNumbers.
#[local] Open Scope Z_scope.

Lemma digits2_pos_bounds p :
  2 ^ (Zpos (digits2_pos p) - 1) <= Zpos p < 2 ^ Zpos (digits2_pos p).
Proof.
  induction p as [p IH|p IH|]; cbn [digits2_pos].
  - rewrite Pos2Z.inj_succ, Z.pow_succ_r by lia.
    replace (Z.succ (Zpos (digits2_pos p)) - 1) with (Z.succ (Zpos (digits2_pos p) - 1)) by lia.
    rewrite Z.pow_succ_r by lia. lia.
  - rewrite Pos2Z.inj_succ, Z.pow_succ_r by lia.
    replace (Z.succ (Zpos (digits2_pos p)) - 1) with (Z.succ (Zpos (digits2_pos p) - 1)) by lia.
    rewrite Z.pow_succ_r by lia. lia.
  - cbn. lia.
Qed.

(** The number of binary digits is determined by the binade. *)
Lemma digits2_pos_unique p d :
  2 ^ (d - 1) <= Zpos p < 2 ^ d -> Zpos (digits2_pos p) = d.
Proof.
  intros [Hlo Hhi]. pose proof (digits2_pos_bounds p) as [Hlo' Hhi'].
  assert (0 < d) by (destruct (Z.ltb_spec 0 d); [assumption|];
    rewrite (Z.pow_neg_r 2 (d - 1)) in Hlo by lia;
    destruct (Z.eq_dec d 0) as [->|]; [cbn in Hhi; lia|];
    rewrite Z.pow_neg_r in Hhi by lia; lia).
  destruct (Z.lt_trichotomy (Zpos (digits2_pos p)) d) as [Hlt|[Heq|Hgt]]; [|assumption|].
  - assert (2 ^ Zpos (digits2_pos p) <= 2 ^ (d - 1)) by (apply Z.pow_le_mono_r; lia). lia.
  - assert (2 ^ d <= 2 ^ (Zpos (digits2_pos p) - 1)) by (apply Z.pow_le_mono_r; lia). lia.
Qed.

Lemma iter_xO_spec p k : Zpos (Pos.iter xO p k) = Zpos p * 2 ^ Zpos k.
Proof.
  revert p. induction k using Pos.peano_ind; intros p.
  - cbn. lia.
  - rewrite Pos.iter_succ, Pos2Z.inj_xO, IHk, Pos2Z.inj_succ, Z.pow_succ_r by lia. lia.
Qed.

(** Rounding a mantissa that is already canonical changes nothing. *)
Lemma binary_round_aux_canonical s m e :
  bounded prec emax m e = true ->
  binary_round_aux prec emax s (Zpos m) e loc_Exact = S754_finite s m e.
Proof.
  unfold bounded, canonical_mantissa. intros [Hc He]%andb_prop.
  apply Z.eqb_eq in Hc.
  unfold binary_round_aux, shr_fexp. cbn [Zdigits2 shr_record_of_loc].
  rewrite Hc, Z.sub_diag. cbn [shr shr_m loc_of_shr_record round_nearest_even Zdigits2].
  rewrite Hc, Z.sub_diag. cbn [shr shr_m]. now rewrite He.
Qed.

(** A positive integer below [2^53] has an exact canonical representation. *)
Lemma binary_normalize_small p :
  Zpos p < 2 ^ 53 ->
  exists m e,
    binary_normalize prec emax (Zpos p) 0 false = S754_finite false m e
    /\ Zpos m = Zpos p * 2 ^ (- e) /\ -52 <= e <= 0
    /\ Zpos (digits2_pos m) = 53.
Proof.
  intros Hp. pose proof (digits2_pos_bounds p) as [Hlo Hhi].
  assert (Hd : Zpos (digits2_pos p) <= 53).
  { destruct (Z.leb_spec (Zpos (digits2_pos p)) 53); [assumption|].
    assert (2 ^ 53 <= 2 ^ (Zpos (digits2_pos p) - 1)) by (apply Z.pow_le_mono_r; lia). lia. }
  cbn [binary_normalize]. unfold binary_round, shl_align, fexp, SpecFloat.emin.
  change (3 - emax - prec) with (-1074). change prec with 53.
  rewrite Z.add_0_r, Z.max_l, Z.sub_0_r by lia.
  destruct (Zpos (digits2_pos p) - 53) as [|k|k] eqn:Hk; try lia.
  - exists p, 0. split; [|split; [cbn; lia|split; lia]].
    apply binary_round_aux_canonical. unfold bounded, canonical_mantissa, fexp, SpecFloat.emin.
    change (3 - emax - prec) with (-1074). change prec with 53. change emax with 1024.
    apply andb_true_intro. split; [apply Z.eqb_eq|apply Z.leb_le]; lia.
  - assert (Hm : Zpos (Pos.iter xO p k) = Zpos p * 2 ^ Zpos k) by apply iter_xO_spec.
    assert (Hdm : Zpos (digits2_pos (Pos.iter xO p k)) = 53).
    { apply digits2_pos_unique. rewrite Hm.
      replace 53 with (Zpos (digits2_pos p) + Zpos k) at 2 by lia.
      replace (53 - 1) with (Zpos (digits2_pos p) - 1 + Zpos k) by lia.
      rewrite !Z.pow_add_r by lia.
      assert (0 < 2 ^ Zpos k) by (apply Z.pow_pos_nonneg; lia). nia. }
    exists (Pos.iter xO p k), (Zneg k). split; [|split; [|split]].
    + apply binary_round_aux_canonical.
      unfold bounded, canonical_mantissa, fexp, SpecFloat.emin.
      change (3 - emax - prec) with (-1074). change prec with 53. change emax with 1024.
      apply andb_true_intro. split; [apply Z.eqb_eq|apply Z.leb_le]; lia.
    + exact Hm.
    + lia.
    + exact Hdm.
Qed.

Lemma Prim2SF_of_Z_pos p :
  Zpos p < 2 ^ 53 ->
  exists m e,
    Prim2SF (of_Z (Zpos p)) = S754_finite false m e
    /\ Zpos m = Zpos p * 2 ^ (- e) /\ -52 <= e <= 0
    /\ Zpos (digits2_pos m) = 53.
Proof.
  intros Hp. unfold of_Z. rewrite of_uint63_spec, Uint63.of_Z_spec.
  rewrite Z.mod_small by (change wB with (2 ^ 63); split; [lia|];
    apply Z.lt_trans with (1 := Hp); reflexivity).
  now apply binary_normalize_small.
Qed.

End IntegerNumbers.

(** ** The three paths of [calculateCosts] *)

Lemma calculateCosts_guard input :
  zeroGuard input = true -> calculateCosts input = degenerateResult true.
Proof. intros H. unfold calculateCosts, calculateCosts_try. now rewrite H. Qed.

Lemma calculateCosts_fault input :
  zeroGuard input = false -> arrayFault input = true ->
  calculateCosts input = degenerateResult false.
Proof.
  intros Hg Hf. unfold calculateCosts, calculateCosts_try, Array_from_length.
  rewrite Hg. unfold arrayFault in Hf. now rewrite Hf.
Qed.

Lemma calculateCosts_main input :
  zeroGuard input = false -> arrayFault input = false ->
  calculateCosts input =
  computeCosts input (OPENAI_MODELS !! selectedModel input) (messageSlots input).
Proof.
  intros Hg Hf. unfold calculateCosts, calculateCosts_try, Array_from_length.
  rewrite Hg. unfold arrayFault in Hf. now rewrite Hf.
Qed.

Lemma calculateCosts_cases input :
  calculateCosts input = degenerateResult true
  \/ calculateCosts input = degenerateResult false
  \/ (zeroGuard input = false /\ arrayFault input = false /\
      calculateCosts input =
      computeCosts input (OPENAI_MODELS !! selectedModel input) (messageSlots input)).
Proof.
  destruct (zeroGuard input) eqn:Hg; [left; now apply calculateCosts_guard|].
  destruct (arrayFault input) eqn:Hf; [right; left; now apply calculateCosts_fault|].
  right; right. repeat split. now apply calculateCosts_main.
Qed.

(** ** Comparisons with zero *)

Lemma lt_0_not_le_0 x : lt 0 x = true -> le x 0 = false.
Proof.
  unfold lt, le. rewrite ltb_spec, leb_spec.
  change (Prim2SF 0) with (S754_zero false).
  unfold SFltb, SFleb.
  destruct (Prim2SF x) as [s|s| |s m e]; cbn; try discriminate;
    now destruct s.
Qed.

Lemma lt_0_not_eq_0 x : lt 0 x = true -> strict_eq x 0 = false.
Proof.
  unfold lt, strict_eq. rewrite ltb_spec, eqb_spec.
  change (Prim2SF 0) with (S754_zero false).
  unfold SFltb, SFeqb.
  destruct (Prim2SF x) as [s|s| |s m e]; cbn; try discriminate;
    now destruct s.
Qed.

Lemma lt_0_r_not_eq_0 x : lt x 0 = true -> strict_eq x 0 = false.
Proof.
  unfold lt, strict_eq. rewrite ltb_spec, eqb_spec.
  change (Prim2SF 0) with (S754_zero false).
  unfold SFltb, SFeqb.
  destruct (Prim2SF x) as [s|s| |s m e]; cbn; try discriminate;
    now destruct s.
Qed.

(** ** Conversation history *)

Lemma of_nat_nonzero n :
  (0 < n)%nat -> (Z.of_nat n < 2 ^ 53)%Z -> strict_eq (of_nat n) 0 = false.
Proof.
  intros Hn Hb. unfold of_nat, strict_eq. rewrite eqb_spec.
  destruct (Z.of_nat n) as [|p|p] eqn:Hz; try lia.
  destruct (Prim2SF_of_Z_pos p Hb) as (m & e & -> & _).
  reflexivity.
Qed.

Lemma getHistoryTokensForMessage_term q o n :
  (Z.of_nat n < 2 ^ 53)%Z ->
  getHistoryTokensForMessage q o (of_nat n) = historyTerm q o n.
Proof.
  intros Hb. unfold getHistoryTokensForMessage. destruct n as [|k].
  - reflexivity.
  - now rewrite of_nat_nonzero by lia.
Qed.

Lemma map_from_app {A B} (f : A -> number -> B) i (l l' : list A) :
  map_from f i (l ++ l') = map_from f i l ++ map_from f (i + length l) l'.
Proof.
  revert i. induction l as [|x l IH]; intros i; cbn [map_from app length].
  - now rewrite Nat.add_0_r.
  - rewrite IH. do 3 f_equal. lia.
Qed.

Lemma repeat_snoc {A} (x : A) n : repeat x (S n) = repeat x n ++ [x].
Proof. induction n as [|n IH]; [reflexivity|]. cbn [repeat app] in *. now rewrite <- IH. Qed.

(** The [map]/[reduce] pipeline of the calculator computes [historySum]. *)
Lemma totalHistoryTokens_sum q o n :
  (Z.of_nat n <= 2 ^ 53)%Z ->
  totalHistoryTokens q o (repeat tt n) = historySum q o n.
Proof.
  unfold totalHistoryTokens, Array_reduce, Array_map.
  induction n as [|n IH]; intros Hb; [reflexivity|].
  rewrite repeat_snoc, map_from_app, fold_left_app, IH by lia.
  cbn [map_from fold_left historySum]. rewrite repeat_length, Nat.add_0_l.
  now rewrite getHistoryTokensForMessage_term by lia.
Qed.

Lemma arrayFault_length input :
  arrayFault input = false ->
  (Z.of_nat (Z.to_nat (ToLength (messagesPerConversation input))) <= 2 ^ 27 - 1)%Z.
Proof.
  unfold arrayFault. intros H%Z.ltb_ge. unfold max_array_length in H. lia.
Qed.

(** ** Rounding never loses a number that is not too small *)

Section Rounding.
#[local] Open Scope Z_scope.

Lemma shr_1_m mrs : 0 <= shr_m mrs -> shr_m (shr_1 mrs) = shr_m mrs / 2.
Proof.
  destruct mrs as [m r s]. cbn [shr_m]. intros Hm.
  destruct m as [|[p|p|]|p]; cbn [shr_1 shr_m]; try lia; try reflexivity.
  - apply Z.div_unique with 1; lia.
  - apply Z.div_unique with 0; lia.
Qed.

Lemma iter_shr_1_m p mrs :
  0 <= shr_m mrs -> shr_m (iter_pos shr_1 p mrs) = shr_m mrs / 2 ^ Zpos p.
Proof.
  revert mrs. induction p as [p IH|p IH|]; intros mrs Hm; cbn [iter_pos].
  - assert (Hp : 0 < 2 ^ Zpos p) by (apply Z.pow_pos_nonneg; lia).
    assert (H1 : 0 <= shr_m (shr_1 mrs))
      by (rewrite shr_1_m by assumption; apply Z.div_pos; lia).
    assert (H2 : 0 <= shr_m (iter_pos shr_1 p (shr_1 mrs)))
      by (rewrite IH by assumption; apply Z.div_pos; lia).
    rewrite IH, IH, shr_1_m by assumption.
    rewrite !Z.div_div by lia. f_equal.
    replace (Zpos p~1) with (Zpos p + Zpos p + 1) by lia.
    rewrite !Z.pow_add_r, Z.pow_1_r by lia. lia.
  - assert (Hp : 0 < 2 ^ Zpos p) by (apply Z.pow_pos_nonneg; lia).
    assert (H2 : 0 <= shr_m (iter_pos shr_1 p mrs))
      by (rewrite IH by assumption; apply Z.div_pos; lia).
    rewrite IH, IH by assumption.
    rewrite !Z.div_div by lia. f_equal.
    replace (Zpos p~0) with (Zpos p + Zpos p) by lia.
    rewrite !Z.pow_add_r by lia. lia.
  - now rewrite shr_1_m.
Qed.

Lemma shr_record_of_loc_m m l : shr_m (shr_record_of_loc m l) = m.
Proof. now destruct l as [|[| |]]. Qed.

Lemma round_nearest_even_bounds m l :
  m <= round_nearest_even m l <= m + 1.
Proof.
  destruct l as [|[| |]]; cbn [round_nearest_even]; try lia.
  destruct (Z.even m); lia.
Qed.

(** Shifting a positive mantissa to its canonical exponent leaves it
    positive as long as the number is not below the smallest subnormal. *)
Lemma shr_fexp_positive m e l :
  0 < m -> -1074 < Zdigits2 m + e ->
  0 < shr_m (fst (shr_fexp prec emax m e l))
  /\ -1074 <= snd (shr_fexp prec emax m e l).
Proof.
  intros Hm Hd. destruct m as [|p|p]; try lia. cbn [Zdigits2] in *.
  pose proof (digits2_pos_bounds p) as [Hlo Hhi].
  unfold shr_fexp, shr, fexp, SpecFloat.emin. cbn [Zdigits2].
  change (3 - emax - prec) with (-1074). change prec with 53.
  destruct (Z.max (Zpos (digits2_pos p) + e - 53) (-1074) - e) as [|n|n] eqn:Hn;
    cbn [fst snd]; rewrite ?shr_record_of_loc_m; try lia.
  rewrite iter_shr_1_m by (rewrite shr_record_of_loc_m; lia).
  rewrite shr_record_of_loc_m. split; [|lia].
  apply Z.div_str_pos. split; [apply Z.pow_pos_nonneg; lia|].
  apply Z.le_trans with (2 := Hlo). apply Z.pow_le_mono_r; lia.
Qed.

(** Rounding such a number gives a finite number of the same sign, or
    overflows to the infinity of that sign: never a zero, never [NaN]. *)
Lemma binary_round_aux_nonzero s m e l :
  -1074 < Zpos (digits2_pos m) + e ->
  (exists m' e', binary_round_aux prec emax s (Zpos m) e l = S754_finite s m' e')
  \/ binary_round_aux prec emax s (Zpos m) e l = S754_infinity s.
Proof.
  intros Hd. unfold binary_round_aux.
  destruct (shr_fexp_positive (Zpos m) e l) as [H1 He1]; [lia|assumption|].
  destruct (shr_fexp prec emax (Zpos m) e l) as [mrs' e'] eqn:E1. cbn [fst snd] in *.
  pose proof (round_nearest_even_bounds (shr_m mrs') (loc_of_shr_record mrs')) as Hr.
  set (m2 := round_nearest_even (shr_m mrs') (loc_of_shr_record mrs')) in *.
  destruct (shr_fexp_positive m2 e' loc_Exact) as [H2 He2]; [lia| |].
  { destruct m2 as [|p2|p2]; try lia. cbn [Zdigits2]. lia. }
  destruct (shr_fexp prec emax m2 e' loc_Exact) as [mrs'' e''] eqn:E2. cbn [fst snd] in *.
  destruct (shr_m mrs'') as [|p|p]; try lia.
  destruct (e'' <=? emax - prec); [left; eauto|now right].
Qed.

Lemma digits2_pos_mul_ge p q :
  Zpos (digits2_pos p) + Zpos (digits2_pos q) - 1 <= Zpos (digits2_pos (p * q)).
Proof.
  pose proof (digits2_pos_bounds p) as [Hp _].
  pose proof (digits2_pos_bounds q) as [Hq _].
  pose proof (digits2_pos_bounds (p * q)) as [_ Hpq].
  rewrite Pos2Z.inj_mul in Hpq.
  destruct (Z.leb_spec (Zpos (digits2_pos p) + Zpos (digits2_pos q) - 1)
              (Zpos (digits2_pos (p * q)))) as [|Hlt]; [assumption|exfalso].
  assert (2 ^ Zpos (digits2_pos (p * q))
          <= 2 ^ (Zpos (digits2_pos p) - 1 + (Zpos (digits2_pos q) - 1)))
    by (apply Z.pow_le_mono_r; lia).
  rewrite Z.pow_add_r in H by lia.
  assert (0 < 2 ^ (Zpos (digits2_pos p) - 1)) by (apply Z.pow_pos_nonneg; lia).
  assert (0 < 2 ^ (Zpos (digits2_pos q) - 1)) by (apply Z.pow_pos_nonneg; lia).
  nia.
Qed.

(** The exponent of a number is at least that of the subnormals. *)
Lemma Prim2SF_finite_exponent x s m e :
  Prim2SF x = S754_finite s m e -> -1074 <= e.
Proof.
  intros Hx. pose proof (Prim2SF_valid x) as Hv. rewrite Hx in Hv.
  cbn [SpecFloat.valid_binary] in Hv. unfold bounded, canonical_mantissa in Hv.
  apply andb_prop in Hv as [Hc _]. apply Z.eqb_eq in Hc.
  unfold fexp, SpecFloat.emin in Hc. change (3 - emax - prec) with (-1074) in Hc. lia.
Qed.

End Rounding.

(** ** Zeros, [NaN] and infinities through the operations *)

Section ClassArithmetic.

(** The tolerance test of the backcheck on a number and itself. *)
Lemma match_self x : lt (Math_abs (x - x)) 0.0001 = is_finite x.
Proof.
  unfold lt, Math_abs. rewrite ltb_spec, abs_spec, sub_spec, is_finite_spec.
  change (Prim2SF 0.0001) with (S754_finite false 7378697629483821 (-66)).
  destruct (Prim2SF x) as [s|s| |s m e].
  - now destruct s.
  - now destruct s.
  - reflexivity.
  - unfold SF64sub, SFsub. cbv zeta. now rewrite Z.sub_diag.
Qed.

Lemma match_zeros a b :
  is_zero a = true -> is_zero b = true -> lt (Math_abs (a - b)) 0.0001 = true.
Proof.
  rewrite !is_zero_spec. unfold lt, Math_abs. rewrite ltb_spec, abs_spec, sub_spec.
  change (Prim2SF 0.0001) with (S754_finite false 7378697629483821 (-66)).
  destruct (Prim2SF a) as [sa|sa| |sa ma ea]; try discriminate.
  destruct (Prim2SF b) as [sb|sb| |sb mb eb]; try discriminate.
  now destruct sa, sb.
Qed.

Lemma is_finite_mul a b :
  is_finite (a * b) = true -> is_finite a = true /\ is_finite b = true.
Proof.
  rewrite !is_finite_spec, mul_spec.
  destruct (Prim2SF a) as [sa|sa| |sa ma ea], (Prim2SF b) as [sb|sb| |sb mb eb];
    cbn; auto; discriminate.
Qed.

Lemma is_finite_div_l a b : is_finite (a / b) = true -> is_finite a = true.
Proof.
  rewrite !is_finite_spec, div_spec.
  destruct (Prim2SF a) as [sa|sa| |sa ma ea], (Prim2SF b) as [sb|sb| |sb mb eb];
    cbn; auto; discriminate.
Qed.

Lemma is_zero_mul_0_r x : is_finite x = true -> is_zero (x * 0) = true.
Proof.
  rewrite is_finite_spec, is_zero_spec, mul_spec.
  change (Prim2SF 0) with (S754_zero false).
  now destruct (Prim2SF x).
Qed.

Lemma is_zero_mul_l a c : is_zero a = true -> is_finite c = true -> is_zero (a * c) = true.
Proof.
  rewrite is_finite_spec, !is_zero_spec, mul_spec.
  destruct (Prim2SF a); try discriminate. now destruct (Prim2SF c).
Qed.

Lemma is_zero_add a b : is_zero a = true -> is_zero b = true -> is_zero (a + b) = true.
Proof.
  rewrite !is_zero_spec, add_spec.
  destruct (Prim2SF a) as [sa|sa| |sa ma ea]; try discriminate.
  destruct (Prim2SF b) as [sb|sb| |sb mb eb]; try discriminate.
  now destruct sa, sb.
Qed.

Lemma is_zero_div a b :
  is_zero a = true -> is_nan b = false -> is_zero b = false -> is_zero (a / b) = true.
Proof.
  rewrite !is_zero_spec, is_nan_spec, div_spec.
  destruct (Prim2SF a) as [sa|sa| |sa ma ea]; try discriminate.
  now destruct (Prim2SF b).
Qed.

(** A positive number: finite and not zero, or [+Infinity]. *)
Lemma gt_0_spec x :
  gt x 0 = true ->
  (exists m e, Prim2SF x = S754_finite false m e) \/ Prim2SF x = S754_infinity false.
Proof.
  unfold gt. rewrite ltb_spec. change (Prim2SF 0) with (S754_zero false).
  destruct (Prim2SF x) as [s|s| |s m e]; cbn; try discriminate;
    destruct s; try discriminate; eauto.
Qed.

Lemma gt_0_not_nan_zero x :
  gt x 0 = true -> is_nan x = false /\ is_zero x = false.
Proof.
  intros H. rewrite is_nan_spec, is_zero_spec.
  destruct (gt_0_spec x H) as [(m & e & ->)| ->]; auto.
Qed.

(** Thirty times a positive number is neither zero nor [NaN]. *)
Lemma mul_30_not_nan_zero x :
  gt x 0 = true -> is_nan (x * 30) = false /\ is_zero (x * 30) = false.
Proof.
  intros H. rewrite is_nan_spec, is_zero_spec, mul_spec.
  change (Prim2SF 30) with (S754_finite false 8444249301319680 (-48)).
  destruct (gt_0_spec x H) as [(m & e & Hx)| ->]; [|auto].
  rewrite Hx. unfold SF64mul, SFmul.
  pose proof (Prim2SF_finite_exponent x _ _ _ Hx) as He.
  pose proof (digits2_pos_mul_ge m 8444249301319680) as Hd.
  change (Zpos (digits2_pos 8444249301319680)) with 53%Z in Hd.
  destruct (binary_round_aux_nonzero (xorb false false)
              (m * 8444249301319680) (e + -48) loc_Exact) as [(m' & e' & ->)| ->];
    auto.
  pose proof (Pos2Z.is_pos (digits2_pos m)). lia.
Qed.

End ClassArithmetic.

(** With both prices at 0 every cost is a zero and the two evaluations of
    the daily cost agree, as long as the priced volumes are finite. *)
Lemma zero_price_costs (T O M U : number) :
  is_finite (T * M / 1000) = true ->
  is_finite (O * M / 1000) = true ->
  let daily := T * M / 1000 * 0 + O * M / 1000 * 0 in
  is_zero daily = true
  /\ is_zero (daily * 30) = true
  /\ is_zero (daily * 365) = true
  /\ is_zero (if gt M 0 then daily * 30 / (M * 30) else 0) = true
  /\ is_zero (if gt U 0 then daily * 30 / U else 0) = true
  /\ is_zero (T * M * 0 / 1000 + O * M * 0 / 1000) = true
  /\ is_finite M = true.
Proof.
  intros HT HO. cbv zeta.
  assert (Hd : is_zero (T * M / 1000 * 0 + O * M / 1000 * 0) = true)
    by (apply is_zero_add; now apply is_zero_mul_0_r).
  assert (Hm : is_zero ((T * M / 1000 * 0 + O * M / 1000 * 0) * 30) = true)
    by (now apply is_zero_mul_l).
  pose proof (is_finite_div_l _ _ HT) as HTM.
  pose proof (is_finite_div_l _ _ HO) as HOM.
  repeat split; try assumption.
  - now apply is_zero_mul_l.
  - destruct (gt M 0) eqn:HM; [|reflexivity].
    destruct (mul_30_not_nan_zero M HM). now apply is_zero_div.
  - destruct (gt U 0) eqn:HU; [|reflexivity].
    destruct (gt_0_not_nan_zero U HU). now apply is_zero_div.
  - apply is_zero_add; (apply is_zero_div; [now apply is_zero_mul_0_r|reflexivity..]).
  - now destruct (is_finite_mul _ _ HTM).
Qed.

(** * Rounding to nearest

    [binary_round_aux] rounds a magnitude whose position between two
    consecutive integers is known; the lemmas below follow that position
    through the shifts and give the result for the normal range. *)

Section RoundingCorrect.
#[local] Open Scope Z_scope.

Lemma loc_of_shr_record_of_loc m l : loc_of_shr_record (shr_record_of_loc m l) = l.
Proof. now destruct l as [|[| |]]. Qed.

Lemma shr_1_inbetween mrs num den :
  0 < den -> 0 <= shr_m mrs ->
  inbetween (shr_m mrs) num den (loc_of_shr_record mrs) ->
  inbetween (shr_m (shr_1 mrs)) num (2 * den) (loc_of_shr_record (shr_1 mrs)).
Proof.
  destruct mrs as [m r s]. cbn [shr_m]. intros Hden Hm H.
  destruct m as [|[p|p|]|p]; try lia;
    destruct r, s; cbn [loc_of_shr_record] in H; inversion H;
    cbn [shr_1 shr_m loc_of_shr_record orb]; constructor; lia.
Qed.

Lemma iter_shr_1_inbetween p mrs num den :
  0 < den -> 0 <= shr_m mrs ->
  inbetween (shr_m mrs) num den (loc_of_shr_record mrs) ->
  inbetween (shr_m (iter_pos shr_1 p mrs)) num (den * 2 ^ Zpos p)
    (loc_of_shr_record (iter_pos shr_1 p mrs)).
Proof.
  revert mrs den. induction p as [p IH|p IH|]; intros mrs den Hden Hm H; cbn [iter_pos].
  - assert (Hp : 0 < 2 ^ Zpos p) by (apply Z.pow_pos_nonneg; lia).
    assert (H1 : 0 <= shr_m (shr_1 mrs))
      by (rewrite shr_1_m by assumption; apply Z.div_pos; lia).
    assert (H2 : 0 <= shr_m (iter_pos shr_1 p (shr_1 mrs)))
      by (rewrite iter_shr_1_m by assumption; apply Z.div_pos; lia).
    replace (den * 2 ^ Zpos p~1) with (2 * den * 2 ^ Zpos p * 2 ^ Zpos p).
    + apply IH; [nia|assumption|]. apply IH; [lia|assumption|].
      now apply shr_1_inbetween.
    + replace (Zpos p~1) with (Zpos p + Zpos p + 1) by lia.
      rewrite !Z.pow_add_r, Z.pow_1_r by lia. lia.
  - assert (Hp : 0 < 2 ^ Zpos p) by (apply Z.pow_pos_nonneg; lia).
    assert (H2 : 0 <= shr_m (iter_pos shr_1 p mrs))
      by (rewrite iter_shr_1_m by assumption; apply Z.div_pos; lia).
    replace (den * 2 ^ Zpos p~0) with (den * 2 ^ Zpos p * 2 ^ Zpos p).
    + apply IH; [nia|assumption|]. now apply IH.
    + replace (Zpos p~0) with (Zpos p + Zpos p) by lia.
      rewrite !Z.pow_add_r by lia. lia.
  - rewrite Z.pow_1_r, Z.mul_comm. now apply shr_1_inbetween.
Qed.

(** Rounding to nearest, ties to even, is within half a unit. *)
Lemma round_nearest_even_inbetween m num den l :
  0 < den -> inbetween m num den l ->
  2 * Z.abs (round_nearest_even m l * den - num) <= den.
Proof.
  intros Hden H. inversion H; subst; cbn [round_nearest_even]; try lia.
  destruct (Z.even m); lia.
Qed.

Lemma fexp_normal z : -1074 <= z - 53 -> fexp prec emax z = z - 53.
Proof.
  unfold fexp, SpecFloat.emin. change (3 - emax - prec) with (-1074).
  change prec with 53. lia.
Qed.

Lemma digits2_pos_div p n :
  0 <= n < Zpos (digits2_pos p) ->
  2 ^ (Zpos (digits2_pos p) - n - 1) <= Zpos p / 2 ^ n < 2 ^ (Zpos (digits2_pos p) - n).
Proof.
  intros Hn. pose proof (digits2_pos_bounds p) as [Hlo Hhi].
  assert (Hp : 0 < 2 ^ n) by (apply Z.pow_pos_nonneg; lia).
  split.
  - apply Z.div_le_lower_bound; [assumption|].
    rewrite <- Z.pow_add_r by lia.
    replace (n + (Zpos (digits2_pos p) - n - 1)) with (Zpos (digits2_pos p) - 1) by lia.
    assumption.
  - apply Z.div_lt_upper_bound; [assumption|].
    rewrite <- Z.pow_add_r by lia.
    now replace (n + (Zpos (digits2_pos p) - n)) with (Zpos (digits2_pos p)) by lia.
Qed.

(** The first shift of [binary_round_aux]. *)
Lemma shr_inbetween m l e n num den :
  0 < den -> 0 <= n -> inbetween (Zpos m) num den l ->
  exists mrs,
    shr (shr_record_of_loc (Zpos m) l) e n = (mrs, e + n)
    /\ shr_m mrs = Zpos m / 2 ^ n
    /\ inbetween (shr_m mrs) num (den * 2 ^ n) (loc_of_shr_record mrs).
Proof.
  intros Hden Hn H. destruct n as [|n|n]; try lia.
  - exists (shr_record_of_loc (Zpos m) l). cbn [shr].
    rewrite Z.add_0_r, shr_record_of_loc_m, loc_of_shr_record_of_loc, Z.pow_0_r,
      Z.div_1_r, Z.mul_1_r. auto.
  - exists (iter_pos shr_1 n (shr_record_of_loc (Zpos m) l)). cbn [shr].
    split; [reflexivity|]. split.
    + now rewrite iter_shr_1_m, shr_record_of_loc_m by (rewrite shr_record_of_loc_m; lia).
    + apply iter_shr_1_inbetween; rewrite ?shr_record_of_loc_m, ?loc_of_shr_record_of_loc;
        auto; lia.
Qed.

(** In the normal range [binary_round_aux] returns the canonical number
    whose value is the rounded mantissa at the exponent of the binade. *)
Lemma binary_round_aux_normal s m e l num den :
  0 < den -> inbetween (Zpos m) num den l ->
  53 <= Zpos (digits2_pos m) ->
  -1074 <= Zpos (digits2_pos m) + e - 53 ->
  Zpos (digits2_pos m) + e <= 1023 ->
  let n := Zpos (digits2_pos m) - 53 in
  exists R m' e',
    binary_round_aux prec emax s (Zpos m) e l = S754_finite s m' e'
    /\ bounded prec emax m' e' = true
    /\ Zpos (digits2_pos m') = 53
    /\ 2 * Z.abs (R * (den * 2 ^ n) - num) <= den * 2 ^ n
    /\ 2 ^ 52 <= R <= 2 ^ 53
    /\ e + n <= e' /\ Zpos m' * 2 ^ (e' - (e + n)) = R.
Proof.
  intros Hden H Hd Hlo Hhi n.
  assert (Hn : n = Zpos (digits2_pos m) - 53) by reflexivity. clearbody n.
  assert (Hpn : 0 < 2 ^ n) by (apply Z.pow_pos_nonneg; lia).
  unfold binary_round_aux, shr_fexp. cbn [Zdigits2].
  rewrite fexp_normal by lia.
  replace (Zpos (digits2_pos m) + e - 53 - e) with n by lia.
  destruct (shr_inbetween m l e n num den) as (mrs & -> & Hq & Hin); [lia..|assumption|].
  pose proof (digits2_pos_div m n ltac:(lia)) as Hqb.
  replace (Zpos (digits2_pos m) - n - 1) with 52 in Hqb by lia.
  replace (Zpos (digits2_pos m) - n) with 53 in Hqb by lia.
  rewrite <- Hq in Hqb.
  pose proof (round_nearest_even_bounds (shr_m mrs) (loc_of_shr_record mrs)) as HR.
  pose proof (round_nearest_even_inbetween _ _ _ _ (Z.mul_pos_pos _ _ Hden Hpn) Hin) as Herr.
  set (R := round_nearest_even (shr_m mrs) (loc_of_shr_record mrs)) in *.
  destruct R as [|pR|pR] eqn:ER; try lia.
  destruct (Z.ltb_spec (Zpos pR) (2 ^ 53)) as [Hlt|Hge].
  - assert (HdR : Zpos (digits2_pos pR) = 53) by (apply digits2_pos_unique; lia).
    cbn [Zdigits2]. rewrite HdR, fexp_normal by lia.
    replace (53 + (e + n) - 53 - (e + n)) with 0 by lia.
    cbn [shr shr_record_of_loc shr_m].
    replace (e + n <=? emax - prec) with true
      by (symmetry; apply Z.leb_le; change (emax - prec) with 971; lia).
    exists (Zpos pR), pR, (e + n). repeat split; try lia.
    + unfold bounded, canonical_mantissa. rewrite HdR, fexp_normal by lia.
      apply andb_true_intro. split; [apply Z.eqb_eq; lia|].
      apply Z.leb_le. change (emax - prec) with 971. lia.
    + rewrite Z.sub_diag. cbn. lia.
  - assert (E53 : Zpos pR = 2 ^ 53) by lia.
    assert (EpR : pR = 9007199254740992%positive) by (apply Pos2Z.inj; rewrite E53; reflexivity).
    subst pR. cbn [Zdigits2].
    change (Zpos (digits2_pos 9007199254740992)) with 54.
    rewrite fexp_normal by lia.
    replace (54 + (e + n) - 53 - (e + n)) with 1 by lia.
    cbn [shr shr_record_of_loc iter_pos shr_1 shr_m].
    replace (e + n + 1 <=? emax - prec) with true
      by (symmetry; apply Z.leb_le; change (emax - prec) with 971; lia).
    exists (2 ^ 53), 4503599627370496%positive, (e + n + 1). repeat split; try lia.
    + unfold bounded, canonical_mantissa.
      change (Zpos (digits2_pos 4503599627370496)) with 53.
      rewrite fexp_normal by lia.
      apply andb_true_intro. split; [apply Z.eqb_eq; lia|].
      apply Z.leb_le. change (emax - prec) with 971. lia.
    + replace (e + n + 1 - (e + n)) with 1 by lia. reflexivity.
Qed.

End RoundingCorrect.

(** ** Real values and the error of one rounding *)

Section RealValues.
#[local] Open Scope R_scope.

Lemma pow2_pos e : 0 < pow2 e.
Proof. apply powerRZ_lt. lra. Qed.

Lemma pow2_add a b : pow2 (a + b) = pow2 a * pow2 b.
Proof. apply powerRZ_add. lra. Qed.

Lemma pow2_IZR n : (0 <= n)%Z -> pow2 n = IZR (2 ^ n).
Proof.
  intros Hn. unfold pow2. rewrite <- (Z2Nat.id n Hn) at 1.
  rewrite <- pow_powerRZ, pow_IZR. now rewrite Z2Nat.id.
Qed.

Lemma pow2_m1 : pow2 (-1) = / 2.
Proof. unfold pow2. simpl. now rewrite Rmult_1_r. Qed.

Lemma pow2_le a b : (a <= b)%Z -> pow2 a <= pow2 b.
Proof.
  intros H. replace b with (a + (b - a))%Z by lia. rewrite pow2_add.
  rewrite (pow2_IZR (b - a)) by lia.
  assert (0 < 2 ^ (b - a))%Z by (apply Z.pow_pos_nonneg; lia).
  assert (1 <= IZR (2 ^ (b - a))) by (apply IZR_le; lia).
  pose proof (pow2_pos a). nra.
Qed.

Lemma pow2_lt_inv a b : pow2 a < pow2 b -> (a < b)%Z.
Proof.
  intros H. destruct (Z.ltb_spec a b); [assumption|].
  pose proof (pow2_le b a ltac:(lia)). lra.
Qed.

Lemma inbetween_lower m num den l : inbetween m num den l -> (0 < den)%Z -> (m * den <= num)%Z.
Proof. intros H Hden. inversion H; lia. Qed.

Lemma IZR_pos_gt_0 p : 0 < IZR (Zpos p).
Proof. apply IZR_lt. lia. Qed.

Lemma digits_value_bounds m e :
  pow2 (Zpos (digits2_pos m) - 1 + e) <= IZR (Zpos m) * pow2 e
  < pow2 (Zpos (digits2_pos m) + e).
Proof.
  pose proof (digits2_pos_bounds m) as [Hlo Hhi].
  rewrite !pow2_add, (pow2_IZR (Zpos (digits2_pos m) - 1)),
    (pow2_IZR (Zpos (digits2_pos m))) by lia.
  apply IZR_le in Hlo. apply IZR_lt in Hhi. pose proof (pow2_pos e). nra.
Qed.

Lemma inbetween_upper m num den l :
  inbetween m num den l -> (0 < den)%Z -> (num < (m + 1) * den)%Z.
Proof. intros H Hden. inversion H; lia. Qed.

(** The order of two positive normal numbers is the order of their values. *)
Lemma SFcompare_pos_normal mx ex my ey :
  Zpos (digits2_pos mx) = 53%Z -> Zpos (digits2_pos my) = 53%Z ->
  let vx := IZR (Zpos mx) * pow2 ex in
  let vy := IZR (Zpos my) * pow2 ey in
  match SFcompare (S754_finite false mx ex) (S754_finite false my ey) with
  | Some Lt => vx < vy
  | Some Eq => mx = my /\ ex = ey
  | Some Gt => vy < vx
  | None => False
  end.
Proof.
  intros Hdx Hdy vx vy. cbn [SFcompare].
  pose proof (digits_value_bounds mx ex) as [Hxlo Hxhi].
  pose proof (digits_value_bounds my ey) as [Hylo Hyhi].
  rewrite Hdx in Hxlo, Hxhi. rewrite Hdy in Hylo, Hyhi.
  destruct (Z.compare_spec ex ey) as [->|Hlt|Hgt].
  - change (Pos.compare_cont Eq mx my) with (Pos.compare mx my).
    pose proof (pow2_pos ey).
    destruct (Pos.compare_spec mx my) as [->|Hm|Hm].
    + auto.
    + unfold vx, vy. apply Rmult_lt_compat_r; [assumption|]. apply IZR_lt. lia.
    + unfold vx, vy. apply Rmult_lt_compat_r; [assumption|]. apply IZR_lt. lia.
  - pose proof (pow2_le (53 + ex) (53 - 1 + ey) ltac:(lia)). unfold vx, vy. lra.
  - pose proof (pow2_le (53 + ey) (53 - 1 + ex) ltac:(lia)). unfold vx, vy. lra.
Qed.

Lemma pos_normal_value_inj mx ex my ey :
  Zpos (digits2_pos mx) = 53%Z -> Zpos (digits2_pos my) = 53%Z ->
  IZR (Zpos mx) * pow2 ex = IZR (Zpos my) * pow2 ey -> mx = my /\ ex = ey.
Proof.
  intros Hdx Hdy Hv.
  pose proof (SFcompare_pos_normal mx ex my ey Hdx Hdy) as H. cbv zeta in H.
  destruct (SFcompare _ _) as [[| |]|]; try contradiction; try lra. assumption.
Qed.

(** In the normal range the rounded number is within a relative [2^-53]
    of the exact one. *)
Lemma binary_round_aux_error s m e l num den :
  (0 < den)%Z -> inbetween (Zpos m) num den l ->
  (53 <= Zpos (digits2_pos m))%Z ->
  (-1074 <= Zpos (digits2_pos m) + e - 53)%Z ->
  (Zpos (digits2_pos m) + e <= 1023)%Z ->
  let x := IZR num / IZR den * pow2 e in
  exists m' e',
    binary_round_aux prec emax s (Zpos m) e l = S754_finite s m' e'
    /\ bounded prec emax m' e' = true
    /\ Zpos (digits2_pos m') = 53%Z
    /\ Rabs (IZR (Zpos m') * pow2 e' - x) <= pow2 (-53) * x
    /\ pow2 (Zpos (digits2_pos m) - 1 + e) <= x
    /\ (Zpos (digits2_pos m) + e - 53 <= e' <= Zpos (digits2_pos m) + e - 52)%Z
    /\ (forall mz ez, Zpos (digits2_pos mz) = 53%Z ->
        IZR (Zpos mz) * pow2 ez = x -> m' = mz /\ e' = ez).
Proof.
  intros Hden Hin Hd Hlo Hhi x.
  destruct (binary_round_aux_normal s m e l num den Hden Hin Hd Hlo Hhi)
    as (R & m' & e' & Heq & Hb & Hd' & Herr & HR & He' & Hm').
  set (n := (Zpos (digits2_pos m) - 53)%Z) in *.
  assert (Hn : (0 <= n)%Z) by (unfold n; lia).
  exists m', e'. split; [exact Heq|]. split; [exact Hb|]. split; [exact Hd'|].
  assert (Hden' : 0 < IZR den) by (now apply IZR_lt).
  assert (Hx : IZR (Zpos m) * pow2 e <= x).
  { unfold x. apply inbetween_lower in Hin; [|assumption].
    apply IZR_le in Hin. rewrite mult_IZR in Hin.
    pose proof (pow2_pos e).
    apply Rmult_le_compat_r; [lra|].
    apply Rmult_le_reg_r with (IZR den); [assumption|].
    unfold Rdiv. rewrite Rmult_assoc, Rinv_l by lra. lra. }
  pose proof (digits_value_bounds m e) as [Hmlo _].
  assert (Hval : IZR (Zpos m') * pow2 e' = IZR R * pow2 (e + n)).
  { rewrite <- Hm', mult_IZR, <- pow2_IZR by lia.
    rewrite Rmult_assoc, <- pow2_add. f_equal. f_equal. lia. }
  split; [|split; [|split]].
  - rewrite Hval.
    (* the error in units of the last place *)
    assert (Herr' : Rabs (IZR R * pow2 n - IZR num / IZR den) <= pow2 n / 2).
    { apply Rmult_le_reg_r with (2 * IZR den); [lra|].
      replace (pow2 n / 2 * (2 * IZR den)) with (IZR (den * 2 ^ n))
        by (rewrite mult_IZR, <- pow2_IZR by lia; field).
      replace (Rabs (IZR R * pow2 n - IZR num / IZR den) * (2 * IZR den))
        with (IZR (2 * Z.abs (R * (den * 2 ^ n) - num))).
      - now apply IZR_le.
      - rewrite mult_IZR, abs_IZR, minus_IZR, !mult_IZR, <- pow2_IZR by lia.
        replace (IZR R * (IZR den * pow2 n) - IZR num)
          with ((IZR R * pow2 n - IZR num / IZR den) * IZR den) by (field; lra).
        rewrite Rabs_mult, (Rabs_pos_eq (IZR den)) by lra. ring. }
    unfold x. rewrite pow2_add.
    replace (IZR R * (pow2 e * pow2 n) - IZR num / IZR den * pow2 e)
      with ((IZR R * pow2 n - IZR num / IZR den) * pow2 e) by ring.
    rewrite Rabs_mult, (Rabs_pos_eq (pow2 e)) by (pose proof (pow2_pos e); lra).
    assert (Hhalf : pow2 n / 2 * pow2 e <= pow2 (-53) * x).
    { apply Rle_trans with (pow2 (-53) * (IZR (Zpos m) * pow2 e)).
      - apply Rle_trans with (pow2 (-53) * pow2 (Zpos (digits2_pos m) - 1 + e)).
        + rewrite <- pow2_add.
          replace (-53 + (Zpos (digits2_pos m) - 1 + e))%Z with (n + -1 + e)%Z
            by (unfold n; lia).
          rewrite !pow2_add, pow2_m1. lra.
        + apply Rmult_le_compat_l; [pose proof (pow2_pos (-53)); lra|assumption].
      - apply Rmult_le_compat_l; [pose proof (pow2_pos (-53)); lra|assumption]. }
    pose proof (pow2_pos e).
    apply Rle_trans with (2 := Hhalf).
    apply Rmult_le_compat_r; [lra|assumption].
  - lra.
  - assert (HRpos : (0 < R)%Z) by lia.
    assert (He'2 : (e' - (e + n) <= 1)%Z).
    { destruct (Z.leb_spec (e' - (e + n)) 1); [assumption|exfalso].
      assert (2 ^ 2 <= 2 ^ (e' - (e + n)))%Z by (apply Z.pow_le_mono_r; lia).
      pose proof (digits2_pos_bounds m') as [Hm'lo _]. rewrite Hd' in Hm'lo.
      change (2 ^ (53 - 1))%Z with (2 ^ 52)%Z in Hm'lo.
      assert (2 ^ 52 * 2 ^ 2 <= R)%Z by nia.
      change (2 ^ 52 * 2 ^ 2)%Z with (2 * 2 ^ 53)%Z in *. lia. }
    unfold n in *. lia.
  - intros mz ez Hdz Hz.
    assert (Hxhi : x < pow2 (Zpos (digits2_pos m) + e)).
    { pose proof (digits2_pos_bounds m) as [_ Hm].
      apply inbetween_upper in Hin; [|assumption].
      apply IZR_lt in Hin. rewrite mult_IZR in Hin.
      assert (IZR (Zpos m + 1) <= IZR (2 ^ Zpos (digits2_pos m))) by (apply IZR_le; lia).
      rewrite pow2_add, (pow2_IZR (Zpos (digits2_pos m))) by lia.
      pose proof (pow2_pos e).
      apply Rlt_le_trans with (IZR (Zpos m + 1) * pow2 e); [|nra].
      unfold x. apply Rmult_lt_compat_r; [assumption|].
      apply Rmult_lt_reg_r with (IZR den); [assumption|].
      unfold Rdiv. rewrite Rmult_assoc, Rinv_l by lra. lra. }
    pose proof (digits_value_bounds mz ez) as [Hzlo Hzhi]. rewrite Hdz, Hz in Hzlo, Hzhi.
    assert (Hez : ez = (e + n)%Z).
    { assert (53 - 1 + ez < Zpos (digits2_pos m) + e)%Z by (apply pow2_lt_inv; lra).
      assert (Zpos (digits2_pos m) - 1 + e < 53 + ez)%Z by (apply pow2_lt_inv; lra).
      unfold n. lia. }
    subst ez.
    assert (HZ : (Zpos mz * 2 ^ n * den = num)%Z).
    { apply eq_IZR. rewrite !mult_IZR, <- pow2_IZR by lia.
      unfold x in Hz. rewrite pow2_add in Hz. pose proof (pow2_pos e).
      apply Rmult_eq_reg_r with (pow2 e); [|lra].
      replace (IZR num * pow2 e) with (IZR num / IZR den * pow2 e * IZR den)
        by (field; lra).
      rewrite <- Hz. ring. }
    assert (HRz : R = Zpos mz).
    { assert (0 < den * 2 ^ n)%Z by (apply Z.mul_pos_pos; [assumption|];
        apply Z.pow_pos_nonneg; lia).
      replace num with (Zpos mz * (den * 2 ^ n))%Z in Herr by lia.
      nia. }
    apply pos_normal_value_inj; try assumption.
    now rewrite Hval, HRz.
Qed.

End RealValues.

(** ** Products, quotients and sums of positive normal numbers *)

Section PositiveNumbers.
#[local] Open Scope R_scope.

Lemma digits2_pos_mul_le p q :
  (Zpos (digits2_pos (p * q)) <= Zpos (digits2_pos p) + Zpos (digits2_pos q))%Z.
Proof.
  pose proof (digits2_pos_bounds p) as [_ Hp].
  pose proof (digits2_pos_bounds q) as [_ Hq].
  pose proof (digits2_pos_bounds (p * q)) as [Hpq _].
  rewrite Pos2Z.inj_mul in Hpq.
  destruct (Z.leb_spec (Zpos (digits2_pos (p * q)))
              (Zpos (digits2_pos p) + Zpos (digits2_pos q))) as [|Hlt]; [assumption|exfalso].
  assert (2 ^ (Zpos (digits2_pos p) + Zpos (digits2_pos q))
          <= 2 ^ (Zpos (digits2_pos (p * q)) - 1))%Z
    by (apply Z.pow_le_mono_r; lia).
  rewrite Z.pow_add_r in H by lia. nia.
Qed.

Lemma pos_normal_B2R x lo hi :
  pos_normal x lo hi ->
  0 < B2R x /\ pow2 (52 + lo) <= B2R x < pow2 (53 + hi).
Proof.
  intros (m & e & Hx & Hd & He). unfold B2R. rewrite Hx. cbn [SF2R].
  pose proof (digits_value_bounds m e) as [Hlo Hhi]. rewrite Hd in Hlo, Hhi.
  pose proof (pow2_pos (53 - 1 + e)).
  pose proof (pow2_le (52 + lo) (53 - 1 + e) ltac:(lia)).
  pose proof (pow2_le (53 + e) (53 + hi) ltac:(lia)). lra.
Qed.

(** Multiplication of positive normal numbers: the result is positive
    normal, within a relative [2^-53] of the exact product, and is the
    exact product when that is a number. *)
Lemma mul_pos_normal x y lx hx ly hy :
  pos_normal x lx hx -> pos_normal y ly hy ->
  (-1074 <= lx + ly + 52)%Z -> (hx + hy + 54 <= 971)%Z ->
  pos_normal (x * y) (lx + ly + 52) (hx + hy + 54)
  /\ Rabs (B2R (x * y) - B2R x * B2R y) <= ulp_half * (B2R x * B2R y)
  /\ (forall z lz hz, pos_normal z lz hz -> B2R z = B2R x * B2R y -> (x * y)%float = z).
Proof.
  intros (mx & ex & Hx & Hdx & Hex) (my & ey & Hy & Hdy & Hey) Hlo Hhi.
  pose proof (digits2_pos_mul_ge mx my) as Hge.
  pose proof (digits2_pos_mul_le mx my) as Hle.
  destruct (binary_round_aux_error false (mx * my) (ex + ey) loc_Exact
              (Zpos (mx * my)) 1) as (m' & e' & Hr & Hb & Hd' & Herr & _ & He' & Hexact);
    [lia|constructor; lia|lia..|].
  assert (Hxy : Prim2SF (x * y) = S754_finite false m' e')
    by (rewrite mul_spec, Hx, Hy; exact Hr).
  assert (Hv : IZR (Zpos (mx * my)) / 1 * pow2 (ex + ey) = B2R x * B2R y).
  { unfold B2R. rewrite Hx, Hy. cbn [SF2R]. rewrite Pos2Z.inj_mul, mult_IZR, pow2_add.
    field. }
  rewrite Hv in Herr, Hexact.
  split; [|split].
  - exists m', e'. repeat split; try assumption; lia.
  - unfold B2R at 1. rewrite Hxy. exact Herr.
  - intros z lz hz (mz & ez & Hz & Hdz & _) Hzv. apply Prim2SF_inj. rewrite Hxy, Hz.
    unfold B2R at 1 in Hzv. rewrite Hz in Hzv.
    now destruct (Hexact mz ez Hdz Hzv) as [-> ->].
Qed.

Lemma new_location_inbetween den r q num :
  (0 < den)%Z -> (num = q * den + r)%Z -> (0 <= r < den)%Z ->
  inbetween q num den (new_location den r).
Proof.
  intros Hden Hnum Hr. unfold new_location.
  destruct (Z.even den) eqn:Heven.
  - unfold new_location_even. destruct (Z.eqb_spec r 0) as [->|Hr0].
    + constructor. lia.
    + destruct (Z.compare_spec (2 * r) den); constructor; lia.
  - unfold new_location_odd. destruct (Z.eqb_spec r 0) as [->|Hr0].
    + constructor. lia.
    + assert (Hodd : Z.odd den = true) by (now rewrite <- Z.negb_even, Heven).
      apply Z.odd_spec in Hodd as [k Hk].
      destruct (Z.compare_spec (2 * r + 1) den); constructor; lia.
Qed.

Lemma pow2_sub a b : pow2 (a - b) = pow2 a / pow2 b.
Proof.
  pose proof (pow2_pos b). replace a with (a - b + b)%Z at 2 by lia.
  rewrite pow2_add. field. lra.
Qed.

(** Division of positive normal numbers. *)
Lemma div_pos_normal x y lx hx ly hy :
  pos_normal x lx hx -> pos_normal y ly hy ->
  (-1074 <= lx - hy - 53)%Z -> (hx - ly - 51 <= 971)%Z ->
  pos_normal (x / y) (lx - hy - 53) (hx - ly - 51)
  /\ Rabs (B2R (x / y) - B2R x / B2R y) <= ulp_half * (B2R x / B2R y)
  /\ (forall z lz hz, pos_normal z lz hz -> B2R z = B2R x / B2R y -> (x / y)%float = z).
Proof.
  intros (mx & ex & Hx & Hdx & Hex) (my & ey & Hy & Hdy & Hey) Hlo Hhi.
  pose proof (div_spec x y) as Hxy. rewrite Hx, Hy in Hxy.
  unfold SF64div, SFdiv in Hxy. cbn [xorb] in Hxy.
  unfold SFdiv_core_binary in Hxy. cbn [Zdigits2] in Hxy. rewrite Hdx, Hdy in Hxy.
  replace (53 + ex - (53 + ey))%Z with (ex - ey)%Z in Hxy by lia.
  rewrite fexp_normal in Hxy by lia. rewrite Z.min_l in Hxy by lia.
  replace (ex - ey - (ex - ey - 53))%Z with 53%Z in Hxy by lia.
  cbn match in Hxy. rewrite Z.shiftl_mul_pow2 in Hxy by lia.
  pose proof (digits2_pos_bounds mx) as [Hmxlo Hmxhi].
  pose proof (digits2_pos_bounds my) as [Hmylo Hmyhi].
  rewrite Hdx in Hmxlo, Hmxhi. rewrite Hdy in Hmylo, Hmyhi.
  change (2 ^ (53 - 1))%Z with (2 ^ 52)%Z in *.
  pose proof (Z_div_mod (Zpos mx * 2 ^ 53) (Zpos my) ltac:(lia)) as Hdiv.
  destruct (Z.div_eucl (Zpos mx * 2 ^ 53) (Zpos my)) as [q r]. destruct Hdiv as [Hnum Hr].
  assert (Hq : (2 ^ 52 <= q < 2 ^ 54)%Z).
  { change (2 ^ 54)%Z with (2 * 2 ^ 53)%Z. change (2 ^ 53)%Z with (2 * 2 ^ 52)%Z in *. nia. }
  destruct q as [|pq|pq]; try lia.
  assert (Hdq : (53 <= Zpos (digits2_pos pq) <= 54)%Z).
  { pose proof (digits2_pos_bounds pq) as [Hqlo Hqhi]. split.
    - destruct (Z.leb_spec 53 (Zpos (digits2_pos pq))); [assumption|exfalso].
      assert (2 ^ Zpos (digits2_pos pq) <= 2 ^ 52)%Z by (apply Z.pow_le_mono_r; lia). lia.
    - destruct (Z.leb_spec (Zpos (digits2_pos pq)) 54); [assumption|exfalso].
      assert (2 ^ 54 <= 2 ^ (Zpos (digits2_pos pq) - 1))%Z by (apply Z.pow_le_mono_r; lia).
      lia. }
  destruct (binary_round_aux_error false pq (ex - ey - 53) (new_location (Zpos my) r)
              (Zpos mx * 2 ^ 53) (Zpos my))
    as (m' & e' & Hr' & Hb & Hd' & Herr & _ & He' & Hexact);
    [lia|apply new_location_inbetween; lia|lia..|].
  rewrite Hr' in Hxy.
  assert (Hv : IZR (Zpos mx * 2 ^ 53) / IZR (Zpos my) * pow2 (ex - ey - 53)
               = B2R x / B2R y).
  { unfold B2R. rewrite Hx, Hy. cbn [SF2R].
    rewrite mult_IZR, <- pow2_IZR, !pow2_sub by lia.
    pose proof (pow2_pos ey). pose proof (pow2_pos 53). pose proof (IZR_pos_gt_0 my).
    field. lra. }
  rewrite Hv in Herr, Hexact.
  split; [|split].
  - exists m', e'. repeat split; try assumption; lia.
  - unfold B2R at 1. rewrite Hxy. exact Herr.
  - intros z lz hz (mz & ez & Hz & Hdz & _) Hzv. apply Prim2SF_inj. rewrite Hxy, Hz.
    unfold B2R at 1 in Hzv. rewrite Hz in Hzv.
    now destruct (Hexact mz ez Hdz Hzv) as [-> ->].
Qed.

Lemma shl_align_fst m e ez :
  (ez <= e)%Z -> (Zpos (fst (shl_align m e ez)) = Zpos m * 2 ^ (e - ez))%Z.
Proof.
  intros H. unfold shl_align. destruct (ez - e)%Z as [|d|d] eqn:Hd; cbn [fst]; try lia.
  - replace (e - ez)%Z with 0%Z by lia. cbn. lia.
  - rewrite iter_xO_spec. f_equal. f_equal. lia.
Qed.

Lemma shl_align_noop m e e' : (e <= e')%Z -> shl_align m e e' = (m, e).
Proof. intros H. unfold shl_align. destruct (e' - e)%Z eqn:Hd; try reflexivity; lia. Qed.

Lemma digits2_pos_ge p d : (2 ^ (d - 1) <= Zpos p)%Z -> (d <= Zpos (digits2_pos p))%Z.
Proof.
  intros H. pose proof (digits2_pos_bounds p) as [_ Hhi].
  destruct (Z.leb_spec d (Zpos (digits2_pos p))); [assumption|exfalso].
  assert (2 ^ Zpos (digits2_pos p) <= 2 ^ (d - 1))%Z by (apply Z.pow_le_mono_r; lia). lia.
Qed.

Lemma digits2_pos_le p d :
  (0 <= d)%Z -> (Zpos p < 2 ^ d)%Z -> (Zpos (digits2_pos p) <= d)%Z.
Proof.
  intros Hd H. pose proof (digits2_pos_bounds p) as [Hlo _].
  destruct (Z.leb_spec (Zpos (digits2_pos p)) d); [assumption|exfalso].
  assert (2 ^ d <= 2 ^ (Zpos (digits2_pos p) - 1))%Z by (apply Z.pow_le_mono_r; lia). lia.
Qed.

(** Addition of positive normal numbers. *)
Lemma add_pos_normal x y lx hx ly hy :
  pos_normal x lx hx -> pos_normal y ly hy ->
  (-1074 <= lx)%Z -> (-1074 <= ly)%Z -> (Z.max hx hy + 2 <= 971)%Z ->
  pos_normal (x + y) (Z.max lx ly) (Z.max hx hy + 2)
  /\ Rabs (B2R (x + y) - (B2R x + B2R y)) <= ulp_half * (B2R x + B2R y)
  /\ (forall z lz hz, pos_normal z lz hz -> B2R z = B2R x + B2R y -> (x + y)%float = z).
Proof.
  intros (mx & ex & Hx & Hdx & Hex) (my & ey & Hy & Hdy & Hey) Hlx Hly Hhi.
  pose proof (add_spec x y) as Hxy. rewrite Hx, Hy in Hxy.
  unfold SF64add, SFadd in Hxy. cbv zeta in Hxy. cbn [cond_Zopp] in Hxy.
  set (ez := Z.min ex ey) in *.
  pose proof (shl_align_fst mx ex ez ltac:(unfold ez; lia)) as Hax.
  pose proof (shl_align_fst my ey ez ltac:(unfold ez; lia)) as Hay.
  set (ax := fst (shl_align mx ex ez)) in *. set (ay := fst (shl_align my ey ez)) in *.
  change (Zpos ax + Zpos ay)%Z with (Zpos (ax + ay)) in Hxy.
  cbn [binary_normalize] in Hxy. unfold binary_round in Hxy.
  pose proof (digits2_pos_bounds mx) as [Hmxlo Hmxhi].
  pose proof (digits2_pos_bounds my) as [Hmylo Hmyhi].
  rewrite Hdx in Hmxlo, Hmxhi. rewrite Hdy in Hmylo, Hmyhi.
  change (2 ^ (53 - 1))%Z with (2 ^ 52)%Z in *.
  assert (Hpx : (0 < 2 ^ (ex - ez))%Z) by (apply Z.pow_pos_nonneg; unfold ez; lia).
  assert (Hpy : (0 < 2 ^ (ey - ez))%Z) by (apply Z.pow_pos_nonneg; unfold ez; lia).
  set (emx := Z.max ex ey).
  assert (HS : (Zpos (ax + ay) = Zpos mx * 2 ^ (ex - ez) + Zpos my * 2 ^ (ey - ez))%Z)
    by (rewrite Pos2Z.inj_add; lia).
  (* the sum has between 53 + (emx - ez) and 54 + (emx - ez) digits *)
  assert (Hpm : (0 < 2 ^ (emx - ez))%Z) by (apply Z.pow_pos_nonneg; unfold emx, ez; lia).
  assert (Hxle : (2 ^ (ex - ez) <= 2 ^ (emx - ez))%Z)
    by (apply Z.pow_le_mono_r; unfold emx, ez; lia).
  assert (Hyle : (2 ^ (ey - ez) <= 2 ^ (emx - ez))%Z)
    by (apply Z.pow_le_mono_r; unfold emx, ez; lia).
  assert (Hmax : (2 ^ (ex - ez) = 2 ^ (emx - ez) \/ 2 ^ (ey - ez) = 2 ^ (emx - ez))%Z)
    by (unfold emx; destruct (Z.max_spec ex ey) as [[_ ->]|[_ ->]]; auto).
  assert (HdS : (53 + (emx - ez) <= Zpos (digits2_pos (ax + ay)) <= 54 + (emx - ez))%Z).
  { split.
    - apply digits2_pos_ge. replace (53 + (emx - ez) - 1)%Z with (52 + (emx - ez))%Z by lia.
      rewrite Z.pow_add_r by (unfold emx, ez; lia). nia.
    - apply digits2_pos_le; [unfold emx, ez; lia|].
      replace (54 + (emx - ez))%Z with (1 + 53 + (emx - ez))%Z by lia.
      rewrite !Z.pow_add_r by (unfold emx, ez; lia). change (2 ^ 1)%Z with 2%Z. nia. }
  assert (Hez : (-1074 <= ez)%Z) by (unfold ez; lia).
  assert (Hemx0 : (0 <= emx - ez)%Z) by (unfold emx, ez; lia).
  rewrite fexp_normal in Hxy by lia.
  rewrite shl_align_noop in Hxy by lia.
  destruct (binary_round_aux_error false (ax + ay) ez loc_Exact (Zpos (ax + ay)) 1)
     as (m' & e' & Hr & Hb & Hd' & Herr & _ & He' & Hexact);
   [lia|apply inbetween_Exact, eq_sym, Z.mul_1_r|unfold emx in *; lia..|].
  rewrite Hr in Hxy.
  assert (Hv : IZR (Zpos (ax + ay)) / 1 * pow2 ez = B2R x + B2R y).
  { unfold B2R. rewrite Hx, Hy. cbn [SF2R].
    rewrite HS, plus_IZR, !mult_IZR, <- !pow2_IZR by (unfold ez; lia).
    replace ex with (ex - ez + ez)%Z at 2 by lia.
    replace ey with (ey - ez + ez)%Z at 2 by lia.
    rewrite !pow2_add. field. }
  rewrite Hv in Herr, Hexact.
  split; [|split].
  - exists m', e'; repeat split; try assumption; unfold emx, ez in *; lia.
  - unfold B2R at 1. rewrite Hxy. exact Herr.
  - intros z lz hz (mz & ez' & Hz & Hdz & _) Hzv. apply Prim2SF_inj. rewrite Hxy, Hz.
    unfold B2R at 1 in Hzv. rewrite Hz in Hzv.
    now destruct (Hexact mz ez' Hdz Hzv) as [-> ->].
Qed.

End PositiveNumbers.

(** ** Comparisons through real values *)

Section Comparisons.
#[local] Open Scope R_scope.

Lemma le_pos_normal x y lx hx ly hy :
  pos_normal x lx hx -> pos_normal y ly hy -> B2R x <= B2R y -> le x y = true.
Proof.
  intros (mx & ex & Hx & Hdx & _) (my & ey & Hy & Hdy & _). unfold B2R, le.
  rewrite leb_spec, Hx, Hy. cbn [SF2R]. unfold SFleb.
  pose proof (SFcompare_pos_normal mx ex my ey Hdx Hdy) as H. cbv zeta in H.
  destruct (SFcompare _ _) as [[| |]|]; auto; try contradiction. lra.
Qed.

Lemma lt_pos_normal x y lx hx ly hy :
  pos_normal x lx hx -> pos_normal y ly hy -> B2R x < B2R y -> lt x y = true.
Proof.
  intros (mx & ex & Hx & Hdx & _) (my & ey & Hy & Hdy & _). unfold B2R, lt.
  rewrite ltb_spec, Hx, Hy. cbn [SF2R]. unfold SFltb.
  pose proof (SFcompare_pos_normal mx ex my ey Hdx Hdy) as H. cbv zeta in H.
  destruct (SFcompare _ _) as [[| |]|]; auto; try contradiction; try lra.
  destruct H as [-> ->]. lra.
Qed.

Lemma le_pos_normal_inv x y lx hx ly hy :
  pos_normal x lx hx -> pos_normal y ly hy -> le x y = true -> B2R x <= B2R y.
Proof.
  intros (mx & ex & Hx & Hdx & _) (my & ey & Hy & Hdy & _). unfold B2R, le.
  rewrite leb_spec, Hx, Hy. cbn [SF2R]. unfold SFleb.
  pose proof (SFcompare_pos_normal mx ex my ey Hdx Hdy) as H. cbv zeta in H.
  destruct (SFcompare _ _) as [[| |]|]; try discriminate; intros _; try lra.
  destruct H as [-> ->]. lra.
Qed.

(** Two positive normal numbers with the same value are the same number. *)
Lemma pos_normal_inj x y lx hx ly hy :
  pos_normal x lx hx -> pos_normal y ly hy -> B2R x = B2R y -> x = y.
Proof.
  intros (mx & ex & Hx & Hdx & _) (my & ey & Hy & Hdy & _). unfold B2R.
  rewrite Hx, Hy. cbn [SF2R]. intros Hv. apply Prim2SF_inj. rewrite Hx, Hy.
  pose proof (SFcompare_pos_normal mx ex my ey Hdx Hdy) as H. cbv zeta in H.
  destruct (SFcompare _ _) as [[| |]|]; try contradiction; try lra.
  now destruct H as [-> ->].
Qed.

(** A number between two positive normal numbers is one, with its
    exponent between theirs. *)
Lemma pos_normal_between x a b la ha lb hb :
  pos_normal a la ha -> pos_normal b lb hb ->
  (-1074 < la)%Z ->
  le a x = true -> le x b = true -> pos_normal x la hb.
Proof.
  intros (ma & ea & Ha & Hda & Hea) (mb & eb & Hb & Hdb & Heb) Hla.
  unfold le. rewrite !leb_spec, Ha, Hb. unfold SFleb.
  pose proof (Prim2SF_valid x) as Hv.
  destruct (Prim2SF x) as [s|s| |s m e] eqn:Hx; cbn [SFcompare]; try discriminate;
    try (destruct s; discriminate).
  destruct s; [discriminate|].
  destruct (Z.compare_spec ea e) as [Heq|Hlt|Hgt]; try discriminate;
    destruct (Z.compare_spec e eb) as [Heq'|Hlt'|Hgt']; try discriminate; intros _ _;
    (exists m, e; split; [exact Hx|]; split; [|lia]);
    cbn [SpecFloat.valid_binary] in Hv; unfold bounded, canonical_mantissa in Hv;
    apply andb_prop in Hv as [Hc _]; apply Z.eqb_eq in Hc;
    unfold fexp, SpecFloat.emin in Hc; change (3 - emax - prec)%Z with (-1074)%Z in Hc;
    change prec with 53%Z in Hc; lia.
Qed.

End Comparisons.

(** ** Integers and [Math.ceil] *)

Section IntegerValues.
#[local] Open Scope R_scope.

(** A positive integer below [2^53] is a positive normal number with that
    value. *)
Lemma of_Z_pos_normal k :
  (0 < k < 2 ^ 53)%Z -> pos_normal (of_Z k) (-52) 0 /\ B2R (of_Z k) = IZR k.
Proof.
  intros Hk. destruct k as [|p|p]; try lia.
  destruct (Prim2SF_of_Z_pos p ltac:(lia)) as (m & e & Hx & Hm & He & Hd).
  split.
  - exists m, e. auto.
  - unfold B2R. rewrite Hx. cbn [SF2R]. rewrite Hm, mult_IZR, <- pow2_IZR by lia.
    rewrite Rmult_assoc, <- pow2_add. replace (- e + e)%Z with 0%Z by lia.
    unfold pow2. cbn. lra.
Qed.

Lemma pos_normal_weaken x lo hi lo' hi' :
  pos_normal x lo hi -> (lo' <= lo)%Z -> (hi <= hi')%Z -> pos_normal x lo' hi'.
Proof. intros (m & e & Hx & Hd & He) Hlo Hhi. exists m, e. repeat split; auto; lia. Qed.

Lemma pos_normal_not_le_0 x lo hi : pos_normal x lo hi -> le x 0 = false.
Proof.
  intros (m & e & Hx & _). unfold le. rewrite leb_spec, Hx.
  change (Prim2SF 0) with (S754_zero false). reflexivity.
Qed.

Lemma pos_normal_gt_0 x lo hi : pos_normal x lo hi -> gt x 0 = true.
Proof.
  intros (m & e & Hx & _). unfold gt. rewrite ltb_spec, Hx.
  change (Prim2SF 0) with (S754_zero false). reflexivity.
Qed.

(** [Math.ceil] of a positive normal number is the least integer not
    below it, and again a positive normal number. *)
Lemma Math_ceil_pos_normal x lo hi :
  pos_normal x lo hi ->
  exists k : Z,
    (0 < k)%Z
    /\ B2R (Math_ceil x) = IZR k
    /\ B2R x <= IZR k < B2R x + 1
    /\ pos_normal (Math_ceil x) (Z.min lo (-52)) (Z.max hi 0).
Proof.
  intros (m & e & Hx & Hd & He). unfold Math_ceil. rewrite Hx.
  pose proof (digits2_pos_bounds m) as [Hmlo Hmhi]. rewrite Hd in Hmlo, Hmhi.
  change (2 ^ (53 - 1))%Z with (2 ^ 52)%Z in Hmlo.
  destruct (Z.leb_spec 0 e) as [He0|He0].
  - exists (Zpos m * 2 ^ e)%Z.
    assert (0 < 2 ^ e)%Z by (apply Z.pow_pos_nonneg; lia).
    assert (Hv : B2R x = IZR (Zpos m * 2 ^ e)).
    { unfold B2R. rewrite Hx. cbn [SF2R]. now rewrite mult_IZR, pow2_IZR. }
    repeat split; try lra; [nia|].
    exists m, e. repeat split; auto; lia.
  - unfold frac_part, int_part. rewrite !Z.shiftr_div_pow2, Z.shiftl_mul_pow2 by lia.
    set (P := (2 ^ (- e))%Z).
    assert (HP : (2 <= P)%Z).
    { unfold P. replace (- e)%Z with (Z.succ (- e - 1)) by lia.
      rewrite Z.pow_succ_r by lia.
      assert (0 < 2 ^ (- e - 1))%Z by (apply Z.pow_pos_nonneg; lia). lia. }
    pose proof (Z.div_mod (Zpos m) P ltac:(lia)) as Hdm.
    pose proof (Z.mod_pos_bound (Zpos m) P ltac:(lia)) as Hmod.
    set (q := (Zpos m / P)%Z) in *.
    replace (Zpos m - q * P)%Z with (Zpos m mod P)%Z by lia.
    set (r := (Zpos m mod P)%Z) in *.
    assert (Hq : (0 <= q < 2 ^ 52)%Z).
    { split; [apply Z.div_pos; lia|].
      apply Z.div_lt_upper_bound; [lia|]. change (2 ^ 53)%Z with (2 * 2 ^ 52)%Z in Hmhi. nia. }
    assert (Hv : B2R x = IZR q + IZR r / IZR P).
    { unfold B2R. rewrite Hx. cbn [SF2R].
      replace e with (- (- e))%Z at 1 by lia.
      assert (HPR : pow2 (- - e) = / IZR P).
      { unfold P. rewrite <- pow2_IZR by lia.
        pose proof (pow2_pos (- e)).
        apply Rmult_eq_reg_r with (pow2 (- e)); [|lra].
        rewrite <- pow2_add, Rinv_l by lra.
        replace (- - e + - e)%Z with 0%Z by lia. reflexivity. }
      rewrite HPR, Hdm, plus_IZR, mult_IZR.
      assert (0 < IZR P) by (apply IZR_lt; lia). field. lra. }
    assert (HPR : 0 < IZR P) by (apply IZR_lt; lia).
    assert (Hr : 0 <= IZR r / IZR P < 1).
    { destruct Hmod as [Hr0 Hr1]. apply IZR_le in Hr0. apply IZR_lt in Hr1.
      split.
      - apply Rmult_le_reg_r with (IZR P); [assumption|].
        unfold Rdiv. rewrite Rmult_assoc, Rinv_l by lra. lra.
      - apply Rmult_lt_reg_r with (IZR P); [assumption|].
        unfold Rdiv. rewrite Rmult_assoc, Rinv_l by lra. lra. }
    set (k := if (r =? 0)%Z then q else (q + 1)%Z).
    assert (Hk : (0 < k < 2 ^ 53)%Z).
    { unfold k. destruct (Z.eqb_spec r 0); [|lia].
      assert (q <> 0)%Z by (intros ->; lia). lia. }
    destruct (of_Z_pos_normal k Hk) as [Hn Hkv].
    exists k. split; [lia|]. split; [exact Hkv|]. split.
    + rewrite Hv. unfold k. destruct (Z.eqb_spec r 0) as [Hr0|Hr0].
      * rewrite Hr0. unfold Rdiv. rewrite Rmult_0_l. lra.
      * rewrite plus_IZR.
        assert (0 < IZR r / IZR P).
        { apply Rmult_lt_reg_r with (IZR P); [assumption|].
          unfold Rdiv. rewrite Rmult_assoc, Rinv_l by lra.
          assert (0 < IZR r) by (apply IZR_lt; lia). lra. }
        lra.
    + eapply pos_normal_weaken; [exact Hn|lia..].
Qed.

End IntegerValues.

(** ** Words to tokens and back *)

Section RoundTrip.
#[local] Open Scope R_scope.

Lemma pow2_neg n : (0 <= n)%Z -> pow2 (- n) = / IZR (2 ^ n).
Proof.
  intros Hn. rewrite <- pow2_IZR by assumption. pose proof (pow2_pos n).
  apply Rmult_eq_reg_r with (pow2 n); [|lra].
  rewrite <- pow2_add, Rinv_l by lra. replace (- n + n)%Z with 0%Z by lia. reflexivity.
Qed.

Lemma Rabs_le_bounds x y : Rabs x <= y -> - y <= x <= y.
Proof. unfold Rabs. destruct (Rcase_abs x); lra. Qed.

Lemma ulp_half_val : ulp_half = / 9007199254740992.
Proof.
  unfold ulp_half. change (pow2 (-53)) with (pow2 (- (53))).
  now rewrite (pow2_neg 53).
Qed.

Lemma ratio_pos_normal :
  pos_normal WORDS_TO_TOKENS_RATIO (-52) (-52)
  /\ B2R WORDS_TO_TOKENS_RATIO = 5989787504402760 / 4503599627370496.
Proof.
  split.
  - exists 5989787504402760%positive, (-52)%Z. repeat split; lia.
  - unfold B2R. change (Prim2SF WORDS_TO_TOKENS_RATIO)
      with (S754_finite false 5989787504402760 (-52)).
    cbn [SF2R]. change (pow2 (-52)) with (pow2 (- (52))).
    now rewrite (pow2_neg 52).
Qed.

(** Converting an integer word count up to [2^52] to tokens and back
    never loses a word. *)
Lemma round_trip_value n :
  (1 <= n <= 2 ^ 52)%Z ->
  exists k : Z,
    (n <= k)%Z
    /\ B2R (tokensToWords (wordsToTokens (of_Z n))) = IZR k
    /\ pos_normal (tokensToWords (wordsToTokens (of_Z n))) (-53) 3.
Proof.
  intros Hn.
  destruct (of_Z_pos_normal n ltac:(change (2 ^ 53)%Z with (2 * 2 ^ 52)%Z; lia)) as [Hw Hwv].
  destruct ratio_pos_normal as [Hc Hcv].
  unfold wordsToTokens. rewrite (pos_normal_not_le_0 _ _ _ Hw).
  destruct (mul_pos_normal _ _ _ _ _ _ Hw Hc ltac:(lia) ltac:(lia)) as (Hp1 & Ep1 & _).
  destruct (Math_ceil_pos_normal _ _ _ Hp1) as (t & Ht & Htv & Htb & Htn).
  cbn [Z.min Z.max Z.add] in Htn, Hp1.
  unfold tokensToWords. rewrite (pos_normal_not_le_0 _ _ _ Htn).
  destruct (div_pos_normal _ _ _ _ _ _ Htn Hc ltac:(lia) ltac:(lia)) as (Hp2 & Ep2 & _).
  destruct (Math_ceil_pos_normal _ _ _ Hp2) as (k & Hk & Hkv & Hkb & Hkn).
  cbn [Z.min Z.max Z.add Z.sub Z.opp Z.pos_sub] in Hkn, Hp2.
  exists k. split; [|split; [exact Hkv|]].
  - (* the value chain *)
    rewrite Htv, Hcv in Ep2. rewrite Hwv, Hcv in Ep1. rewrite ulp_half_val in Ep1, Ep2.
    set (p1 := B2R (of_Z n * WORDS_TO_TOKENS_RATIO)) in *.
    set (p2 := B2R (Math_ceil (of_Z n * WORDS_TO_TOKENS_RATIO) / WORDS_TO_TOKENS_RATIO)) in *.
    assert (HnR : 1 <= IZR n <= 4503599627370496)
      by (split; apply IZR_le; [lia|change 4503599627370496%Z with (2 ^ 52)%Z; lia]).
    apply Rabs_le_bounds in Ep1, Ep2.
    assert (Ht1 : IZR n * (5989787504402760 / 4503599627370496)
                  * (1 - / 9007199254740992) <= IZR t) by lra.
    assert (Hk1 : IZR t / (5989787504402760 / 4503599627370496)
                  * (1 - / 9007199254740992) <= IZR k) by lra.
    assert (Hlt : IZR n - 1 < IZR k).
    { apply Rlt_le_trans with (2 := Hk1).
      apply Rlt_le_trans with
        (IZR n * (1 - / 9007199254740992) * (1 - / 9007199254740992)); [nra|].
      apply Rmult_le_compat_r; [lra|].
      apply Rmult_le_reg_r with (5989787504402760 / 4503599627370496); [lra|].
      replace (IZR t / (5989787504402760 / 4503599627370496)
               * (5989787504402760 / 4503599627370496)) with (IZR t) by (field; lra).
      lra. }
    rewrite <- minus_IZR in Hlt. apply lt_IZR in Hlt. lia.
  - eapply pos_normal_weaken; [exact Hkn|lia..].
Qed.

End RoundTrip.

(** ** Opposites *)

Section Signs.
#[local] Open Scope float_scope.

Lemma binary_round_aux_opp s m e l :
  binary_round_aux prec emax (negb s) m e l = SFopp (binary_round_aux prec emax s m e l).
Proof.
  unfold binary_round_aux.
  destruct (shr_fexp prec emax m e l) as [mrs' e'].
  destruct (shr_fexp prec emax _ e' loc_Exact) as [mrs'' e''].
  destruct (shr_m mrs''); try reflexivity.
  now destruct (e'' <=? emax - prec)%Z.
Qed.

Lemma mul_opp_l x y : (- x) * y = - (x * y).
Proof.
  apply Prim2SF_inj. rewrite opp_spec, !mul_spec, opp_spec.
  destruct (Prim2SF x) as [sx|sx| |sx mx ex], (Prim2SF y) as [sy|sy| |sy my ey];
    cbn [SFopp SF64mul SFmul]; try reflexivity;
    try (now destruct sx, sy).
  rewrite <- binary_round_aux_opp. now destruct sx, sy.
Qed.

Lemma mul_opp_r x y : x * (- y) = - (x * y).
Proof.
  apply Prim2SF_inj. rewrite opp_spec, !mul_spec, opp_spec.
  destruct (Prim2SF x) as [sx|sx| |sx mx ex], (Prim2SF y) as [sy|sy| |sy my ey];
    cbn [SFopp SF64mul SFmul]; try reflexivity;
    try (now destruct sx, sy).
  rewrite <- binary_round_aux_opp. now destruct sx, sy.
Qed.

Lemma div_opp_l x y : (- x) / y = - (x / y).
Proof.
  apply Prim2SF_inj. rewrite opp_spec, !div_spec, opp_spec.
  destruct (Prim2SF x) as [sx|sx| |sx mx ex], (Prim2SF y) as [sy|sy| |sy my ey];
    cbn [SFopp SF64div SFdiv]; try reflexivity;
    try (now destruct sx, sy).
  destruct (SFdiv_core_binary prec emax (Zpos mx) ex (Zpos my) ey) as [[mz ez] lz].
  rewrite <- binary_round_aux_opp. now destruct sx, sy.
Qed.

(** The sum of the opposites of two positive numbers. *)
Lemma add_opp_opp x y lx hx ly hy :
  pos_normal x lx hx -> pos_normal y ly hy -> (- x) + (- y) = - (x + y).
Proof.
  intros (mx & ex & Hx & _) (my & ey & Hy & _).
  apply Prim2SF_inj. rewrite opp_spec, !add_spec, !opp_spec, Hx, Hy.
  cbn [SFopp SF64add SFadd negb cond_Zopp]. cbv zeta.
  change (- Zpos ?a + - Zpos ?b)%Z with (Zneg (a + b)).
  change (Zpos ?a + Zpos ?b)%Z with (Zpos (a + b)).
  cbn [binary_normalize]. unfold binary_round.
  destruct (shl_align _ _ _) as [mz ez].
  now rewrite <- (binary_round_aux_opp false).
Qed.

Lemma opp_pos_normal_lt_0 x lo hi : pos_normal x lo hi -> lt (- x) 0 = true.
Proof.
  intros (m & e & Hx & _). unfold lt. rewrite ltb_spec, opp_spec, Hx.
  change (Prim2SF 0) with (S754_zero false). reflexivity.
Qed.

End Signs.

(** ** Integer products *)

Section IntegerProducts.
#[local] Open Scope R_scope.

(** The product of two positive integers is exact as long as it stays
    below [2^53]. *)
Lemma of_Z_mul a b :
  (0 < a)%Z -> (0 < b)%Z -> (a * b < 2 ^ 53)%Z ->
  (of_Z a * of_Z b)%float = of_Z (a * b).
Proof.
  intros Ha Hb Hab.
  destruct (of_Z_pos_normal a ltac:(nia)) as [Hna Hva].
  destruct (of_Z_pos_normal b ltac:(nia)) as [Hnb Hvb].
  destruct (of_Z_pos_normal (a * b) ltac:(nia)) as [Hnab Hvab].
  destruct (mul_pos_normal _ _ _ _ _ _ Hna Hnb ltac:(lia) ltac:(lia)) as (_ & _ & Hexact).
  apply (Hexact _ _ _ Hnab). now rewrite Hva, Hvb, Hvab, mult_IZR.
Qed.

Lemma of_Z_lt a b :
  (0 < a < b)%Z -> (b < 2 ^ 53)%Z -> lt (of_Z a) (of_Z b) = true.
Proof.
  intros Ha Hb.
  destruct (of_Z_pos_normal a ltac:(lia)) as [Hna Hva].
  destruct (of_Z_pos_normal b ltac:(lia)) as [Hnb Hvb].
  apply (lt_pos_normal _ _ _ _ _ _ Hna Hnb). rewrite Hva, Hvb. apply IZR_lt. lia.
Qed.

Lemma of_Z_not_zero a : (0 < a < 2 ^ 53)%Z -> strict_eq (of_Z a) 0 = false.
Proof.
  intros Ha. destruct (of_Z_pos_normal a Ha) as [(m & e & Hx & _) _].
  unfold strict_eq. rewrite eqb_spec, Hx. reflexivity.
Qed.

Lemma ToLength_of_Z a : (0 < a < 2 ^ 53)%Z -> ToLength (of_Z a) = a.
Proof.
  intros Ha. destruct a as [|p|p]; try lia.
  destruct (Prim2SF_of_Z_pos p ltac:(lia)) as (m & e & Hx & Hm & He & _).
  unfold ToLength. rewrite Hx.
  destruct (Z.leb_spec 0 e) as [He0|He0].
  - assert (e = 0)%Z by lia. subst e. cbn in Hm. rewrite Z.shiftl_0_r.
    unfold max_safe_integer. lia.
  - unfold int_part. rewrite Z.shiftr_div_pow2 by lia. rewrite Hm.
    apply Z.div_mul. assert (0 < 2 ^ (- e))%Z by (apply Z.pow_pos_nonneg; lia). lia.
Qed.

End IntegerProducts.

(** ** Chains of roundings *)

Section CostChain.
#[local] Open Scope R_scope.

Lemma ulp_half_bounds : 0 < ulp_half < 1.
Proof. rewrite ulp_half_val. lra. Qed.

Lemma approx_exact x : approx 0 x x.
Proof. unfold approx. cbn. lra. Qed.

(** One more rounded multiplication by a non-negative constant. *)
Lemma approx_step k x v y c :
  0 <= v -> 0 <= c -> approx k x v ->
  Rabs (y - x * c) <= ulp_half * (x * c) ->
  approx (S k) y (v * c).
Proof.
  intros Hv Hc [Hlo Hhi] Hy. apply Rabs_le_bounds in Hy.
  pose proof ulp_half_bounds as Hu.
  assert (Hpl : 0 < (1 - ulp_half) ^ k) by (apply pow_lt; lra).
  assert (Hph : 0 < (1 + ulp_half) ^ k) by (apply pow_lt; lra).
  unfold approx. cbn [pow]. split.
  - apply Rle_trans with (x * c * (1 - ulp_half)); [|lra].
    replace (v * c * ((1 - ulp_half) * (1 - ulp_half) ^ k))
      with (v * (1 - ulp_half) ^ k * c * (1 - ulp_half)) by ring.
    apply Rmult_le_compat_r; [lra|]. apply Rmult_le_compat_r; assumption.
  - apply Rle_trans with (x * c * (1 + ulp_half)); [lra|].
    replace (v * c * ((1 + ulp_half) * (1 + ulp_half) ^ k))
      with (v * (1 + ulp_half) ^ k * c * (1 + ulp_half)) by ring.
    apply Rmult_le_compat_r; [lra|]. apply Rmult_le_compat_r; assumption.
Qed.

(** A rounded sum of two approximations. *)
Lemma approx_add k x vx y vy z :
  approx k x vx -> approx k y vy ->
  Rabs (z - (x + y)) <= ulp_half * (x + y) ->
  0 <= vx -> 0 <= vy ->
  approx (S k) z (vx + vy).
Proof.
  intros [Hxl Hxh] [Hyl Hyh] Hz Hvx Hvy. apply Rabs_le_bounds in Hz.
  pose proof ulp_half_bounds as Hu.
  assert (Hpl : 0 < (1 - ulp_half) ^ k) by (apply pow_lt; lra).
  assert (Hph : 0 < (1 + ulp_half) ^ k) by (apply pow_lt; lra).
  unfold approx. cbn [pow]. split.
  - apply Rle_trans with ((x + y) * (1 - ulp_half)); [|lra].
    replace ((vx + vy) * ((1 - ulp_half) * (1 - ulp_half) ^ k))
      with ((vx * (1 - ulp_half) ^ k + vy * (1 - ulp_half) ^ k) * (1 - ulp_half)) by ring.
    apply Rmult_le_compat_r; lra.
  - apply Rle_trans with ((x + y) * (1 + ulp_half)); [lra|].
    replace ((vx + vy) * ((1 + ulp_half) * (1 + ulp_half) ^ k))
      with ((vx * (1 + ulp_half) ^ k + vy * (1 + ulp_half) ^ k) * (1 + ulp_half)) by ring.
    apply Rmult_le_compat_r; lra.
Qed.

End CostChain.

(** ** The daily cost as a function of the message volume *)

Section DailyCost.
#[local] Open Scope R_scope.

Lemma thousand_pos_normal : pos_normal 1000 (-43) (-43) /\ B2R 1000 = 1000.
Proof.
  split.
  - exists 8796093022208000%positive, (-43)%Z. repeat split; lia.
  - unfold B2R. change (Prim2SF 1000) with (S754_finite false 8796093022208000 (-43)).
    cbn [SF2R]. change (pow2 (-43)) with (pow2 (- (43))). rewrite (pow2_neg 43) by lia.
    change (IZR (2 ^ 43)) with 8796093022208. lra.
Qed.

Lemma dailyCostOf_approx T O ip op K :
  pos_normal T (-53) 8 -> pos_normal O (-53) 8 ->
  pos_normal ip (-70) (-40) -> pos_normal op (-70) (-40) ->
  (0 < K < 2 ^ 53)%Z ->
  pos_normal (dailyCostOf T O (of_Z K) ip op) (-81) 70
  /\ approx 4 (B2R (dailyCostOf T O (of_Z K) ip op)) (exactCost T O ip op K).
Proof.
  intros HT HO Hip Hop HK.
  destruct (of_Z_pos_normal K HK) as [HM HMv].
  destruct thousand_pos_normal as [H1000 H1000v].
  pose proof (pos_normal_B2R _ _ _ HT) as [HTpos _].
  pose proof (pos_normal_B2R _ _ _ HO) as [HOpos _].
  pose proof (pos_normal_B2R _ _ _ Hip) as [Hippos _].
  pose proof (pos_normal_B2R _ _ _ Hop) as [Hoppos _].
  assert (HKpos : 0 < IZR K) by (apply IZR_lt; lia).
  unfold dailyCostOf.
  (* input side *)
  destruct (mul_pos_normal _ _ _ _ _ _ HT HM ltac:(lia) ltac:(lia)) as (Ha1 & Ea1 & _).
  destruct (div_pos_normal _ _ _ _ _ _ Ha1 H1000 ltac:(lia) ltac:(lia)) as (Ha2 & Ea2 & _).
  destruct (mul_pos_normal _ _ _ _ _ _ Ha2 Hip ltac:(lia) ltac:(lia)) as (Ha3 & Ea3 & _).
  (* output side *)
  destruct (mul_pos_normal _ _ _ _ _ _ HO HM ltac:(lia) ltac:(lia)) as (Hb1 & Eb1 & _).
  destruct (div_pos_normal _ _ _ _ _ _ Hb1 H1000 ltac:(lia) ltac:(lia)) as (Hb2 & Eb2 & _).
  destruct (mul_pos_normal _ _ _ _ _ _ Hb2 Hop ltac:(lia) ltac:(lia)) as (Hb3 & Eb3 & _).
  destruct (add_pos_normal _ _ _ _ _ _ Ha3 Hb3 ltac:(lia) ltac:(lia) ltac:(lia))
    as (Hd & Ed & _).
  split; [eapply pos_normal_weaken; [exact Hd|lia..]|].
  rewrite HMv, H1000v in *.
  assert (A1 : approx 1 (B2R (T * of_Z K)) (IZR K * B2R T)).
  { apply approx_step with (x := IZR K); [lra|lra|apply approx_exact|].
    now rewrite (Rmult_comm (IZR K)). }
  assert (A2 : approx 2 (B2R (T * of_Z K / 1000)) (IZR K * B2R T * / 1000)).
  { eapply approx_step; [| |exact A1|exact Ea2]; repeat apply Rmult_le_pos; lra. }
  assert (A3 : approx 3 (B2R (T * of_Z K / 1000 * ip)) (IZR K * B2R T * / 1000 * B2R ip)).
  { eapply approx_step; [| |exact A2|exact Ea3]; repeat apply Rmult_le_pos; lra. }
  assert (B1 : approx 1 (B2R (O * of_Z K)) (IZR K * B2R O)).
  { apply approx_step with (x := IZR K); [lra|lra|apply approx_exact|].
    now rewrite (Rmult_comm (IZR K)). }
  assert (B2 : approx 2 (B2R (O * of_Z K / 1000)) (IZR K * B2R O * / 1000)).
  { eapply approx_step; [| |exact B1|exact Eb2]; repeat apply Rmult_le_pos; lra. }
  assert (B3 : approx 3 (B2R (O * of_Z K / 1000 * op)) (IZR K * B2R O * / 1000 * B2R op)).
  { eapply approx_step; [| |exact B2|exact Eb3]; repeat apply Rmult_le_pos; lra. }
  replace (exactCost T O ip op K)
    with (IZR K * B2R T * / 1000 * B2R ip + IZR K * B2R O * / 1000 * B2R op)
    by (unfold exactCost; field).
  eapply approx_add; [exact A3|exact B3|exact Ed| |]; repeat apply Rmult_le_pos; lra.
Qed.

Lemma rounding_gap :
  (1 + ulp_half) ^ 4 < (1 + / 562949953421312) * (1 - ulp_half) ^ 4.
Proof. rewrite ulp_half_val. cbn [pow]. lra. Qed.

(** More messages at no fewer input tokens per message cost strictly
    more, as long as the message count stays below [2^49]. *)
Lemma dailyCostOf_increasing T T' O ip op K K' :
  pos_normal T (-53) 8 -> pos_normal T' (-53) 8 -> pos_normal O (-53) 8 ->
  pos_normal ip (-70) (-40) -> pos_normal op (-70) (-40) ->
  B2R T <= B2R T' ->
  (0 < K < K')%Z -> (K' <= 2 ^ 49)%Z ->
  lt (dailyCostOf T O (of_Z K) ip op) (dailyCostOf T' O (of_Z K') ip op) = true.
Proof.
  intros HT HT' HO Hip Hop HTT HK HK'.
  destruct (dailyCostOf_approx T O ip op K HT HO Hip Hop ltac:(lia)) as (Hn & _ & Hhi).
  destruct (dailyCostOf_approx T' O ip op K' HT' HO Hip Hop ltac:(lia)) as (Hn' & Hlo & _).
  apply (lt_pos_normal _ _ _ _ _ _ Hn Hn').
  pose proof (pos_normal_B2R _ _ _ HT) as [HTpos _].
  pose proof (pos_normal_B2R _ _ _ HO) as [HOpos _].
  pose proof (pos_normal_B2R _ _ _ Hip) as [Hippos _].
  pose proof (pos_normal_B2R _ _ _ Hop) as [Hoppos _].
  set (W := B2R T / 1000 * B2R ip + B2R O / 1000 * B2R op).
  set (W' := B2R T' / 1000 * B2R ip + B2R O / 1000 * B2R op).
  assert (HW : 0 < W) by (unfold W; apply Rplus_lt_0_compat;
    apply Rmult_lt_0_compat; lra).
  assert (HWW : W <= W').
  { unfold W, W'. apply Rplus_le_compat_r. apply Rmult_le_compat_r; lra. }
  assert (HKR : 1 <= IZR K) by (apply IZR_le; lia).
  assert (HK'R : IZR K + 1 <= IZR K') by (rewrite <- plus_IZR; apply IZR_le; lia).
  assert (HKb : IZR K <= 562949953421312)
    by (apply IZR_le; change 562949953421312%Z with (2 ^ 49)%Z; lia).
  fold W in Hhi. unfold exactCost in *. fold W in Hhi. fold W' in Hlo.
  pose proof rounding_gap as Hgap.
  pose proof ulp_half_bounds as Hu.
  assert (Hp1 : 0 < (1 - ulp_half) ^ 4) by (apply pow_lt; lra).
  assert (Hp2 : 0 < (1 + ulp_half) ^ 4) by (apply pow_lt; lra).
  set (lo4 := (1 - ulp_half) ^ 4) in *. set (hi4 := (1 + ulp_half) ^ 4) in *.
  apply Rle_lt_trans with (1 := Hhi). apply Rlt_le_trans with (2 := Hlo).
  (* K W hi4 < K W (1 + 2^-49) lo4 <= (K + 1) W lo4 <= K' W' lo4 *)
  apply Rlt_le_trans with (IZR K * W * ((1 + / 562949953421312) * lo4)).
  - apply Rmult_lt_compat_l; [nra|assumption].
  - replace (IZR K * W * ((1 + / 562949953421312) * lo4))
      with ((IZR K * (1 + / 562949953421312)) * W * lo4) by ring.
    apply Rmult_le_compat_r; [lra|].
    apply Rle_trans with ((IZR K + 1) * W).
    + apply Rmult_le_compat_r; [lra|]. lra.
    + apply Rle_trans with (IZR K' * W).
      * apply Rmult_le_compat_r; lra.
      * apply Rmult_le_compat_l; lra.
Qed.

End DailyCost.

(** ** The price table and the main path *)

Lemma gpt4o_prices m :
  OPENAI_MODELS !! "gpt-4o"%string = Some m ->
  pos_normal (inputPrice m) (-70) (-40) /\ pos_normal (outputPrice m) (-70) (-40).
Proof.
  intros H. assert (Hm : m = {| name := "GPT-40";
          description := "Latest model with vision capabilities, 128K context (Oct 2023)";
          inputPrice := 0.0025;
          outputPrice := 0.01 |}) by (vm_compute in H; congruence).
  subst m. cbn [inputPrice outputPrice]. split.
  - exists 5764607523034235%positive, (-61)%Z. repeat split; lia.
  - exists 5764607523034235%positive, (-59)%Z. repeat split; lia.
Qed.

Lemma priced_model_is_gpt4o id m :
  OPENAI_MODELS !! id = Some m -> id = "gpt-4o"%string.
Proof.
  unfold OPENAI_MODELS. intros H. apply lookup_singleton_Some in H. now destruct H.
Qed.

Lemma dailyCost_main input :
  zeroGuard input = false -> arrayFault input = false ->
  let r := calculateCosts input in
  dailyCost r =
  dailyCostOf (totalInputTokensOf r) (outputTokensOf r) (totalDailyMessages r)
    (inputPrice_or_0 (OPENAI_MODELS !! selectedModel input))
    (outputPrice_or_0 (OPENAI_MODELS !! selectedModel input))
  /\ totalDailyMessages r =
     dailyUsers input * conversationsPerUser input * messagesPerConversation input.
Proof. intros Hg Hf. cbv zeta. now rewrite calculateCosts_main. Qed.

(** Positive integer counts take the main path and give an integer
    message volume. *)
Lemma integer_counts_main input a b c :
  countsAre input a b c ->
  (1 <= a)%Z -> (1 <= b)%Z -> (1 <= c)%Z ->
  (a * b * c < 2 ^ 53)%Z -> (c <= 2 ^ 27 - 1)%Z ->
  zeroGuard input = false /\ arrayFault input = false
  /\ totalDailyMessages (calculateCosts input) = of_Z (a * b * c).
Proof.
  intros (Ha & Hb & Hc) H1a H1b H1c Habc Hc32.
  assert (Hg : zeroGuard input = false).
  { unfold zeroGuard. rewrite Ha, Hb, Hc, !of_Z_not_zero; [reflexivity|nia..]. }
  assert (Hf : arrayFault input = false).
  { unfold arrayFault. rewrite Hc, ToLength_of_Z by nia.
    apply Z.ltb_ge. unfold max_array_length. lia. }
  split; [assumption|]. split; [assumption|].
  destruct (dailyCost_main input Hg Hf) as [_ ->].
  rewrite Ha, Hb, Hc, !of_Z_mul; try reflexivity; nia.
Qed.

(** Negating the message volume negates the daily cost. *)
Lemma dailyCostOf_opp T O M ip op lT hT lO hO lM hM :
  pos_normal T lT hT -> pos_normal O lO hO -> pos_normal M lM hM ->
  pos_normal (T * M / 1000 * ip) (-1074) 969 ->
  pos_normal (O * M / 1000 * op) (-1074) 969 ->
  dailyCostOf T O (- M) ip op = - dailyCostOf T O M ip op.
Proof.
  intros HT HO HM Ha Hb. unfold dailyCostOf.
  rewrite !mul_opp_r, !div_opp_l, !mul_opp_l.
  now apply (add_opp_opp _ _ _ _ _ _ Ha Hb).
Qed.

(** ** Integer token counts *)

Section ExactTokens.

Lemma of_Z_add a b :
  (0 < a)%Z -> (0 < b)%Z -> (a + b < 2 ^ 53)%Z -> of_Z a + of_Z b = of_Z (a + b).
Proof.
  intros Ha Hb Hab.
  destruct (of_Z_pos_normal a ltac:(lia)) as [Hna Hva].
  destruct (of_Z_pos_normal b ltac:(lia)) as [Hnb Hvb].
  destruct (of_Z_pos_normal (a + b) ltac:(lia)) as [Hnab Hvab].
  destruct (add_pos_normal _ _ _ _ _ _ Hna Hnb ltac:(lia) ltac:(lia) ltac:(lia))
    as (_ & _ & Hexact).
  apply (Hexact _ _ _ Hnab). now rewrite Hva, Hvb, Hvab, plus_IZR.
Qed.

Lemma add_0_l x lo hi : pos_normal x lo hi -> 0 + x = x.
Proof.
  intros (m & e & Hx & _). apply Prim2SF_inj. rewrite add_spec, Hx.
  change (Prim2SF 0) with (S754_zero false). reflexivity.
Qed.

Lemma add_0_r x lo hi : pos_normal x lo hi -> x + 0 = x.
Proof.
  intros (m & e & Hx & _). apply Prim2SF_inj. rewrite add_spec, Hx.
  change (Prim2SF 0) with (S754_zero false). reflexivity.
Qed.

(** Half a positive integer below [2^53] is a number. *)
Lemma half_representable K :
  (0 < K < 2 ^ 53)%Z ->
  exists z, pos_normal z (-53) (-1) /\ B2R z = (IZR K / 2)%R.
Proof.
  intros HK. destruct (of_Z_pos_normal K HK) as [(m & e & Hx & Hd & He) Hv].
  unfold B2R in Hv. rewrite Hx in Hv. cbn [SF2R] in Hv.
  assert (Hvalid : valid_binary (S754_finite false m (e - 1)) = true).
  { cbn [SpecFloat.valid_binary]. unfold bounded, canonical_mantissa.
    rewrite Hd, fexp_normal by lia. apply andb_true_intro.
    split; [apply Z.eqb_eq; lia|apply Z.leb_le; change (emax - prec)%Z with 971%Z; lia]. }
  exists (SF2Prim (S754_finite false m (e - 1))). split.
  - exists m, (e - 1)%Z. rewrite Prim2SF_SF2Prim by assumption. repeat split; auto; lia.
  - unfold B2R. rewrite Prim2SF_SF2Prim by assumption. cbn [SF2R].
    replace (e - 1)%Z with (e + -1)%Z by lia. rewrite pow2_add, pow2_m1, <- Hv.
    unfold Rdiv. ring.
Qed.

(** The tokens of a word count between 1 and [2^20] are a positive
    integer, at most [2^21]. *)
Lemma wordsToTokens_integer w :
  le 1 w = true -> le w 1048576 = true ->
  exists k, (1 <= k <= 2 ^ 21)%Z /\ wordsToTokens w = of_Z k.
Proof.
  intros Hlo Hhi.
  assert (H1 : pos_normal 1 (-52) (-52))
    by (exists 4503599627370496%positive, (-52)%Z; repeat split; lia).
  assert (H20 : pos_normal 1048576 (-32) (-32))
    by (exists 4503599627370496%positive, (-32)%Z; repeat split; lia).
  assert (Hw : pos_normal w (-52) (-32))
    by (apply (pos_normal_between w 1 1048576 (-52) (-52) (-32) (-32)); auto; lia).
  pose proof (le_pos_normal_inv _ _ _ _ _ _ Hw H20 Hhi) as Hwv.
  assert (E20 : B2R 1048576 = 1048576%R).
  { change 1048576 with (of_Z 1048576).
    now destruct (of_Z_pos_normal 1048576 ltac:(lia)) as [_ ->]. }
  rewrite E20 in Hwv.
  destruct ratio_pos_normal as [Hc Hcv].
  unfold wordsToTokens. rewrite (pos_normal_not_le_0 _ _ _ Hw).
  destruct (mul_pos_normal _ _ _ _ _ _ Hw Hc ltac:(lia) ltac:(lia)) as (Hp & Ep & _).
  destruct (Math_ceil_pos_normal _ _ _ Hp) as (k & Hk & Hkv & Hkb & Hkn).
  rewrite Hcv, ulp_half_val in Ep. apply Rabs_le_bounds in Ep.
  pose proof (pos_normal_B2R _ _ _ Hw) as [Hwpos _].
  assert (Hk21 : (k < 2 ^ 21)%Z).
  { apply lt_IZR. change (IZR (2 ^ 21)) with 2097152%R. lra. }
  exists k. split; [lia|].
  destruct (of_Z_pos_normal k ltac:(lia)) as [Hnk Hvk].
  apply (pos_normal_inj _ _ _ _ _ _ Hkn Hnk). now rewrite Hkv, Hvk.
Qed.

End ExactTokens.

(** ** The history sum of integer tokens *)

Section ExactHistory.

Lemma triangle_succ n : triangle (n + 1) = (triangle n + n)%Z.
Proof.
  unfold triangle. replace ((n + 1) * (n + 1 - 1))%Z with (n * (n - 1) + n * 2)%Z by ring.
  now rewrite Z.div_add by lia.
Qed.

Lemma triangle_double n : (2 * triangle n = n * (n - 1))%Z.
Proof.
  unfold triangle.
  assert (H : (n * (n - 1) mod 2 = 0)%Z).
  { destruct (Z.Even_or_Odd n) as [[k ->]|[k ->]].
    - rewrite <- Z.mul_assoc, Z.mul_comm, Z.mod_mul; lia.
    - replace ((2 * k + 1) * (2 * k + 1 - 1))%Z with ((2 * k + 1) * k * 2)%Z by ring.
      rewrite Z.mod_mul; lia. }
  pose proof (Z.div_mod (n * (n - 1)) 2 ltac:(lia)). lia.
Qed.

Lemma triangle_bounds n : (2 <= n)%Z -> (1 <= triangle n)%Z /\ (triangle n < n * n)%Z.
Proof. intros Hn. pose proof (triangle_double n). nia. Qed.

(** With integer tokens the history sum is exact while it stays below
    [2^53]. *)
Lemma historySum_exact kq ko n :
  (1 <= kq)%Z -> (1 <= ko)%Z ->
  ((kq + ko) * (Z.of_nat n * Z.of_nat n) < 2 ^ 53)%Z ->
  historySum (of_Z kq) (of_Z ko) n =
  if (Z.of_nat n <=? 1)%Z then 0 else of_Z ((kq + ko) * triangle (Z.of_nat n)).
Proof.
  intros Hq Ho. induction n as [|n IH]; intros Hb; [reflexivity|].
  cbn [historySum]. rewrite IH by nia. clear IH.
  destruct n as [|n]; [reflexivity|].
  assert (Hh : of_Z kq + of_Z ko = of_Z (kq + ko)) by (apply of_Z_add; nia).
  cbn [historyTerm]. unfold of_nat. rewrite Hh.
  set (k := Z.of_nat (S n)) in *.
  assert (Hk : (1 <= k)%Z) by (unfold k; lia).
  replace (Z.of_nat (S (S n))) with (k + 1)%Z in * by (unfold k; lia).
  rewrite of_Z_mul by nia.
  replace (k + 1 <=? 1)%Z with false by (symmetry; apply Z.leb_gt; lia).
  rewrite triangle_succ.
  destruct (Z.leb_spec k 1) as [Hk1|Hk1].
  - assert (k = 1)%Z by lia. subst k. replace (Z.of_nat (S n)) with 1%Z in * by lia.
    change (triangle 1) with 0%Z. rewrite Z.mul_1_l.
    destruct (of_Z_pos_normal (kq + ko) ltac:(nia)) as [Hn _].
    rewrite (add_0_l _ _ _ Hn). f_equal. lia.
  - pose proof (triangle_bounds k ltac:(lia)) as [Ht1 Ht2].
    rewrite of_Z_add by nia. f_equal. lia.
Qed.

End ExactHistory.

(** ** Input tokens per message *)

Section ExactInputTokens.

(** With integer tokens and counts, the total input tokens per message
    are exactly [chunks * chunkTokens + queryTokens] plus half of
    [(queryTokens + outputTokens) * (messages - 1)]. *)
Lemma totalInputTokens_exact input kc kch kq ko c :
  chunksPerQuery input = of_Z kc ->
  wordsToTokens (wordsPerChunk input) = of_Z kch ->
  wordsToTokens (userQueryWords input) = of_Z kq ->
  wordsToTokens (responseWords input) = of_Z ko ->
  messagesPerConversation input = of_Z c ->
  (1 <= kc <= 2 ^ 20)%Z -> (1 <= kch <= 2 ^ 21)%Z ->
  (1 <= kq <= 2 ^ 21)%Z -> (1 <= ko <= 2 ^ 21)%Z -> (1 <= c <= 2 ^ 15)%Z ->
  zeroGuard input = false -> arrayFault input = false ->
  let r := calculateCosts input in
  pos_normal (totalInputTokensOf r) (-53) 0
  /\ B2R (totalInputTokensOf r)
     = (IZR (kc * kch + kq) + IZR ((kq + ko) * (c - 1)) / 2)%R
  /\ outputTokensOf r = of_Z ko.
Proof.
  intros Hcpq Hch Hq Ho Hc Hkc Hkch Hkq Hko Hcb Hg Hf. cbv zeta.
  rewrite calculateCosts_main by assumption.
  unfold totalInputTokensOf, outputTokensOf.
  cbn [computeCosts performBackcheck backcheck details expectedValues
       Values.inputTokens Values.outputTokens].
  unfold math.add, math.multiply, messageSlots.
  rewrite Hcpq, Hch, Hq, Ho, Hc.
  assert (H15 : (2 ^ 15 = 32768)%Z) by reflexivity.
  assert (H20 : (2 ^ 20 = 1048576)%Z) by reflexivity.
  assert (H21 : (2 ^ 21 = 2097152)%Z) by reflexivity.
  assert (H53 : (2 ^ 53 = 9007199254740992)%Z) by reflexivity.
  rewrite ToLength_of_Z by lia.
  rewrite totalHistoryTokens_sum by lia.
  rewrite historySum_exact by nia.
  rewrite Z2Nat.id by lia.
  rewrite of_Z_mul, of_Z_add by nia.
  set (B := (kc * kch + kq)%Z). set (h := (kq + ko)%Z).
  assert (HB : (1 <= B < 2 ^ 42)%Z) by (unfold B; change (2 ^ 42)%Z with 4398046511104%Z; nia).
  assert (Hh : (2 <= h <= 2 ^ 22)%Z) by (unfold h; change (2 ^ 22)%Z with 4194304%Z; lia).
  assert (H22 : (2 ^ 22 = 4194304)%Z) by reflexivity.
  assert (H42 : (2 ^ 42 = 4398046511104)%Z) by reflexivity.
  destruct (of_Z_pos_normal B ltac:(lia)) as [HnB HvB].
  split; [|split; [|reflexivity]];
    (destruct (Z.leb_spec c 1) as [Hc1|Hc1];
     [assert (c = 1)%Z by lia; subst c; change (0 / of_Z 1) with 0;
      rewrite (add_0_r _ _ _ HnB)|]).
  - eapply pos_normal_weaken; [exact HnB|lia..].
  - pose proof (triangle_bounds c ltac:(lia)) as [Ht1 Ht2].
    pose proof (triangle_double c) as Ht.
    destruct (of_Z_pos_normal (h * triangle c) ltac:(nia)) as [HnS HvS].
    destruct (of_Z_pos_normal c ltac:(lia)) as [Hnc Hvc].
    destruct (half_representable (h * (c - 1)) ltac:(nia)) as (z & Hnz & Hvz).
    destruct (div_pos_normal _ _ _ _ _ _ HnS Hnc ltac:(lia) ltac:(lia)) as (_ & _ & Hdiv).
    rewrite (Hdiv z _ _ Hnz).
    + destruct (half_representable (2 * B + h * (c - 1)) ltac:(nia)) as (z' & Hnz' & Hvz').
      destruct (add_pos_normal _ _ _ _ _ _ HnB Hnz ltac:(lia) ltac:(lia) ltac:(lia))
        as (_ & _ & Hadd).
      rewrite (Hadd z' _ _ Hnz').
      * eapply pos_normal_weaken; [exact Hnz'|lia..].
      * rewrite Hvz', HvB, Hvz, plus_IZR, !mult_IZR. lra.
    + rewrite Hvz, HvS, Hvc.
      assert (Hc0 : (0 < IZR c)%R) by (apply IZR_lt; lia).
      apply (f_equal IZR) in Ht. rewrite !mult_IZR, minus_IZR in Ht.
      rewrite !mult_IZR, minus_IZR.
      replace (IZR (triangle c)) with (IZR c * (IZR c - 1) / 2)%R by lra.
      field. lra.
  - rewrite HvB. replace (h * (1 - 1))%Z with 0%Z by lia. lra.
  - pose proof (triangle_bounds c ltac:(lia)) as [Ht1 Ht2].
    pose proof (triangle_double c) as Ht.
    destruct (of_Z_pos_normal (h * triangle c) ltac:(nia)) as [HnS HvS].
    destruct (of_Z_pos_normal c ltac:(lia)) as [Hnc Hvc].
    destruct (half_representable (h * (c - 1)) ltac:(nia)) as (z & Hnz & Hvz).
    destruct (div_pos_normal _ _ _ _ _ _ HnS Hnc ltac:(lia) ltac:(lia)) as (_ & _ & Hdiv).
    rewrite (Hdiv z _ _ Hnz).
    + destruct (half_representable (2 * B + h * (c - 1)) ltac:(nia)) as (z' & Hnz' & Hvz').
      destruct (add_pos_normal _ _ _ _ _ _ HnB Hnz ltac:(lia) ltac:(lia) ltac:(lia))
        as (_ & _ & Hadd).
      rewrite (Hadd z' _ _ Hnz').
      * rewrite Hvz', plus_IZR, !mult_IZR. lra.
      * rewrite Hvz', HvB, Hvz, plus_IZR, !mult_IZR. lra.
    + rewrite Hvz, HvS, Hvc.
      assert (Hc0 : (0 < IZR c)%R) by (apply IZR_lt; lia).
      apply (f_equal IZR) in Ht. rewrite !mult_IZR, minus_IZR in Ht.
      rewrite !mult_IZR, minus_IZR.
      replace (IZR (triangle c)) with (IZR c * (IZR c - 1) / 2)%R by lra.
      field. lra.
Qed.

End ExactInputTokens.

(** ** Realistic configurations *)

(** The tokens of a realistic configuration are positive integers. *)
Lemma realistic_tokens input kc :
  realisticContent input kc ->
  exists kch kq ko,
    wordsToTokens (wordsPerChunk input) = of_Z kch
    /\ wordsToTokens (userQueryWords input) = of_Z kq
    /\ wordsToTokens (responseWords input) = of_Z ko
    /\ (1 <= kch <= 2 ^ 21)%Z /\ (1 <= kq <= 2 ^ 21)%Z /\ (1 <= ko <= 2 ^ 21)%Z.
Proof.
  intros (_ & _ & [Hc1 Hc2] & [Hq1 Hq2] & [Ho1 Ho2]).
  destruct (wordsToTokens_integer _ Hc1 Hc2) as (kch & Hkch & Ech).
  destruct (wordsToTokens_integer _ Hq1 Hq2) as (kq & Hkq & Eq).
  destruct (wordsToTokens_integer _ Ho1 Ho2) as (ko & Hko & Eo).
  exists kch, kq, ko. auto 10.
Qed.

(** ** The difference of two close numbers *)

Section Subtraction.
#[local] Open Scope R_scope.

Lemma digits2_pos_iter_xO p k :
  Zpos (digits2_pos (Pos.iter xO p k)) = (Zpos (digits2_pos p) + Zpos k)%Z.
Proof.
  apply digits2_pos_unique. rewrite iter_xO_spec.
  pose proof (digits2_pos_bounds p) as [Hlo Hhi].
  replace (Zpos (digits2_pos p) + Zpos k - 1)%Z with (Zpos (digits2_pos p) - 1 + Zpos k)%Z
    by lia.
  rewrite !Z.pow_add_r by lia.
  assert (0 < 2 ^ Zpos k)%Z by (apply Z.pow_pos_nonneg; lia). nia.
Qed.

(** Rounding an integer mantissa well inside the normal range: the result
    is a normal number of the sign asked for, at most a relative [2^-53]
    above its magnitude. *)
Lemma binary_round_magnitude s p e :
  (-1000 <= e)%Z -> (Zpos (digits2_pos p) + e <= 1000)%Z ->
  exists m' e',
    binary_round prec emax s p e = S754_finite s m' e'
    /\ Zpos (digits2_pos m') = 53%Z
    /\ IZR (Zpos m') * pow2 e' <= (1 + ulp_half) * (IZR (Zpos p) * pow2 e).
Proof.
  intros He Hd. unfold binary_round. rewrite fexp_normal by lia.
  pose proof ulp_half_bounds as Hu.
  assert (Hv : 0 < IZR (Zpos p) * pow2 e)
    by (apply Rmult_lt_0_compat; [apply IZR_pos_gt_0|apply pow2_pos]).
  assert (Hvu : IZR (Zpos p) * pow2 e <= (1 + ulp_half) * (IZR (Zpos p) * pow2 e)) by nra.
  destruct (Z.leb_spec (Zpos (digits2_pos p)) 53) as [Hle|Hgt].
  - (* at most 53 digits: aligned to exactly 53, nothing is rounded *)
    unfold shl_align.
    destruct (Zpos (digits2_pos p) + e - 53 - e)%Z as [|k|k] eqn:Hk; try lia.
    + exists p, e. split; [|split; [lia|exact Hvu]].
      apply binary_round_aux_canonical. unfold bounded, canonical_mantissa.
      rewrite fexp_normal by lia. apply andb_true_intro.
      split; [apply Z.eqb_eq; lia|apply Z.leb_le; change (emax - prec)%Z with 971%Z; lia].
    + pose proof (digits2_pos_iter_xO p k) as Hdk.
      exists (Pos.iter xO p k), (Zpos (digits2_pos p) + e - 53)%Z.
      split; [|split; [lia|]].
      * apply binary_round_aux_canonical. unfold bounded, canonical_mantissa.
        rewrite Hdk, fexp_normal by lia. apply andb_true_intro.
        split; [apply Z.eqb_eq; lia|apply Z.leb_le; change (emax - prec)%Z with 971%Z; lia].
      * rewrite iter_xO_spec, mult_IZR, <- pow2_IZR, Rmult_assoc, <- pow2_add by lia.
        replace (Zpos k + (Zpos (digits2_pos p) + e - 53))%Z with e by lia. exact Hvu.
  - rewrite shl_align_noop by lia.
    destruct (binary_round_aux_error s p e loc_Exact (Zpos p) 1)
      as (m' & e' & Hr & _ & Hd' & Herr & _); [lia|constructor; lia|lia..|].
    exists m', e'. split; [exact Hr|]. split; [exact Hd'|].
    apply Rabs_le_bounds in Herr. fold ulp_half in Herr.
    replace (IZR (Zpos p) / 1 * pow2 e) with (IZR (Zpos p) * pow2 e) in Herr by field.
    lra.
Qed.

(** The tolerance test on two positive normal numbers that are close. *)
Lemma match_close x y c lc hc delta :
  pos_normal x (-1000) 900 -> pos_normal y (-1000) 900 -> pos_normal c lc hc ->
  Rabs (B2R x - B2R y) <= delta -> (1 + ulp_half) * delta < B2R c ->
  lt (Math_abs (x - y)) c = true.
Proof.
  intros (mx & ex & Hx & Hdx & Hex) (my & ey & Hy & Hdy & Hey) (mc & ec & Hc & Hdc & _).
  unfold B2R, lt, Math_abs. rewrite ltb_spec, abs_spec, sub_spec, Hx, Hy, Hc.
  cbn [SF2R]. intros Hdelta Hsmall.
  unfold SF64sub, SFsub. cbv zeta. cbn [cond_Zopp].
  set (ez := Z.min ex ey).
  pose proof (shl_align_fst mx ex ez ltac:(unfold ez; lia)) as Hax.
  pose proof (shl_align_fst my ey ez ltac:(unfold ez; lia)) as Hay.
  set (ax := fst (shl_align mx ex ez)) in *. set (ay := fst (shl_align my ey ez)) in *.
  assert (Hez : (-1000 <= ez)%Z) by (unfold ez; lia).
  assert (HS : IZR (Zpos ax - Zpos ay) * pow2 ez
               = IZR (Zpos mx) * pow2 ex - IZR (Zpos my) * pow2 ey).
  { rewrite minus_IZR, Hax, Hay, !mult_IZR, <- !pow2_IZR by (unfold ez; lia).
    replace ex with (ex - ez + ez)%Z at 2 by lia.
    replace ey with (ey - ez + ez)%Z at 2 by lia.
    rewrite !pow2_add. ring. }
  rewrite <- HS in Hdelta.
  pose proof (pow2_pos ez) as Hpez. pose proof ulp_half_bounds as Hu.
  assert (Hmag : forall p, Z.abs (Zpos ax - Zpos ay) = Zpos p ->
                 (Zpos (digits2_pos p) + ez <= 1000)%Z).
  { intros p Hp.
    pose proof (digits2_pos_bounds mx) as [_ Hmx]. rewrite Hdx in Hmx.
    pose proof (digits2_pos_bounds my) as [_ Hmy]. rewrite Hdy in Hmy.
    assert (Hpx : (0 < 2 ^ (ex - ez))%Z) by (apply Z.pow_pos_nonneg; unfold ez; lia).
    assert (Hpy : (0 < 2 ^ (ey - ez))%Z) by (apply Z.pow_pos_nonneg; unfold ez; lia).
    assert (Hxle : (2 ^ (ex - ez) <= 2 ^ (900 - ez))%Z) by (apply Z.pow_le_mono_r; lia).
    assert (Hyle : (2 ^ (ey - ez) <= 2 ^ (900 - ez))%Z) by (apply Z.pow_le_mono_r; lia).
    assert (Hd : (Zpos (digits2_pos p) <= 53 + (900 - ez))%Z).
    { apply digits2_pos_le; [unfold ez; lia|].
      rewrite Z.pow_add_r by (unfold ez; lia). nia. }
    lia. }
  destruct (Zpos ax - Zpos ay)%Z as [|p|p] eqn:HSz.
  - reflexivity.
  - cbn [binary_normalize].
    destruct (binary_round_magnitude false p ez Hez (Hmag p eq_refl))
      as (m' & e' & -> & Hd' & Hv).
    cbn [SFabs]. unfold SFltb.
    pose proof (SFcompare_pos_normal m' e' mc ec Hd' Hdc) as Hcmp. cbv zeta in Hcmp.
    rewrite Rabs_pos_eq in Hdelta
      by (apply Rmult_le_pos; [apply IZR_le; lia|lra]).
    assert (IZR (Zpos m') * pow2 e' < IZR (Zpos mc) * pow2 ec).
    { apply Rle_lt_trans with (2 := Hsmall). apply Rle_trans with (1 := Hv).
      apply Rmult_le_compat_l; lra. }
    destruct (SFcompare _ _) as [[| |]|]; try reflexivity; try contradiction; try lra.
    destruct Hcmp as [-> ->]. lra.
  - cbn [binary_normalize].
    destruct (binary_round_magnitude true p ez Hez (Hmag p eq_refl))
      as (m' & e' & -> & Hd' & Hv).
    cbn [SFabs]. unfold SFltb.
    pose proof (SFcompare_pos_normal m' e' mc ec Hd' Hdc) as Hcmp. cbv zeta in Hcmp.
    replace (IZR (Zneg p)) with (- IZR (Zpos p)) in Hdelta by (now rewrite <- opp_IZR).
    rewrite <- Ropp_mult_distr_l, Rabs_Ropp, Rabs_pos_eq in Hdelta
      by (apply Rmult_le_pos; [apply IZR_le; lia|lra]).
    assert (IZR (Zpos m') * pow2 e' < IZR (Zpos mc) * pow2 ec).
    { apply Rle_lt_trans with (2 := Hsmall). apply Rle_trans with (1 := Hv).
      apply Rmult_le_compat_l; lra. }
    destruct (SFcompare _ _) as [[| |]|]; try reflexivity; try contradiction; try lra.
    destruct Hcmp as [-> ->]. lra.
Qed.

End Subtraction.

(** ** The two evaluations of the daily cost *)

Section CostsMatch.
#[local] Open Scope R_scope.

Lemma expectedCostOf_approx T O ip op K :
  pos_normal T (-53) 8 -> pos_normal O (-53) 8 ->
  pos_normal ip (-70) (-40) -> pos_normal op (-70) (-40) ->
  (0 < K < 2 ^ 53)%Z ->
  pos_normal (expectedCostOf T O (of_Z K) ip op) (-81) 70
  /\ approx 4 (B2R (expectedCostOf T O (of_Z K) ip op)) (exactCost T O ip op K).
Proof.
  intros HT HO Hip Hop HK.
  destruct (of_Z_pos_normal K HK) as [HM HMv].
  destruct thousand_pos_normal as [H1000 H1000v].
  pose proof (pos_normal_B2R _ _ _ HT) as [HTpos _].
  pose proof (pos_normal_B2R _ _ _ HO) as [HOpos _].
  pose proof (pos_normal_B2R _ _ _ Hip) as [Hippos _].
  pose proof (pos_normal_B2R _ _ _ Hop) as [Hoppos _].
  assert (HKpos : 0 < IZR K) by (apply IZR_lt; lia).
  unfold expectedCostOf.
  destruct (mul_pos_normal _ _ _ _ _ _ HT HM ltac:(lia) ltac:(lia)) as (Ha1 & Ea1 & _).
  destruct (mul_pos_normal _ _ _ _ _ _ Ha1 Hip ltac:(lia) ltac:(lia)) as (Ha2 & Ea2 & _).
  destruct (div_pos_normal _ _ _ _ _ _ Ha2 H1000 ltac:(lia) ltac:(lia)) as (Ha3 & Ea3 & _).
  destruct (mul_pos_normal _ _ _ _ _ _ HO HM ltac:(lia) ltac:(lia)) as (Hb1 & Eb1 & _).
  destruct (mul_pos_normal _ _ _ _ _ _ Hb1 Hop ltac:(lia) ltac:(lia)) as (Hb2 & Eb2 & _).
  destruct (div_pos_normal _ _ _ _ _ _ Hb2 H1000 ltac:(lia) ltac:(lia)) as (Hb3 & Eb3 & _).
  destruct (add_pos_normal _ _ _ _ _ _ Ha3 Hb3 ltac:(lia) ltac:(lia) ltac:(lia))
    as (Hd & Ed & _).
  split; [eapply pos_normal_weaken; [exact Hd|lia..]|].
  rewrite HMv, H1000v in *.
  assert (A1 : approx 1 (B2R (T * of_Z K)) (IZR K * B2R T)).
  { apply approx_step with (x := IZR K); [lra|lra|apply approx_exact|].
    now rewrite (Rmult_comm (IZR K)). }
  assert (A2 : approx 2 (B2R (T * of_Z K * ip)) (IZR K * B2R T * B2R ip)).
  { eapply approx_step; [| |exact A1|exact Ea2]; repeat apply Rmult_le_pos; lra. }
  assert (A3 : approx 3 (B2R (T * of_Z K * ip / 1000)) (IZR K * B2R T * B2R ip * / 1000)).
  { eapply approx_step; [| |exact A2|exact Ea3]; repeat apply Rmult_le_pos; lra. }
  assert (B1 : approx 1 (B2R (O * of_Z K)) (IZR K * B2R O)).
  { apply approx_step with (x := IZR K); [lra|lra|apply approx_exact|].
    now rewrite (Rmult_comm (IZR K)). }
  assert (B2 : approx 2 (B2R (O * of_Z K * op)) (IZR K * B2R O * B2R op)).
  { eapply approx_step; [| |exact B1|exact Eb2]; repeat apply Rmult_le_pos; lra. }
  assert (B3 : approx 3 (B2R (O * of_Z K * op / 1000)) (IZR K * B2R O * B2R op * / 1000)).
  { eapply approx_step; [| |exact B2|exact Eb3]; repeat apply Rmult_le_pos; lra. }
  replace (exactCost T O ip op K)
    with (IZR K * B2R T * B2R ip * / 1000 + IZR K * B2R O * B2R op * / 1000)
    by (unfold exactCost; field).
  eapply approx_add; [exact A3|exact B3|exact Ed| |]; repeat apply Rmult_le_pos; lra.
Qed.

Lemma rounding_spread :
  / 2 <= (1 - ulp_half) ^ 4
  /\ (1 + ulp_half) ^ 4 - (1 - ulp_half) ^ 4 <= / 562949953421312.
Proof. rewrite ulp_half_val. cbn [pow]. split; lra. Qed.

Lemma tolerance_value : B2R 0.0001 = 7378697629483821 / 73786976294838206464.
Proof.
  unfold B2R. change (Prim2SF 0.0001) with (S754_finite false 7378697629483821 (-66)).
  cbn [SF2R]. change (pow2 (-66)) with (pow2 (- (66))). now rewrite (pow2_neg 66).
Qed.

(** Up to a daily cost of [10^10] the two evaluations of the daily cost
    agree within the tolerance of the backcheck. *)
Lemma costs_match T O ip op K :
  pos_normal T (-53) 8 -> pos_normal O (-53) 8 ->
  pos_normal ip (-70) (-40) -> pos_normal op (-70) (-40) ->
  (0 < K < 2 ^ 53)%Z ->
  le (dailyCostOf T O (of_Z K) ip op) 10000000000 = true ->
  lt (Math_abs (expectedCostOf T O (of_Z K) ip op - dailyCostOf T O (of_Z K) ip op))
     0.0001 = true.
Proof.
  intros HT HO Hip Hop HK Hle.
  destruct (dailyCostOf_approx T O ip op K HT HO Hip Hop HK) as (Hnd & Hdlo & Hdhi).
  destruct (expectedCostOf_approx T O ip op K HT HO Hip Hop HK) as (Hne & Helo & Hehi).
  destruct (of_Z_pos_normal 10000000000 ltac:(lia)) as [Hn10 Hv10].
  change (of_Z 10000000000) with 10000000000%float in Hn10, Hv10.
  pose proof (le_pos_normal_inv _ _ _ _ _ _ Hnd Hn10 Hle) as Hd10. rewrite Hv10 in Hd10.
  assert (Hc : pos_normal 0.0001 (-66) (-66))
    by (exists 7378697629483821%positive, (-66)%Z; repeat split; lia).
  apply (match_close _ _ _ (-66)%Z (-66)%Z (20000000000 * / 562949953421312));
    [eapply pos_normal_weaken; [exact Hne|lia..]
    |eapply pos_normal_weaken; [exact Hnd|lia..]
    |exact Hc| |].
  - destruct rounding_spread as [Hlo4 Hspread].
    set (V := exactCost T O ip op K) in *.
    set (lo4 := (1 - ulp_half) ^ 4) in *. set (hi4 := (1 + ulp_half) ^ 4) in *.
    assert (HV : 0 <= V).
    { unfold V, exactCost.
      pose proof (pos_normal_B2R _ _ _ HT) as [HTpos _].
      pose proof (pos_normal_B2R _ _ _ HO) as [HOpos _].
      pose proof (pos_normal_B2R _ _ _ Hip) as [Hippos _].
      pose proof (pos_normal_B2R _ _ _ Hop) as [Hoppos _].
      apply Rmult_le_pos; [apply IZR_le; lia|].
      apply Rplus_le_le_0_compat; apply Rmult_le_pos; lra. }
    assert (HV2 : V <= 20000000000).
    { assert (V * / 2 <= V * lo4) by (apply Rmult_le_compat_l; lra). lra. }
    assert (Hsp : V * hi4 - V * lo4 <= 20000000000 * / 562949953421312).
    { replace (V * hi4 - V * lo4) with (V * (hi4 - lo4)) by ring.
      apply Rle_trans with (V * / 562949953421312).
      - apply Rmult_le_compat_l; assumption.
      - apply Rmult_le_compat_r; lra. }
    apply Rabs_le. lra.
  - rewrite tolerance_value, ulp_half_val. lra.
Qed.

End CostsMatch.

Lemma pos_normal_finite x lo hi : pos_normal x lo hi -> is_finite x = true.
Proof. intros (m & e & H & _). now rewrite is_finite_spec, H. Qed.

(** For positive integer counts, realistic content and a daily cost of at
    most [10^10], both comparisons of the backcheck succeed. *)
Lemma realistic_flags input a b c kc :
  countsAre input a b c -> realisticContent input kc ->
  (1 <= a)%Z -> (1 <= b)%Z -> (1 <= c <= 2 ^ 15)%Z -> (a * b * c < 2 ^ 53)%Z ->
  let r := calculateCosts input in
  let model := OPENAI_MODELS !! selectedModel input in
  let product :=
    dailyUsers input * conversationsPerUser input * messagesPerConversation input in
  le (dailyCost r) 10000000000 = true ->
  is_finite product = true
  /\ lt (Math_abs (expectedCostOf (totalInputTokensOf r) (outputTokensOf r) product
                     (inputPrice_or_0 model) (outputPrice_or_0 model) - dailyCost r))
        0.0001 = true.
Proof.
  intros Hcnt Hreal Ha Hb Hc Habc. cbv zeta.
  assert (H15 : (2 ^ 15 = 32768)%Z) by reflexivity.
  destruct (integer_counts_main input a b c Hcnt) as (Hg & Hf & HM); try lia.
  destruct (dailyCost_main input Hg Hf) as [Hcost HMp].
  rewrite <- HMp, HM.
  destruct (of_Z_pos_normal (a * b * c) ltac:(nia)) as [HnM _].
  intros Hle. split; [exact (pos_normal_finite _ _ _ HnM)|].
  destruct (realistic_tokens input kc Hreal)
    as (kch & kq & ko & Ech & Eq & Eo & Hkch & Hkq & Hko).
  destruct Hreal as (Hcpq & Hkc & _). destruct Hcnt as (_ & _ & Hmpc).
  destruct (totalInputTokens_exact input kc kch kq ko c) as (HnT' & _ & HO);
    try assumption; try lia.
  assert (H21 : (2 ^ 21 < 2 ^ 53)%Z) by reflexivity.
  destruct (of_Z_pos_normal ko ltac:(lia)) as [HnO' _].
  assert (HnT : pos_normal (totalInputTokensOf (calculateCosts input)) (-53) 8)
    by (eapply pos_normal_weaken; [exact HnT'|lia..]).
  assert (HnO : pos_normal (of_Z ko) (-53) 8)
    by (eapply pos_normal_weaken; [exact HnO'|lia..]).
  rewrite Hcost, HM, HO in Hle |- *.
  destruct (OPENAI_MODELS !! selectedModel input) as [m|] eqn:Hm;
    cbn [inputPrice_or_0 outputPrice_or_0] in Hle |- *.
  - pose proof (priced_model_is_gpt4o _ _ Hm) as Hid. rewrite Hid in Hm.
    destruct (gpt4o_prices m Hm) as [Hip Hop].
    apply costs_match; try assumption. nia.
  - destruct thousand_pos_normal as [H1000 _].
    destruct (mul_pos_normal _ _ _ _ _ _ HnT HnM ltac:(lia) ltac:(lia)) as (Ha1 & _).
    destruct (div_pos_normal _ _ _ _ _ _ Ha1 H1000 ltac:(lia) ltac:(lia)) as (Ha2 & _).
    destruct (mul_pos_normal _ _ _ _ _ _ HnO HnM ltac:(lia) ltac:(lia)) as (Hb1 & _).
    destruct (div_pos_normal _ _ _ _ _ _ Hb1 H1000 ltac:(lia) ltac:(lia)) as (Hb2 & _).
    destruct (zero_price_costs _ _ _ 0 (pos_normal_finite _ _ _ Ha2)
                (pos_normal_finite _ _ _ Hb2)) as (Hd & _ & _ & _ & _ & He & _).
    apply match_zeros; assumption.
Qed.

(** ** [Math.round] *)

Section NearestInteger.
#[local] Open Scope R_scope.

(** The mantissa of a finite number has at most 53 digits. *)
Lemma Prim2SF_mantissa x s m e :
  Prim2SF x = S754_finite s m e -> (Zpos m < 2 ^ 53)%Z.
Proof.
  intros Hx. pose proof (Prim2SF_valid x) as Hv. rewrite Hx in Hv.
  cbn [SpecFloat.valid_binary] in Hv. unfold bounded, canonical_mantissa in Hv.
  apply andb_prop in Hv as [Hc _]. apply Z.eqb_eq in Hc.
  unfold fexp, SpecFloat.emin in Hc. change (3 - emax - prec)%Z with (-1074)%Z in Hc.
  change prec with 53%Z in Hc.
  pose proof (digits2_pos_bounds m) as [_ Hhi].
  eapply Z.lt_le_trans; [exact Hhi|]. apply Z.pow_le_mono_r; lia.
Qed.

Lemma B2R_opp x : B2R (- x) = - B2R x.
Proof.
  unfold B2R. rewrite opp_spec.
  destruct (Prim2SF x) as [s|s| |s m e]; cbn [SFopp SF2R]; try lra.
  destruct s; cbn [negb]; lra.
Qed.

(** An integer from 0 to [2^53 - 1] is a number with that value. *)
Lemma of_Z_value k : (0 <= k < 2 ^ 53)%Z -> B2R (of_Z k) = IZR k.
Proof.
  intros Hk. destruct (Z.eq_dec k 0%Z) as [->|Hk0].
  - reflexivity.
  - now destruct (of_Z_pos_normal k ltac:(lia)).
Qed.

(** [Math.round] of a finite number is an integer at most one half away
    from it, the upper one if there are two. *)
Lemma Math_round_nearest x :
  is_finite x = true ->
  exists k : Z, B2R (Math_round x) = IZR k /\ IZR k - / 2 <= B2R x < IZR k + / 2.
Proof.
  rewrite is_finite_spec. unfold Math_round.
  destruct (Prim2SF x) as [s|s| |s m e] eqn:Hx; try discriminate; intros _.
  - exists 0%Z. unfold B2R. rewrite Hx. cbn [SF2R]. lra.
  - pose proof (Prim2SF_mantissa _ _ _ _ Hx) as Hm.
    destruct (Z.leb_spec 0 e) as [He|He].
    + assert (Hv : IZR (Zpos m) * pow2 e = IZR (Zpos m * 2 ^ e))
        by (now rewrite mult_IZR, pow2_IZR).
      unfold B2R. rewrite Hx. cbn [SF2R].
      destruct s.
      * exists (- (Zpos m * 2 ^ e))%Z. rewrite opp_IZR, <- Hv. lra.
      * exists (Zpos m * 2 ^ e)%Z. rewrite <- Hv. lra.
    + unfold frac_part, int_part. rewrite !Z.shiftr_div_pow2, !Z.shiftl_mul_pow2 by lia.
      rewrite Z.mul_1_l.
      set (P := (2 ^ (- e))%Z).
      assert (HP : (2 <= P)%Z).
      { unfold P. replace (- e)%Z with (Z.succ (- e - 1)) by lia.
        rewrite Z.pow_succ_r by lia.
        assert (0 < 2 ^ (- e - 1))%Z by (apply Z.pow_pos_nonneg; lia). lia. }
      pose proof (Z.div_mod (Zpos m) P ltac:(lia)) as Hdm.
      pose proof (Z.mod_pos_bound (Zpos m) P ltac:(lia)) as Hmod.
      set (q := (Zpos m / P)%Z) in *.
      replace (Zpos m - q * P)%Z with (Zpos m mod P)%Z by lia.
      set (r := (Zpos m mod P)%Z) in *.
      assert (Hq : (0 <= q)%Z /\ (q + 1 < 2 ^ 53)%Z).
      { split; [apply Z.div_pos; lia|].
        assert (q < 2 ^ 52)%Z; [|lia].
        apply Z.div_lt_upper_bound; [lia|].
        change (2 ^ 53)%Z with (2 * 2 ^ 52)%Z in Hm. nia. }
      assert (HPR : 0 < IZR P) by (apply IZR_lt; lia).
      assert (Hv : IZR (Zpos m) * pow2 e = IZR q + IZR r / IZR P).
      { replace e with (- (- e))%Z at 1 by lia.
        assert (HPi : pow2 (- - e) = / IZR P).
        { unfold P. rewrite <- pow2_IZR by lia.
          pose proof (pow2_pos (- e)).
          apply Rmult_eq_reg_r with (pow2 (- e)); [|lra].
          rewrite <- pow2_add, Rinv_l by lra.
          replace (- - e + - e)%Z with 0%Z by lia. reflexivity. }
        rewrite HPi, Hdm, plus_IZR, mult_IZR. field. lra. }
      set (f := IZR r / IZR P) in *.
      assert (Hf : IZR r = f * IZR P) by (unfold f; field; lra).
      assert (Hf01 : 0 <= f < 1).
      { destruct Hmod as [Hr0 Hr1]. apply IZR_le in Hr0. apply IZR_lt in Hr1.
        split.
        - apply Rmult_le_reg_r with (IZR P); [assumption|]. lra.
        - apply Rmult_lt_reg_r with (IZR P); [assumption|]. lra. }
      assert (Hx' : B2R x = if s then - (IZR q + f) else IZR q + f).
      { unfold B2R. rewrite Hx. cbn [SF2R]. rewrite <- Hv. destruct s; lra. }
      rewrite Hx'. destruct s.
      * destruct (Z.ltb_spec P (2 * r)) as [Hc|Hc].
        -- exists (- (q + 1))%Z. rewrite B2R_opp, of_Z_value by lia.
           rewrite opp_IZR, plus_IZR. split; [reflexivity|].
           apply IZR_lt in Hc. rewrite mult_IZR, Hf in Hc.
           assert (/ 2 < f) by (apply Rmult_lt_reg_r with (IZR P); [assumption|]; lra).
           lra.
        -- exists (- q)%Z. rewrite B2R_opp, of_Z_value by lia.
           rewrite opp_IZR. split; [reflexivity|].
           apply IZR_le in Hc. rewrite mult_IZR, Hf in Hc.
           assert (f <= / 2) by (apply Rmult_le_reg_r with (IZR P); [assumption|]; lra).
           lra.
      * destruct (Z.leb_spec P (2 * r)) as [Hc|Hc].
        -- exists (q + 1)%Z. rewrite of_Z_value by lia.
           rewrite plus_IZR. split; [reflexivity|].
           apply IZR_le in Hc. rewrite mult_IZR, Hf in Hc.
           assert (/ 2 <= f) by (apply Rmult_le_reg_r with (IZR P); [assumption|]; lra).
           lra.
        -- exists q. rewrite of_Z_value by lia. split; [reflexivity|].
           apply IZR_lt in Hc. rewrite mult_IZR, Hf in Hc.
           assert (f < / 2) by (apply Rmult_lt_reg_r with (IZR P); [assumption|]; lra).
           lra.
Qed.

(** [Math.round] leaves [NaN] and the infinities as they are. *)
Lemma Math_round_not_finite x : is_finite x = false -> Math_round x = x.
Proof.
  rewrite is_finite_spec. unfold Math_round.
  now destruct (Prim2SF x) as [s|s| |s m e].
Qed.

End NearestInteger.

(** ** Valid backchecks *)

(** The tolerance test of the backcheck only succeeds on finite numbers. *)
Lemma match_finite x y :
  lt (Math_abs (x - y)) 0.0001 = true -> is_finite x = true /\ is_finite y = true.
Proof.
  unfold lt, Math_abs. rewrite ltb_spec, abs_spec, sub_spec, !is_finite_spec.
  change (Prim2SF 0.0001) with (S754_finite false 7378697629483821 (-66)).
  destruct (Prim2SF x) as [sx|sx| |sx mx ex], (Prim2SF y) as [sy|sy| |sy my ey];
    try (split; reflexivity); cbn; try discriminate.
  all: destruct sx; try discriminate; destruct sy; discriminate.
Qed.

(** ** Closed forms for integer inputs *)

Section ClosedForms.
#[local] Open Scope R_scope.

(** With integer tokens and an integer number of messages, the average
    history is exactly half of [(queryTokens + outputTokens) * (N - 1)]. *)
Lemma historyAverage_exact kq ko c :
  (1 <= kq <= 2 ^ 21)%Z -> (1 <= ko <= 2 ^ 21)%Z -> (1 <= c <= 2 ^ 15)%Z ->
  let average := (historySum (of_Z kq) (of_Z ko) (Z.to_nat c) / of_Z c)%float in
  is_finite average = true /\ B2R average = IZR ((kq + ko) * (c - 1)) / 2.
Proof.
  intros Hkq Hko Hc. cbv zeta.
  assert (H15 : (2 ^ 15 = 32768)%Z) by reflexivity.
  assert (H21 : (2 ^ 21 = 2097152)%Z) by reflexivity.
  assert (H53 : (2 ^ 53 = 9007199254740992)%Z) by reflexivity.
  rewrite historySum_exact by (rewrite ?Z2Nat.id by lia; nia).
  rewrite Z2Nat.id by lia. set (h := (kq + ko)%Z).
  destruct (Z.leb_spec c 1) as [Hc1|Hc1].
  - assert (c = 1)%Z by lia. subst c. change (0 / of_Z 1)%float with 0%float.
    split; [reflexivity|]. replace (h * (1 - 1))%Z with 0%Z by lia.
    unfold B2R. cbn. lra.
  - pose proof (triangle_bounds c ltac:(lia)) as [Ht1 Ht2].
    pose proof (triangle_double c) as Ht.
    destruct (of_Z_pos_normal (h * triangle c) ltac:(unfold h; nia)) as [HnS HvS].
    destruct (of_Z_pos_normal c ltac:(lia)) as [Hnc Hvc].
    destruct (half_representable (h * (c - 1)) ltac:(unfold h; nia)) as (z & Hnz & Hvz).
    destruct (div_pos_normal _ _ _ _ _ _ HnS Hnc ltac:(lia) ltac:(lia)) as (_ & _ & Hdiv).
    rewrite (Hdiv z _ _ Hnz).
    + split; [exact (pos_normal_finite _ _ _ Hnz)|exact Hvz].
    + rewrite Hvz, HvS, Hvc.
      assert (Hc0 : 0 < IZR c) by (apply IZR_lt; lia).
      apply (f_equal IZR) in Ht. rewrite !mult_IZR, minus_IZR in Ht.
      rewrite !mult_IZR, minus_IZR.
      replace (IZR (triangle c)) with (IZR c * (IZR c - 1) / 2) by lra.
      field. lra.
Qed.

(** The integer nearest to a half-integer, the upper one of two. *)
Lemma nearest_of_half (K k : Z) :
  IZR k - / 2 <= IZR K / 2 < IZR k + / 2 -> k = ((K + 1) / 2)%Z.
Proof.
  intros [Hlo Hhi].
  assert (H1 : (2 * k - 1 <= K)%Z).
  { apply le_IZR. rewrite minus_IZR, mult_IZR. lra. }
  assert (H2 : (K < 2 * k + 1)%Z).
  { apply lt_IZR. rewrite plus_IZR, mult_IZR. lra. }
  apply Z.div_unique with (K + 1 - 2 * k)%Z; lia.
Qed.

End ClosedForms.

(** On the main path the reported average history is [Math.round] of the
    history sum over the number of messages. *)
Lemma history_average_main input :
  zeroGuard input = false -> arrayFault input = false ->
  averageHistoryTokens (calculateCosts input)
  = Math_round
      (historySum (wordsToTokens (userQueryWords input))
         (wordsToTokens (responseWords input))
         (Z.to_nat (ToLength (messagesPerConversation input)))
       / messagesPerConversation input)
  /\ tokensPerMessage (calculateCosts input)
     = totalInputTokensOf (calculateCosts input) + wordsToTokens (responseWords input).
Proof.
  intros Hg Hf. rewrite calculateCosts_main by assumption.
  unfold computeCosts, totalInputTokensOf.
  cbn [averageHistoryTokens backcheck tokensPerMessage].
  unfold messageSlots. rewrite totalHistoryTokens_sum
    by (pose proof (arrayFault_length input Hf) as Hl;
        assert (2 ^ 27 - 1 <= 2 ^ 53)%Z by (apply Z.leb_le; reflexivity); lia).
  split; reflexivity.
Qed.

(** ** The converters on integer counts *)

Section ConverterBounds.
#[local] Open Scope R_scope.

(** The tokens of an integer word count: an integer within one of the
    product with the ratio, up to the rounding of that product. *)
Lemma wordsToTokens_value n :
  (1 <= n <= 2 ^ 51)%Z ->
  exists k : Z,
    pos_normal (wordsToTokens (of_Z n)) (-53) 3
    /\ B2R (wordsToTokens (of_Z n)) = IZR k
    /\ IZR n * (5989787504402760 / 4503599627370496) * (1 - / 9007199254740992) <= IZR k
    /\ IZR k < IZR n * (5989787504402760 / 4503599627370496) * (1 + / 9007199254740992) + 1.
Proof.
  intros Hn.
  destruct (of_Z_pos_normal n ltac:(change (2 ^ 53)%Z with (4 * 2 ^ 51)%Z; lia)) as [Hw Hwv].
  destruct ratio_pos_normal as [Hc Hcv].
  unfold wordsToTokens. rewrite (pos_normal_not_le_0 _ _ _ Hw).
  destruct (mul_pos_normal _ _ _ _ _ _ Hw Hc ltac:(lia) ltac:(lia)) as (Hp & Ep & _).
  destruct (Math_ceil_pos_normal _ _ _ Hp) as (k & Hk & Hkv & Hkb & Hkn).
  cbn [Z.min Z.max Z.add] in Hkn.
  rewrite Hwv, Hcv, ulp_half_val in Ep. apply Rabs_le_bounds in Ep.
  assert (HnR : 1 <= IZR n) by (apply IZR_le; lia).
  exists k. split; [eapply pos_normal_weaken; [exact Hkn|lia..]|].
  split; [exact Hkv|]. split; lra.
Qed.

(** The words of an integer token count, likewise. *)
Lemma tokensToWords_value n :
  (1 <= n <= 2 ^ 52)%Z ->
  exists k : Z,
    pos_normal (tokensToWords (of_Z n)) (-106) 3
    /\ B2R (tokensToWords (of_Z n)) = IZR k
    /\ IZR n / (5989787504402760 / 4503599627370496) * (1 - / 9007199254740992) <= IZR k
    /\ IZR k < IZR n / (5989787504402760 / 4503599627370496) * (1 + / 9007199254740992) + 1.
Proof.
  intros Hn.
  destruct (of_Z_pos_normal n ltac:(change (2 ^ 53)%Z with (2 * 2 ^ 52)%Z; lia)) as [Hw Hwv].
  destruct ratio_pos_normal as [Hc Hcv].
  unfold tokensToWords. rewrite (pos_normal_not_le_0 _ _ _ Hw).
  destruct (div_pos_normal _ _ _ _ _ _ Hw Hc ltac:(lia) ltac:(lia)) as (Hp & Ep & _).
  destruct (Math_ceil_pos_normal _ _ _ Hp) as (k & Hk & Hkv & Hkb & Hkn).
  cbn [Z.min Z.max Z.add Z.sub Z.opp Z.pos_sub] in Hkn.
  rewrite Hwv, Hcv, ulp_half_val in Ep. apply Rabs_le_bounds in Ep.
  assert (HnR : 1 <= IZR n) by (apply IZR_le; lia).
  assert (0 < IZR n / (5989787504402760 / 4503599627370496)).
  { apply Rdiv_lt_0_compat; lra. }
  exists k. split; [eapply pos_normal_weaken; [exact Hkn|lia..]|].
  split; [exact Hkv|]. split; lra.
Qed.

End ConverterBounds.

(** ** Random integers: [Math.floor (Math.random () * n) + k] *)

Section RandomIntegers.
#[local] Open Scope R_scope.

(** A normal number below 1 is at most [1 - 2^-53]. *)
Lemma pos_normal_below_1 r lo :
  pos_normal r lo (-53) -> B2R r <= 1 - / 9007199254740992.
Proof.
  intros (m & e & Hx & Hd & He). unfold B2R. rewrite Hx. cbn [SF2R].
  pose proof (digits2_pos_bounds m) as [_ Hhi]. rewrite Hd in Hhi.
  assert (Hm : IZR (Zpos m) <= 9007199254740991).
  { apply IZR_le. change (2 ^ 53)%Z with 9007199254740992%Z in Hhi. lia. }
  assert (He' : pow2 e <= / 9007199254740992).
  { rewrite <- ulp_half_val. unfold ulp_half. apply pow2_le. lia. }
  pose proof (pow2_pos e). pose proof (IZR_pos_gt_0 m).
  apply Rle_trans with (9007199254740991 * / 9007199254740992); [|lra].
  apply Rmult_le_compat; lra.
Qed.

(** [Math.floor] of a positive normal number below [2^52]. *)
Lemma Math_floor_pos_normal x lo hi :
  pos_normal x lo hi -> (hi < 0)%Z ->
  exists q : Z,
    (0 <= q < 2 ^ 52)%Z /\ Math_floor x = of_Z q /\ IZR q <= B2R x < IZR q + 1.
Proof.
  intros (m & e & Hx & Hd & He) Hhi. unfold Math_floor. rewrite Hx.
  pose proof (digits2_pos_bounds m) as [Hmlo Hmhi]. rewrite Hd in Hmlo, Hmhi.
  destruct (Z.leb_spec 0 e) as [He0|He0]; [lia|].
  unfold int_part. rewrite Z.shiftr_div_pow2 by lia.
  set (P := (2 ^ (- e))%Z).
  assert (HP : (2 <= P)%Z).
  { unfold P. replace (- e)%Z with (Z.succ (- e - 1)) by lia.
    rewrite Z.pow_succ_r by lia.
    assert (0 < 2 ^ (- e - 1))%Z by (apply Z.pow_pos_nonneg; lia). lia. }
  pose proof (Z.div_mod (Zpos m) P ltac:(lia)) as Hdm.
  pose proof (Z.mod_pos_bound (Zpos m) P ltac:(lia)) as Hmod.
  set (q := (Zpos m / P)%Z) in *. set (r := (Zpos m mod P)%Z) in *.
  assert (Hq : (0 <= q < 2 ^ 52)%Z).
  { split; [apply Z.div_pos; lia|].
    apply Z.div_lt_upper_bound; [lia|].
    change (2 ^ 53)%Z with (2 * 2 ^ 52)%Z in Hmhi. nia. }
  assert (HPR : 0 < IZR P) by (apply IZR_lt; lia).
  exists q. split; [exact Hq|]. split; [reflexivity|].
  assert (Hv : B2R x = IZR q + IZR r / IZR P).
  { unfold B2R. rewrite Hx. cbn [SF2R].
    replace e with (- (- e))%Z at 1 by lia.
    assert (HPi : pow2 (- - e) = / IZR P).
    { unfold P. rewrite <- pow2_IZR by lia.
      pose proof (pow2_pos (- e)).
      apply Rmult_eq_reg_r with (pow2 (- e)); [|lra].
      rewrite <- pow2_add, Rinv_l by lra.
      replace (- - e + - e)%Z with 0%Z by lia. reflexivity. }
    rewrite HPi, Hdm, plus_IZR, mult_IZR. field. lra. }
  set (f := IZR r / IZR P) in *.
  assert (Hf : IZR r = f * IZR P) by (unfold f; field; lra).
  destruct Hmod as [Hr0 Hr1]. apply IZR_le in Hr0. apply IZR_lt in Hr1.
  assert (0 <= f) by (apply Rmult_le_reg_r with (IZR P); [assumption|]; lra).
  assert (f < 1) by (apply Rmult_lt_reg_r with (IZR P); [assumption|]; lra).
  rewrite Hv. lra.
Qed.

Lemma mul_0_l x lo hi : pos_normal x lo hi -> (0 * x)%float = 0%float.
Proof.
  intros (m & e & Hx & _). apply Prim2SF_inj. rewrite mul_spec, Hx.
  change (Prim2SF 0) with (S754_zero false). reflexivity.
Qed.

(** A positive integer up to [2^20] as a number. *)
Lemma small_integer_pos_normal k :
  (1 <= k <= 2 ^ 20)%Z -> pos_normal (of_Z k) (-52) (-32) /\ B2R (of_Z k) = IZR k.
Proof.
  intros Hk. assert (H20 : (2 ^ 20 = 1048576)%Z) by reflexivity.
  assert (H53 : (2 ^ 53 = 9007199254740992)%Z) by reflexivity.
  destruct (of_Z_pos_normal k ltac:(lia)) as [Hn Hv]. split; [|exact Hv].
  destruct (of_Z_pos_normal 1 ltac:(lia)) as [Hn1 Hv1].
  destruct (of_Z_pos_normal 1048576 ltac:(lia)) as [Hn20 Hv20].
  assert (H1 : pos_normal 1 (-52) (-52))
    by (exists 4503599627370496%positive, (-52)%Z; repeat split; lia).
  assert (H20' : pos_normal 1048576 (-32) (-32))
    by (exists 4503599627370496%positive, (-32)%Z; repeat split; lia).
  apply (pos_normal_between _ 1%float 1048576%float (-52) (-52) (-32) (-32));
    try assumption; try lia.
  - apply (le_pos_normal _ _ _ _ _ _ Hn1 Hn). rewrite Hv1, Hv. apply IZR_le. lia.
  - apply (le_pos_normal _ _ _ _ _ _ Hn Hn20). rewrite Hv, Hv20. apply IZR_le. lia.
Qed.

(** [Math.floor(Math.random() * k)] is an integer from 0 to [k - 1]. *)
Lemma random_floor r k :
  unitInterval r -> (1 <= k <= 2 ^ 20)%Z ->
  exists q : Z, (0 <= q <= k - 1)%Z /\ Math_floor (r * of_Z k) = of_Z q.
Proof.
  intros Hr Hk. assert (H20 : (2 ^ 20 = 1048576)%Z) by reflexivity.
  destruct (small_integer_pos_normal k Hk) as [Hnk Hvk].
  destruct Hr as [->|Hr].
  - exists 0%Z. split; [lia|]. now rewrite (mul_0_l _ _ _ Hnk).
  - destruct (mul_pos_normal _ _ _ _ _ _ Hr Hnk ltac:(lia) ltac:(lia)) as (Hp & Ep & _).
    cbn [Z.add Z.pos_sub Z.opp Z.succ_double Z.pred_double Z.double Pos.pred_double] in Hp.
    destruct (Math_floor_pos_normal _ _ _ Hp ltac:(lia)) as (q & Hq & -> & Hqv).
    pose proof (pos_normal_below_1 _ _ Hr) as Hr1.
    pose proof (pos_normal_B2R _ _ _ Hr) as [Hr0 _].
    rewrite Hvk, ulp_half_val in Ep. apply Rabs_le_bounds in Ep.
    assert (HkR : 1 <= IZR k) by (apply IZR_le; lia).
    assert (Hlt : IZR q < IZR k).
    { apply Rle_lt_trans with (1 := proj1 Hqv).
      apply Rle_lt_trans with (B2R r * IZR k * (1 + / 9007199254740992)); [lra|].
      apply Rle_lt_trans with
        ((1 - / 9007199254740992) * IZR k * (1 + / 9007199254740992)).
      - apply Rmult_le_compat_r; [lra|]. apply Rmult_le_compat_r; lra.
      - assert (0 < IZR k) by lra. nra. }
    apply lt_IZR in Hlt. exists q. split; [lia|reflexivity].
Qed.

(** [Math.floor(Math.random() * k) + c] is an integer from [c] to
    [c + k - 1]. *)
Lemma random_integer r k c :
  unitInterval r -> (1 <= k <= 2 ^ 20)%Z -> (1 <= c <= 2 ^ 20)%Z ->
  exists j : Z,
    (c <= j <= c + k - 1)%Z /\ (Math_floor (r * of_Z k) + of_Z c)%float = of_Z j.
Proof.
  intros Hr Hk Hc. assert (H20 : (2 ^ 20 = 1048576)%Z) by reflexivity.
  assert (H53 : (2 ^ 53 = 9007199254740992)%Z) by reflexivity.
  destruct (small_integer_pos_normal c Hc) as [Hnc Hvc].
  destruct (random_floor r k Hr Hk) as (q & Hq & ->).
  exists (q + c)%Z. split; [lia|].
  destruct (Z.eq_dec q 0%Z) as [->|Hq0].
  - change (of_Z 0) with 0%float. rewrite Z.add_0_l. exact (add_0_l _ _ _ Hnc).
  - apply of_Z_add; lia.
Qed.

End RandomIntegers.

(** The six settings the Randomize button draws are integers. *)
Lemma randomizeSettings_integers (random : nat -> number) (settings : CalculationInput) :
  (forall i, (i < 6)%nat -> unitInterval (random i)) ->
  let s := randomizeSettings random settings in
  exists b c w q o kc : Z,
       (conversationsPerUser s = of_Z b /\ (1 <= b <= 5)%Z)
       /\ (messagesPerConversation s = of_Z c /\ (3 <= c <= 9)%Z)
       /\ (wordsPerChunk s = of_Z w /\ (100 <= w <= 399)%Z)
       /\ (userQueryWords s = of_Z q /\ (8 <= q <= 39)%Z)
       /\ (responseWords s = of_Z o /\ (30 <= o <= 119)%Z)
       /\ (chunksPerQuery s = of_Z kc /\ (1 <= kc <= 3)%Z).
Proof.
  intros Hr. cbv zeta.
  assert (H20 : (2 ^ 20 = 1048576)%Z) by reflexivity.
  destruct (random_integer _ 5 1 (Hr 0%nat ltac:(lia)) ltac:(lia) ltac:(lia)) as (b & Hb & Eb).
  destruct (random_integer _ 7 3 (Hr 1%nat ltac:(lia)) ltac:(lia) ltac:(lia)) as (c & Hc & Ec).
  destruct (random_integer _ 300 100 (Hr 2%nat ltac:(lia)) ltac:(lia) ltac:(lia))
    as (w & Hw & Ew).
  destruct (random_integer _ 32 8 (Hr 3%nat ltac:(lia)) ltac:(lia) ltac:(lia)) as (q & Hq & Eq).
  destruct (random_integer _ 90 30 (Hr 4%nat ltac:(lia)) ltac:(lia) ltac:(lia)) as (o & Ho & Eo).
  destruct (random_integer _ 3 1 (Hr 5%nat ltac:(lia)) ltac:(lia) ltac:(lia)) as (kc & Hkc & Ekc).
  exists b, c, w, q, o, kc.
  cbn [randomizeSettings conversationsPerUser messagesPerConversation wordsPerChunk
       userQueryWords responseWords chunksPerQuery].
  repeat split; try assumption; lia.
Qed.

(** ** An upper bound of the daily cost *)

Section CostBound.
#[local] Open Scope R_scope.

(** The tokens of an integer word count up to [2^20]: an integer between
    the count and its double. *)
Lemma wordsToTokens_of_Z n :
  (1 <= n <= 2 ^ 20)%Z ->
  exists k : Z, (n <= k <= 2 * n)%Z /\ wordsToTokens (of_Z n) = of_Z k.
Proof.
  intros Hn. assert (H20 : (2 ^ 20 = 1048576)%Z) by reflexivity.
  assert (H51 : (2 ^ 51 = 2251799813685248)%Z) by reflexivity.
  assert (H53 : (2 ^ 53 = 9007199254740992)%Z) by reflexivity.
  destruct (wordsToTokens_value n ltac:(lia)) as (k & Hkn & Hkv & Hk1 & Hk2).
  assert (HnR : 1 <= IZR n) by (apply IZR_le; lia).
  assert (Hlo : (n <= k)%Z) by (apply le_IZR; lra).
  assert (Hhi : (k < 2 * n + 1)%Z).
  { apply lt_IZR. rewrite plus_IZR, mult_IZR. lra. }
  exists k. split; [lia|].
  destruct (of_Z_pos_normal k ltac:(lia)) as [Hnk Hvk].
  apply (pos_normal_inj _ _ _ _ _ _ Hkn Hnk). now rewrite Hkv, Hvk.
Qed.

Lemma wordsInRange_of_Z n : (1 <= n <= 2 ^ 20)%Z -> wordsInRange (of_Z n).
Proof.
  intros Hn. assert (H20 : (2 ^ 20 = 1048576)%Z) by reflexivity.
  assert (H53 : (2 ^ 53 = 9007199254740992)%Z) by reflexivity.
  destruct (of_Z_pos_normal n ltac:(lia)) as [Hw Hv].
  destruct (of_Z_pos_normal 1 ltac:(lia)) as [Hn1 Hv1].
  destruct (of_Z_pos_normal 1048576 ltac:(lia)) as [Hn20 Hv20].
  split.
  - apply (le_pos_normal _ _ _ _ _ _ Hn1 Hw). rewrite Hv1, Hv. apply IZR_le. lia.
  - apply (le_pos_normal _ _ _ _ _ _ Hw Hn20). rewrite Hv, Hv20. apply IZR_le. lia.
Qed.

(** The prices of the one model of the table, from above. *)
Lemma gpt4o_price_bounds m :
  OPENAI_MODELS !! "gpt-4o"%string = Some m ->
  B2R (inputPrice m) <= 3 / 1000 /\ B2R (outputPrice m) <= 11 / 1000.
Proof.
  intros H. assert (Hm : m = {| name := "GPT-40";
          description := "Latest model with vision capabilities, 128K context (Oct 2023)";
          inputPrice := 0.0025;
          outputPrice := 0.01 |}) by (vm_compute in H; congruence).
  subst m. cbn [inputPrice outputPrice]. unfold B2R.
  change (Prim2SF 0.0025) with (S754_finite false 5764607523034235 (-61)).
  change (Prim2SF 0.01) with (S754_finite false 5764607523034235 (-59)).
  cbn [SF2R].
  change (pow2 (-61)) with (pow2 (- (61))). change (pow2 (-59)) with (pow2 (- (59))).
  rewrite (pow2_neg 61), (pow2_neg 59) by lia.
  change (2 ^ 61)%Z with 2305843009213693952%Z.
  change (2 ^ 59)%Z with 576460752303423488%Z. split; lra.
Qed.

(** A daily cost whose exact value is at most [5 * 10^9] is computed as at
    most [10^10]. *)
Lemma dailyCostOf_le T O ip op K :
  pos_normal T (-53) 8 -> pos_normal O (-53) 8 ->
  pos_normal ip (-70) (-40) -> pos_normal op (-70) (-40) ->
  (0 < K < 2 ^ 53)%Z ->
  exactCost T O ip op K <= 5000000000 ->
  le (dailyCostOf T O (of_Z K) ip op) 10000000000 = true.
Proof.
  intros HT HO Hip Hop HK Hx.
  destruct (dailyCostOf_approx T O ip op K HT HO Hip Hop HK) as (Hnd & _ & Hhi).
  destruct (of_Z_pos_normal 10000000000 ltac:(lia)) as [Hn10 Hv10].
  change (of_Z 10000000000) with 10000000000%float in Hn10, Hv10.
  apply (le_pos_normal _ _ _ _ _ _ Hnd Hn10). rewrite Hv10.
  apply Rle_trans with (1 := Hhi).
  assert (H4 : (1 + ulp_half) ^ 4 <= 2) by (rewrite ulp_half_val; cbn [pow]; lra).
  assert (0 <= exactCost T O ip op K).
  { unfold exactCost.
    pose proof (pos_normal_B2R _ _ _ HT) as [HTpos _].
    pose proof (pos_normal_B2R _ _ _ HO) as [HOpos _].
    pose proof (pos_normal_B2R _ _ _ Hip) as [Hippos _].
    pose proof (pos_normal_B2R _ _ _ Hop) as [Hoppos _].
    apply Rmult_le_pos; [apply IZR_le; lia|].
    apply Rplus_le_le_0_compat; apply Rmult_le_pos; lra. }
  apply Rle_trans with (5000000000 * 2); [|lra].
  apply Rmult_le_compat; try lra.
  rewrite ulp_half_val. cbn [pow]. lra.
Qed.

End CostBound.

Lemma le_zero x y lo hi : is_zero x = true -> pos_normal y lo hi -> le x y = true.
Proof.
  rewrite is_zero_spec. intros Hx (m & e & Hy & _). unfold le. rewrite leb_spec, Hy.
  destruct (Prim2SF x) as [s|s| |s mx ex]; try discriminate. now destruct s.
Qed.

(** The settings of the Randomize button are priced below [10^10] a day
    for up to [10^9] daily users. *)
Lemma randomized_cost_bounded (random : nat -> number) (settings : CalculationInput)
    (a : Z) :
  (forall i, (i < 6)%nat -> unitInterval (random i)) ->
  dailyUsers settings = of_Z a -> (1 <= a <= 1000000000)%Z ->
  let s := randomizeSettings random settings in
  exists b c kc : Z,
    countsAre s a b c /\ realisticContent s kc
    /\ (1 <= b <= 5)%Z /\ (3 <= c <= 9)%Z
    /\ le (dailyCost (calculateCosts s)) 10000000000 = true.
Proof.
  intros Hr Ha Hab. cbv zeta.
  destruct (randomizeSettings_integers random settings Hr)
    as (b & c & w & q & o & kc & [Eb Hb] & [Ec Hc] & [Ew Hw] & [Eq Hq] & [Eo Ho] & [Ekc Hkc]).
  set (s := randomizeSettings random settings) in *.
  assert (H20 : (2 ^ 20 = 1048576)%Z) by reflexivity.
  assert (H21 : (2 ^ 21 = 2097152)%Z) by reflexivity.
  assert (H15 : (2 ^ 15 = 32768)%Z) by reflexivity.
  assert (H27 : (2 ^ 27 - 1 = 134217727)%Z) by reflexivity.
  assert (H53 : (2 ^ 53 = 9007199254740992)%Z) by reflexivity.
  assert (Hcnt : countsAre s a b c) by (repeat split; assumption).
  assert (Hreal : realisticContent s kc).
  { split; [exact Ekc|]. split; [lia|].
    rewrite Ew, Eq, Eo. repeat split; apply wordsInRange_of_Z; lia. }
  exists b, c, kc. split; [exact Hcnt|]. split; [exact Hreal|].
  split; [lia|]. split; [lia|].
  assert (Hab1 : (1 <= a * b <= 5000000000)%Z) by nia.
  assert (HK1 : (1 <= a * b * c <= 45000000000)%Z) by nia.
  destruct (integer_counts_main s a b c Hcnt) as (Hg & Hf & HM); try lia.
  destruct (wordsToTokens_of_Z w ltac:(lia)) as (kch & Hkch & Ech).
  destruct (wordsToTokens_of_Z q ltac:(lia)) as (kq & Hkq & Ekq).
  destruct (wordsToTokens_of_Z o ltac:(lia)) as (ko & Hko & Eko).
  rewrite <- Ew in Ech. rewrite <- Eq in Ekq. rewrite <- Eo in Eko.
  destruct (totalInputTokens_exact s kc kch kq ko c) as (HnT' & HvT & HO);
    try assumption; try lia.
  destruct (of_Z_pos_normal ko ltac:(lia)) as [HnO' HvO].
  assert (HnT : pos_normal (totalInputTokensOf (calculateCosts s)) (-53) 8)
    by (eapply pos_normal_weaken; [exact HnT'|lia..]).
  assert (HnO : pos_normal (of_Z ko) (-53) 8)
    by (eapply pos_normal_weaken; [exact HnO'|lia..]).
  destruct (of_Z_pos_normal (a * b * c) ltac:(lia)) as [HnM _].
  destruct (dailyCost_main s Hg Hf) as [Hcost _]. rewrite Hcost, HM, HO.
  destruct (of_Z_pos_normal 10000000000 ltac:(lia)) as [Hn10 _].
  change (of_Z 10000000000) with 10000000000 in Hn10.
  destruct (OPENAI_MODELS !! selectedModel s) as [m|] eqn:Hm;
    cbn [inputPrice_or_0 outputPrice_or_0].
  - pose proof (priced_model_is_gpt4o _ _ Hm) as Hid. rewrite Hid in Hm.
    destruct (gpt4o_prices m Hm) as [Hip Hop].
    destruct (gpt4o_price_bounds m Hm) as [Vip Vop].
    pose proof (pos_normal_B2R _ _ _ Hip) as [Hip0 _].
    pose proof (pos_normal_B2R _ _ _ Hop) as [Hop0 _].
    pose proof (pos_normal_B2R _ _ _ HnT) as [HT0 _].
    apply dailyCostOf_le; try assumption; [lia|].
    unfold exactCost. rewrite HvT, HvO.
    assert (HK : (0 <= IZR (a * b * c) <= 45000000000)%R)
      by (split; apply IZR_le; lia).
    assert (HB : (IZR (kc * kch + kq) <= 2472)%R) by (apply IZR_le; nia).
    assert (HH : (IZR ((kq + ko) * (c - 1)) <= 2528)%R) by (apply IZR_le; nia).
    assert (HO' : (1 <= IZR ko <= 238)%R) by (split; apply IZR_le; lia).
    rewrite HvT in HT0.
    set (T := (IZR (kc * kch + kq) + IZR ((kq + ko) * (c - 1)) / 2)%R) in *.
    assert (HX : (0 <= T / 1000 * B2R (inputPrice m)
                      + IZR ko / 1000 * B2R (outputPrice m) <= 1 / 10)%R).
    { assert (T <= 3736)%R by (unfold T; lra).
      assert (T / 1000 * B2R (inputPrice m) <= 3736 / 1000 * (3 / 1000))%R
        by (apply Rmult_le_compat; lra).
      assert (IZR ko / 1000 * B2R (outputPrice m) <= 238 / 1000 * (11 / 1000))%R
        by (apply Rmult_le_compat; lra).
      assert (0 <= T / 1000 * B2R (inputPrice m))%R by (apply Rmult_le_pos; lra).
      assert (0 <= IZR ko / 1000 * B2R (outputPrice m))%R by (apply Rmult_le_pos; lra).
      lra. }
    apply Rle_trans with (45000000000 * (1 / 10))%R; [|lra].
    apply Rmult_le_compat; lra.
  - destruct thousand_pos_normal as [H1000 _].
    destruct (mul_pos_normal _ _ _ _ _ _ HnT HnM ltac:(lia) ltac:(lia)) as (Ha1 & _).
    destruct (div_pos_normal _ _ _ _ _ _ Ha1 H1000 ltac:(lia) ltac:(lia)) as (Ha2 & _).
    destruct (mul_pos_normal _ _ _ _ _ _ HnO HnM ltac:(lia) ltac:(lia)) as (Hb1 & _).
    destruct (div_pos_normal _ _ _ _ _ _ Hb1 H1000 ltac:(lia) ltac:(lia)) as (Hb2 & _).
    destruct (zero_price_costs _ _ _ 0 (pos_normal_finite _ _ _ Ha2)
                (pos_normal_finite _ _ _ Hb2)) as (Hd & _).
    exact (le_zero _ _ _ _ Hd Hn10).
Qed.

Import ListNotations.
#[local] Set Warnings "-inexact-float".
#[local] Open Scope float_scope.

(** ** The loop counter of [conversation.ts] *)

Section LoopCounter.
#[local] Open Scope Z_scope.

(** Indexing an array with an integer below [2^52]. *)
Lemma Array_get_of_Z {A} (arr : list A) j :
  0 <= j < 2 ^ 52 -> Array_get arr (of_Z j) = nth_error arr (Z.to_nat j).
Proof.
  intros Hj. unfold Array_get. destruct j as [|p|p]; [reflexivity| |lia].
  assert (H52 : 2 ^ 52 < 2 ^ 53) by reflexivity.
  destruct (Prim2SF_of_Z_pos p ltac:(lia)) as (m & e & -> & Hm & He & Hd).
  pose proof (digits2_pos_bounds m) as [Hlo _]. rewrite Hd in Hlo.
  change (2 ^ (53 - 1)) with (2 ^ 52) in Hlo.
  assert (0 < 2 ^ (- e)) by (apply Z.pow_pos_nonneg; lia).
  destruct (Z.leb_spec 0 e) as [He0|He0].
  - assert (e = 0) by lia. subst e. change (2 ^ (- 0)) with 1 in Hm. lia.
  - unfold frac_part, int_part.
    rewrite Z.shiftr_div_pow2, Z.shiftl_mul_pow2 by lia.
    rewrite Hm, Z.div_mul by lia. rewrite Z.sub_diag. reflexivity.
Qed.

(** The loop counter after [j] rounds is [j], and counts on. *)
Lemma counter_step j : 0 <= j < 2 ^ 53 - 1 -> (of_Z j + 1)%float = of_Z (j + 1).
Proof.
  intros Hj. destruct (Z.eq_dec j 0) as [->|Hj0]; [reflexivity|].
  change 1%float with (of_Z 1). apply of_Z_add; lia.
Qed.

Lemma counter_lt j n : 0 <= j < n -> n < 2 ^ 53 -> lt (of_Z j) (of_Z n) = true.
Proof.
  intros Hj Hn. destruct (Z.eq_dec j 0) as [->|Hj0].
  - destruct (of_Z_pos_normal n ltac:(lia)) as [Hp _].
    exact (pos_normal_gt_0 _ _ _ Hp).
  - apply of_Z_lt; lia.
Qed.

Lemma counter_end n : 0 <= n < 2 ^ 53 -> lt (of_Z n) (of_Z n) = false.
Proof.
  intros Hn. destruct (Z.eq_dec n 0) as [->|Hn0]; [reflexivity|].
  destruct (of_Z_pos_normal n ltac:(lia)) as [(m & e & Hx & _) _].
  unfold lt. rewrite ltb_spec, Hx. unfold SFltb.
  now rewrite SFcompare_refl_finite.
Qed.

End LoopCounter.

(** Every draw picks a word of the vocabulary. *)
Lemma random_word r :
  unitInterval r ->
  exists w,
    In w loremWords
    /\ Array_get loremWords (Math_floor (r * of_nat (length loremWords))) = Some w.
Proof.
  intros Hr. change (of_nat (length loremWords)) with (of_Z 26).
  destruct (random_floor r 26 Hr ltac:(lia)) as (q & Hq & ->).
  rewrite Array_get_of_Z by lia.
  destruct (nth_error loremWords (Z.to_nat q)) as [w|] eqn:Hw.
  - exists w. split; [|reflexivity]. eapply nth_error_In; eassumption.
  - apply nth_error_None in Hw. change (length loremWords) with 26%nat in Hw. lia.
Qed.

(** The loop, from round [j] of [n] on, appends [n - j] words of the
    vocabulary and calls [Math.random] once for each. *)
Lemma generateRandomText_loop_words random n :
  (forall i, unitInterval (random i)) -> (0 <= n < 2 ^ 53 - 1)%Z ->
  forall (k : nat) (j : Z) (fuel calls : nat) (result : list (option string)),
    (0 <= j)%Z -> (j + Z.of_nat k = n)%Z -> (k < fuel)%nat ->
    exists ws : list string,
      generateRandomText_loop fuel (of_Z n) (of_Z j) random calls result
      = Some (result ++ map Some ws, (calls + k)%nat)
      /\ length ws = k /\ Forall (fun w => In w loremWords) ws.
Proof.
  intros Hr Hn. induction k as [|k IH]; intros j fuel calls result Hj Hjn Hf.
  - destruct fuel as [|fuel]; [lia|]. cbn [generateRandomText_loop].
    assert (j = n) by lia. subst j. rewrite counter_end by lia.
    exists []. rewrite app_nil_r, Nat.add_0_r. repeat split. constructor.
  - destruct fuel as [|fuel]; [lia|]. cbn [generateRandomText_loop].
    rewrite counter_lt by lia. rewrite counter_step by lia.
    destruct (random_word (random calls) (Hr calls)) as (w & Hw & ->).
    destruct (IH (j + 1)%Z fuel (S calls) (result ++ [Some w])) as (ws & -> & Hl & Hall);
      try lia.
    exists (w :: ws). rewrite <- app_assoc. cbn [map app length].
    split; [f_equal; f_equal; lia|]. split; [lia|]. now constructor.
Qed.

Lemma split_word w : no_space w = true -> String_split_space w = [w].
Proof.
  induction w as [|c w IH]; [reflexivity|]. cbn [no_space String_split_space].
  intros [Hc Hw]%andb_prop. apply negb_true_iff in Hc. rewrite Hc, (IH Hw). reflexivity.
Qed.

Lemma split_word_app w text :
  no_space w = true ->
  String_split_space (w ++ " " ++ text) = w :: String_split_space text.
Proof.
  induction w as [|c w IH]; [reflexivity|]. cbn [no_space].
  intros [Hc Hw]%andb_prop. apply negb_true_iff in Hc.
  change ((String c w ++ " " ++ text)%string) with (String c (w ++ " " ++ text)%string).
  cbn [String_split_space]. rewrite Hc, (IH Hw). reflexivity.
Qed.

(** Splitting what was joined gives the words back. *)
Lemma split_join ws :
  ws <> [] -> Forall (fun w => no_space w = true) ws ->
  String_split_space (Array_join " " (map Some ws)) = ws.
Proof.
  induction ws as [|w ws IH]; [congruence|]. intros _ Hall.
  inversion Hall as [|? ? Hw Hws]; subst.
  destruct ws as [|w' ws]; [now apply split_word|].
  change (Array_join " " (map Some (w :: w' :: ws)))
    with ((w ++ " " ++ Array_join " " (map Some (w' :: ws)))%string).
  rewrite split_word_app by assumption. f_equal. apply IH; [discriminate|assumption].
Qed.

Lemma loremWords_no_space w : In w loremWords -> no_space w = true.
Proof.
  intros H. unfold loremWords in H. cbn [In] in H.
  repeat (destruct H as [<-|H]; [reflexivity|]). contradiction.
Qed.

(** A text of [n] words, after [n] calls of [Math.random]. *)
Lemma generateRandomText_text random n fuel calls :
  (forall i, unitInterval (random i)) -> (0 <= n <= 2 ^ 20)%Z ->
  (Z.to_nat n < fuel)%nat ->
  exists ws : list string,
    generateRandomText fuel (of_Z n) random calls
    = Some (Array_join " " (map Some ws), (calls + Z.to_nat n)%nat)
    /\ length ws = Z.to_nat n
    /\ Forall (fun w => In w loremWords) ws.
Proof.
  intros Hr Hn Hf. assert (H20 : (2 ^ 20 < 2 ^ 53 - 1)%Z) by reflexivity.
  destruct (generateRandomText_loop_words random n Hr ltac:(lia) (Z.to_nat n) 0 fuel calls [])
    as (ws & Hloop & Hl & Hall); try lia.
  exists ws. unfold generateRandomText. change 0 with (of_Z 0).
  rewrite Hloop. cbn [app]. auto.
Qed.

(** ** A counter that stops growing *)

Section EndlessLoop.
#[local] Open Scope Z_scope.




End EndlessLoop.

Import ListNotations.
#[local] Set Warnings "-inexact-float".
#[local] Open Scope float_scope.

Lemma generateRandomText_textOf random n fuel calls :
  (forall i, unitInterval (random i)) -> (0 <= n <= 2 ^ 20)%Z ->
  (Z.to_nat n < fuel)%nat ->
  exists text,
    generateRandomText fuel (of_Z n) random calls = Some (text, (calls + Z.to_nat n)%nat)
    /\ textOf (Z.to_nat n) text.
Proof.
  intros Hr Hn Hf.
  destruct (generateRandomText_text random n fuel calls Hr Hn Hf) as (ws & Ht & Hl & Hall).
  eexists. split; [exact Ht|]. exists ws. auto.
Qed.

Lemma generateChunks_texts random wc fuel :
  (forall i, unitInterval (random i)) -> (0 <= wc <= 2 ^ 20)%Z ->
  (Z.to_nat wc < fuel)%nat ->
  forall (slots : list unit) (calls : nat),
    exists texts,
      generateChunks fuel slots (of_Z wc) random calls
      = Some (texts, (calls + length slots * Z.to_nat wc)%nat)
      /\ length texts = length slots
      /\ Forall (textOf (Z.to_nat wc)) texts.
Proof.
  intros Hr Hwc Hf. induction slots as [|u slots IH]; intros calls.
  - exists []. cbn. rewrite Nat.add_0_r. repeat split. constructor.
  - cbn [generateChunks].
    destruct (generateRandomText_textOf random wc fuel calls Hr Hwc Hf) as (t & -> & Ht).
    destruct (IH (calls + Z.to_nat wc)%nat) as (ts & -> & Hl & Hall).
    exists (t :: ts). cbn [length]. split; [f_equal; f_equal; lia|].
    split; [lia|]. now constructor.
Qed.

Lemma Array_from_length_of_Z k :
  (0 <= k <= 2 ^ 20)%Z -> Array_from_length (of_Z k) = Normal (repeat tt (Z.to_nat k)).
Proof.
  intros Hk. assert (H20 : (2 ^ 20 = 1048576)%Z) by reflexivity.
  assert (H53 : (2 ^ 53 = 9007199254740992)%Z) by reflexivity.
  destruct (Z.eq_dec k 0%Z) as [->|Hk0]; [reflexivity|].
  unfold Array_from_length. rewrite ToLength_of_Z by lia.
  replace (max_array_length <? k)%Z with false; [reflexivity|].
  symmetry. apply Z.ltb_ge. unfold max_array_length.
  change (2 ^ 27 - 1)%Z with 134217727%Z. lia.
Qed.

(** The loop of [generateConversation], with [k] messages to go. *)
Lemma generateConversation_loop_messages random n uq kc wc rw :
  (forall i, unitInterval (random i)) ->
  (0 <= n <= 2 ^ 20)%Z -> (0 <= uq <= 2 ^ 20)%Z -> (0 <= kc <= 2 ^ 20)%Z ->
  (0 <= wc <= 2 ^ 20)%Z -> (0 <= rw <= 2 ^ 20)%Z ->
  let per := (Z.to_nat uq + Z.to_nat kc * Z.to_nat wc + Z.to_nat rw)%nat in
  forall (k : nat) (j : Z) (fuel calls : nat) (conversation : list Conversation),
    (0 <= j)%Z -> (j + Z.of_nat k = n)%Z ->
    (k + Z.to_nat (Z.max uq (Z.max wc rw)) < fuel)%nat ->
    exists messages,
      generateConversation_loop fuel (of_Z n) (of_Z uq) (of_Z kc) (of_Z wc) (of_Z rw)
        (of_Z j) random calls conversation
      = Some (Normal (conversation ++ messages, (calls + k * per)%nat))
      /\ length messages = k
      /\ Forall (messageOf (Z.to_nat uq) (Z.to_nat kc) (Z.to_nat wc) (Z.to_nat rw))
           messages.
Proof.
  intros Hr Hn Huq Hkc Hwc Hrw per.
  assert (H20 : (2 ^ 20 < 2 ^ 53 - 1)%Z) by reflexivity.
  induction k as [|k IH]; intros j fuel calls conversation Hj Hjn Hf.
  - destruct fuel as [|fuel]; [lia|]. cbn [generateConversation_loop].
    assert (j = n) by lia. subst j. rewrite counter_end by lia.
    exists []. rewrite app_nil_r. cbn. rewrite Nat.add_0_r. repeat split. constructor.
  - destruct fuel as [|fuel]; [lia|]. cbn [generateConversation_loop].
    rewrite counter_lt by lia. rewrite counter_step by lia.
    destruct (generateRandomText_textOf random uq (S fuel) calls Hr Huq ltac:(lia))
      as (query & -> & Hq).
    rewrite (Array_from_length_of_Z kc Hkc).
    destruct (generateChunks_texts random wc (S fuel) Hr Hwc ltac:(lia)
                (repeat tt (Z.to_nat kc)) (calls + Z.to_nat uq)%nat)
      as (texts & -> & Hl & Hts).
    rewrite repeat_length in Hl |- *.
    destruct (generateRandomText_textOf random rw (S fuel)
                (calls + Z.to_nat uq + Z.to_nat kc * Z.to_nat wc)%nat Hr Hrw ltac:(lia))
      as (answer & -> & Ha).
    destruct (IH (j + 1)%Z fuel
                (calls + Z.to_nat uq + Z.to_nat kc * Z.to_nat wc + Z.to_nat rw)%nat
                (conversation
                   ++ [{| userQuery := query; chunks := texts; response := answer |}]))
      as (ms & -> & Hlm & Hms); try lia.
    exists ({| userQuery := query; chunks := texts; response := answer |} :: ms).
    rewrite <- app_assoc. cbn [app length].
    split; [f_equal; f_equal; f_equal; unfold per; lia|]. split; [lia|].
    constructor; [|assumption]. repeat split; assumption.
Qed.

Import ListNotations.
#[local] Set Warnings "-inexact-float".
#[local] Open Scope float_scope.

(** ** Numbers without a minus sign *)

Section Unsigned.

(** Rounding with the plus sign gives no minus sign. *)
Lemma binary_round_aux_unsigned m e l :
  unsigned (binary_round_aux prec emax false m e l).
Proof.
  unfold binary_round_aux.
  destruct (shr_fexp prec emax m e l) as [mrs' e'].
  destruct (shr_fexp prec emax _ e' loc_Exact) as [mrs'' e''].
  destruct (shr_m mrs'') as [|p|p]; cbn; try reflexivity; try exact I.
  now destruct (e'' <=? emax - prec)%Z.
Qed.

Lemma of_Z_unsigned z : unsigned (Prim2SF (of_Z z)).
Proof.
  unfold of_Z. rewrite of_uint63_spec.
  pose proof (Uint63.to_Z_bounded (Uint63.of_Z z)) as [Hlo _].
  destruct (Uint63.to_Z (Uint63.of_Z z)) as [|p|p]; [reflexivity| |lia].
  unfold binary_normalize, binary_round.
  destruct (shl_align p 0 (fexp prec emax (Z.pos (digits2_pos p) + 0))) as [mz ez].
  apply binary_round_aux_unsigned.
Qed.

Lemma unsigned_not_lt_0 x : unsigned (Prim2SF x) -> lt x 0 = false.
Proof.
  unfold lt. rewrite ltb_spec. change (Prim2SF 0) with (S754_zero false).
  destruct (Prim2SF x) as [s|s| |s m e]; cbn; try reflexivity; now intros ->.
Qed.

Lemma Math_ceil_unsigned x : unsigned (Prim2SF x) -> unsigned (Prim2SF (Math_ceil x)).
Proof.
  unfold Math_ceil. destruct (Prim2SF x) as [s|s| |s m e] eqn:Hx;
    try (now rewrite Hx).
  cbn [unsigned]. intros ->. destruct (0 <=? e)%Z; [now rewrite Hx|].
  apply of_Z_unsigned.
Qed.

(** What is not at most 0 is [NaN] or carries the plus sign and is not a
    zero. *)
Lemma not_le_0_spec x :
  le x 0 = false ->
  match Prim2SF x with
  | S754_nan => True
  | S754_infinity s | S754_finite s _ _ => s = false
  | S754_zero _ => False
  end.
Proof.
  unfold le. rewrite leb_spec. change (Prim2SF 0) with (S754_zero false).
  destruct (Prim2SF x) as [s|s| |s m e]; cbn; try discriminate; try exact (fun _ => I);
    now destruct s.
Qed.

End Unsigned.

(** * The claims *)

(** ** Backcheck consistency *)

(** C1, as stated, fails: with [1e308] daily users and 10 conversations
    each the three counts are non-zero and [Array.from] succeeds, but the
    message volume is [Infinity], [Infinity - Infinity] is [NaN], no
    comparison with [NaN] holds, and the backcheck is invalid. *)
Lemma backcheck_invalid_on_overflow :
  zeroGuard overflowInput = false
  /\ arrayFault overflowInput = false
  /\ totalDailyMessages (calculateCosts overflowInput) = infinity
  /\ backcheckFlags (calculateCosts overflowInput) = Some (false, false, false).
Proof. repeat split. Qed.

(** The same with finite numbers only: the message volume matches, the
    daily cost does not. *)
Lemma backcheck_invalid_on_rounding :
  zeroGuard hugeInput = false
  /\ arrayFault hugeInput = false
  /\ is_finite (dailyCost (calculateCosts hugeInput)) = true
  /\ backcheckFlags (calculateCosts hugeInput) = Some (false, true, false).
Proof. repeat split. Qed.

(** C1, amended: outside the zero guard and the fault path the backcheck
    records the product of the three counts as expected and
    [totalDailyMessages] as actual message volume, and they are the same
    number; [totalMessagesMatch] is true exactly when that product is
    finite; [dailyCostMatch] is the tolerance test between the backcheck's
    own evaluation of the daily cost and the result's; [isValid] is the
    conjunction of these two flags; and all three are true for positive
    integer counts (at most [2^15] messages per conversation, volume below
    [2^53]), an integer number of chunks per query from 1 to [2^20], word
    counts between 1 and [2^20] and a daily cost of at most [10^10]. *)
Theorem backcheck_consistency (input : CalculationInput) :
  zeroGuard input = false -> arrayFault input = false ->
  let r := calculateCosts input in
  let model := OPENAI_MODELS !! selectedModel input in
  let product :=
    dailyUsers input * conversationsPerUser input * messagesPerConversation input in
  exists b,
    backcheck r = Some b
    /\ Values.totalMessages (expectedValues (details b)) = product
    /\ Values.totalMessages (actualValues (details b)) = totalDailyMessages r
    /\ totalDailyMessages r = product
    /\ totalMessagesMatch (details b) = is_finite product
    /\ Values.dailyCost (expectedValues (details b)) =
       totalInputTokensOf r * product * inputPrice_or_0 model / 1000
       + outputTokensOf r * product * outputPrice_or_0 model / 1000
    /\ Values.dailyCost (actualValues (details b)) = dailyCost r
    /\ dailyCostMatch (details b) =
       lt (Math_abs (Values.dailyCost (expectedValues (details b)) - dailyCost r)) 0.0001
    /\ isValid b = totalMessagesMatch (details b) && dailyCostMatch (details b)
    /\ (forall ku kv km kc : Z,
          countsAre input ku kv km -> realisticContent input kc ->
          (1 <= ku)%Z -> (1 <= kv)%Z -> (1 <= km <= 2 ^ 15)%Z ->
          (ku * kv * km < 2 ^ 53)%Z ->
          le (dailyCost r) 10000000000 = true ->
          totalMessagesMatch (details b) = true
          /\ dailyCostMatch (details b) = true
          /\ isValid b = true).
Proof.
  intros Hg Hf. cbv zeta.
  pose proof (realistic_flags input) as Hflags. cbv zeta in Hflags.
  rewrite calculateCosts_main in * by assumption.
  eexists. split; [reflexivity|].
  cbn [details expectedValues actualValues Values.totalMessages Values.dailyCost
       totalMessagesMatch dailyCostMatch isValid performBackcheck computeCosts
       totalDailyMessages dailyCost].
  repeat split.
  - apply match_self.
  - now rewrite !andb_true_r.
  - rewrite match_self. now destruct (Hflags ku kv km kc).
  - now destruct (Hflags ku kv km kc).
  - rewrite !andb_true_r, match_self.
    destruct (Hflags ku kv km kc) as [Hfin Hd]; try assumption.
    apply andb_true_intro. split; [exact Hfin|exact Hd].
Qed.

Lemma backcheck_consistency_witness :
  exists b, backcheck (calculateCosts defaultInput) = Some b
            /\ totalMessagesMatch (details b) = is_finite (100 * 3 * 5)
            /\ isValid b = true.
Proof.
  destruct (backcheck_consistency defaultInput)
    as (b & Hb & _ & _ & _ & Hm & _ & _ & _ & _ & Hv);
    [reflexivity|reflexivity|].
  exists b. split; [exact Hb|]. split; [exact Hm|].
  apply (Hv 100 3 5 2)%Z; try lia; try reflexivity.
  - repeat split.
  - repeat split; try reflexivity; lia.
Defined.

(** ** Zero guard *)

(** C2: if one of [dailyUsers], [conversationsPerUser],
    [messagesPerConversation] is [=== 0], whatever the other fields,
    [calculateCosts] returns the all-zero result: nine numeric fields at 0,
    a backcheck with [isValid] and the four match flags true, and all
    expected and actual values at 0. *)
Theorem zero_guard_result (input : CalculationInput) :
  strict_eq (dailyUsers input) 0 = true
  \/ strict_eq (conversationsPerUser input) 0 = true
  \/ strict_eq (messagesPerConversation input) 0 = true ->
  calculateCosts input =
  {| tokensPerMessage := 0;
     wordsPerMessage := 0;
     totalDailyMessages := 0;
     dailyCost := 0;
     monthlyCost := 0;
     annualCost := 0;
     costPerMessage := 0;
     costPerUser := 0;
     averageHistoryTokens := 0;
     backcheck :=
       Some {| isValid := true;
               details :=
                 {| inputTokensMatch := true;
                    outputTokensMatch := true;
                    totalMessagesMatch := true;
                    dailyCostMatch := true;
                    expectedValues := Values.mk 0 0 0 0;
                    actualValues := Values.mk 0 0 0 0 |} |} |}.
Proof.
  intros H. rewrite calculateCosts_guard; [reflexivity|].
  unfold zeroGuard. destruct H as [H|[H|H]]; rewrite H; cbn; now rewrite ?orb_true_r.
Qed.

Lemma zero_guard_result_witness :
  totalDailyMessages
    (calculateCosts
       {| selectedModel := "gpt-4o"; dailyUsers := 100; conversationsPerUser := 0;
          messagesPerConversation := 5; wordsPerChunk := 200; userQueryWords := 18;
          responseWords := 60; chunksPerQuery := 2 |}) = 0.
Proof.
  rewrite zero_guard_result; [reflexivity|].
  right; left. reflexivity.
Defined.

(** ** Daily, monthly and annual cost *)



(** ** Unit converter *)

(** C4: for [words > 0], [wordsToTokens words] is [Math.ceil (words * 1.33)]
    and for [words <= 0] it is 0; for [tokens > 0], [tokensToWords tokens]
    is [Math.ceil (tokens / 1.33)] and for [tokens <= 0] it is 0; and
    [wordsToTokens 10 = 14], [wordsToTokens (-1) = 0],
    [tokensToWords 14 = 11], [tokensToWords 1000000 = 751880]. *)
Theorem unit_converter_contract :
  (forall words, gt words 0 = true ->
     wordsToTokens words = Math_ceil (words * 1.33))
  /\ (forall words, le words 0 = true -> wordsToTokens words = 0)
  /\ (forall tokens, gt tokens 0 = true ->
        tokensToWords tokens = Math_ceil (tokens / 1.33))
  /\ (forall tokens, le tokens 0 = true -> tokensToWords tokens = 0)
  /\ wordsToTokens 10 = 14
  /\ wordsToTokens (-1) = 0
  /\ tokensToWords 14 = 11
  /\ tokensToWords 1000000 = 751880.
Proof.
  repeat split; try reflexivity.
  - intros w H. unfold wordsToTokens. now rewrite (lt_0_not_le_0 w H).
  - intros w H. unfold wordsToTokens. now rewrite H.
  - intros t H. unfold tokensToWords. now rewrite (lt_0_not_le_0 t H).
  - intros t H. unfold tokensToWords. now rewrite H.
Qed.

Lemma unit_converter_contract_witness :
  wordsToTokens 0.5 = Math_ceil (0.5 * 1.33) /\ tokensToWords (-3) = 0.
Proof.
  destruct unit_converter_contract as (Hw & _ & _ & Ht & _).
  split; [apply Hw|apply Ht]; reflexivity.
Defined.

(** ** Average history tokens *)

(** C5: outside the zero guard and the fault path, with [N] messages per
    conversation, the reported [averageHistoryTokens] is [Math.round] of
    [(sum over i = 0 .. N-1 of i * (queryTokens + outputTokens)) / N]: when
    that average is finite, an integer at most one half away from it (the
    upper one of two), and the average itself when it is [NaN] or infinite;
    the total input tokens are
    [chunksPerQuery * chunkTokens + queryTokens + ] the unrounded average;
    with [messagesPerConversation = 1] the reported average is 0; and with
    3.5 messages per conversation in the reference configuration the
    average [312 / 3.5 = 89.14...] is reported as 89, where the ceiling
    is 90. *)
Theorem history_average (input : CalculationInput) :
  let r := calculateCosts input in
  let N := messagesPerConversation input in
  let chunkTokens := wordsToTokens (wordsPerChunk input) in
  let queryTokens := wordsToTokens (userQueryWords input) in
  let outputTokens := wordsToTokens (responseWords input) in
  let average := historySum queryTokens outputTokens (Z.to_nat (ToLength N)) / N in
  (zeroGuard input = false -> arrayFault input = false ->
   averageHistoryTokens r = Math_round average
   /\ totalInputTokensOf r = chunksPerQuery input * chunkTokens + queryTokens + average
   /\ tokensPerMessage r = totalInputTokensOf r + outputTokens
   /\ (is_finite average = true ->
       exists k : Z,
         B2R (averageHistoryTokens r) = IZR k
         /\ (IZR k - / 2 <= B2R average < IZR k + / 2)%R)
   /\ (is_finite average = false -> averageHistoryTokens r = average))
  /\ (N = 1 -> averageHistoryTokens r = 0)
  /\ (let r' := calculateCosts (withMessages 3.5 defaultInput) in
      averageHistoryTokens r' = 89
      /\ totalInputTokensOf r' = 2 * 266 + 24 + 312 / 3.5
      /\ Math_ceil (312 / 3.5) = 90).
Proof.
  cbv zeta. split; [|split].
  - intros Hg Hf. rewrite calculateCosts_main by assumption.
    unfold computeCosts, totalInputTokensOf. cbn [averageHistoryTokens backcheck tokensPerMessage].
    unfold messageSlots. rewrite totalHistoryTokens_sum
      by (pose proof (arrayFault_length input Hf) as Hl;
          assert (2 ^ 27 - 1 <= 2 ^ 53)%Z by (apply Z.leb_le; reflexivity); lia).
    split; [reflexivity|]. split; [reflexivity|]. split; [reflexivity|]. split.
    + apply Math_round_nearest.
    + apply Math_round_not_finite.
  - intros HN. destruct (calculateCosts_cases input) as [-> |[-> |(_ & _ & ->)]];
      try reflexivity.
    unfold computeCosts, messageSlots. cbn [averageHistoryTokens]. rewrite HN.
    reflexivity.
  - repeat split.
Qed.

Lemma history_average_witness :
  exists k : Z,
    B2R (averageHistoryTokens (calculateCosts (withMessages 3.5 defaultInput))) = IZR k
    /\ (IZR k - / 2 <= B2R (historySum 24 80 3 / 3.5) < IZR k + / 2)%R.
Proof.
  destruct (history_average (withMessages 3.5 defaultInput)) as [H _].
  destruct H as (_ & _ & _ & Hk & _); [reflexivity|reflexivity|].
  apply Hk. reflexivity.
Defined.

(** ** Unresolved model *)

(** C6, as stated, fails: the model is unknown and the three counts are
    non-zero, but [Array.from] refuses a length of [2^32], the [catch]
    block answers, and the backcheck is invalid with no message count
    computed. *)
Lemma unresolved_model_fault :
  OPENAI_MODELS !! selectedModel tooManyMessagesInput = None
  /\ zeroGuard tooManyMessagesInput = false
  /\ calculateCosts tooManyMessagesInput = degenerateResult false
  /\ backcheckFlags (calculateCosts tooManyMessagesInput) = Some (false, false, false)
  /\ totalDailyMessages (calculateCosts tooManyMessagesInput) = 0.
Proof. repeat split. Qed.

(** Nor are the costs 0 when the volume is not finite: [Infinity * 0] is
    [NaN]. *)
Lemma unresolved_model_nan :
  OPENAI_MODELS !! selectedModel infiniteUsersInput = None
  /\ zeroGuard infiniteUsersInput = false
  /\ arrayFault infiniteUsersInput = false
  /\ is_nan (dailyCost (calculateCosts infiniteUsersInput)) = true
  /\ backcheckFlags (calculateCosts infiniteUsersInput) = Some (false, false, false).
Proof. repeat split. Qed.

(** C6, amended: for a model absent from the price table, outside the zero
    guard and the fault path and with finite priced volumes, the token,
    word and message counts are those computed for a priced model, the
    five costs are zeros, and the backcheck is valid with expected and
    actual daily cost both zero. *)
Theorem unresolved_model_costs_zero (input : CalculationInput) :
  OPENAI_MODELS !! selectedModel input = None ->
  zeroGuard input = false -> arrayFault input = false ->
  let r := calculateCosts input in
  let priced := calculateCosts (withModel "gpt-4o" input) in
  is_finite (totalInputTokensOf r * totalDailyMessages r / 1000) = true ->
  is_finite (outputTokensOf r * totalDailyMessages r / 1000) = true ->
  (tokensPerMessage r = tokensPerMessage priced
   /\ wordsPerMessage r = wordsPerMessage priced
   /\ totalDailyMessages r = totalDailyMessages priced
   /\ averageHistoryTokens r = averageHistoryTokens priced)
  /\ strict_eq (dailyCost r) 0 = true
  /\ strict_eq (monthlyCost r) 0 = true
  /\ strict_eq (annualCost r) 0 = true
  /\ strict_eq (costPerMessage r) 0 = true
  /\ strict_eq (costPerUser r) 0 = true
  /\ exists b,
       backcheck r = Some b
       /\ isValid b = true
       /\ strict_eq (Values.dailyCost (expectedValues (details b))) 0 = true
       /\ strict_eq (Values.dailyCost (actualValues (details b))) 0 = true.
Proof.
  intros Hmodel Hg Hf. cbv zeta.
  rewrite (calculateCosts_main input) by assumption.
  rewrite (calculateCosts_main (withModel "gpt-4o" input)) by assumption.
  rewrite Hmodel. unfold totalInputTokensOf, outputTokensOf.
  cbn [computeCosts performBackcheck backcheck details expectedValues actualValues
       Values.inputTokens Values.outputTokens Values.dailyCost totalDailyMessages
       tokensPerMessage wordsPerMessage averageHistoryTokens dailyCost monthlyCost
       annualCost costPerMessage costPerUser isValid inputPrice_or_0 outputPrice_or_0
       withModel messagesPerConversation dailyUsers conversationsPerUser wordsPerChunk
       userQueryWords responseWords chunksPerQuery].
  unfold math.add, math.multiply, math.divide.
  intros HT HO.
  destruct (zero_price_costs _ _ _ (dailyUsers input) HT HO)
    as (Hd & Hm & Ha & Hpm & Hpu & He & HM).
  split; [repeat split|].
  repeat (split; [assumption|]).
  eexists. split; [reflexivity|].
  cbn [isValid details expectedValues actualValues Values.dailyCost performBackcheck
       totalDailyMessages dailyCost inputPrice_or_0 outputPrice_or_0].
  split; [|split; assumption].
  rewrite !andb_true_r. apply andb_true_intro. split.
  - rewrite match_self. exact HM.
  - now apply match_zeros.
Qed.

Lemma unresolved_model_costs_zero_witness :
  strict_eq (dailyCost (calculateCosts (withModel "non-existent-model" defaultInput))) 0
  = true.
Proof.
  destruct (unresolved_model_costs_zero (withModel "non-existent-model" defaultInput))
    as (_ & H & _); [reflexivity..|exact H].
Defined.

(** ** Backcheck token flags *)

(** C7: whatever its arguments, [performBackcheck] reports
    [inputTokensMatch = true] and [outputTokensMatch = true], and both the
    expected and the actual token values are the [totalInputTokens] and
    [outputTokens] arguments. *)
Theorem token_flags_always_true (input : CalculationInput) (result : CalculationResult)
    (model : option OpenAIModel) (totalInputTokens outputTokens : number) :
  let d := details (performBackcheck input result model totalInputTokens outputTokens) in
  inputTokensMatch d = true
  /\ outputTokensMatch d = true
  /\ Values.inputTokens (expectedValues d) = totalInputTokens
  /\ Values.inputTokens (actualValues d) = totalInputTokens
  /\ Values.outputTokens (expectedValues d) = outputTokens
  /\ Values.outputTokens (actualValues d) = outputTokens.
Proof. cbn. repeat split. Qed.

(** ** Round trip of the unit converter *)

(** C8, as stated, fails: [7000000000000050 * 1.33] rounds to the even
    number [9310000000000066], and that divided by [1.33] rounds to
    [7000000000000049]. *)
Lemma round_trip_loses_a_word :
  gt hugeWordCount 0 = true
  /\ wordsToTokens hugeWordCount = 9310000000000066
  /\ tokensToWords (wordsToTokens hugeWordCount) = 7000000000000049
  /\ le hugeWordCount (tokensToWords (wordsToTokens hugeWordCount)) = false.
Proof. repeat split. Qed.

(** C8, amended: for every integer word count [w] from 1 to [2^52],
    [tokensToWords (wordsToTokens w)] is at least [w]; and for [w = 1] it
    is 2, strictly greater. *)
Theorem round_trip_not_below (n : Z) :
  (1 <= n <= 2 ^ 52)%Z ->
  le (of_Z n) (tokensToWords (wordsToTokens (of_Z n))) = true
  /\ lt 1 (tokensToWords (wordsToTokens 1)) = true.
Proof.
  intros Hn. split; [|reflexivity].
  destruct (round_trip_value n Hn) as (k & Hk & Hkv & Hkn).
  destruct (of_Z_pos_normal n ltac:(change (2 ^ 53)%Z with (2 * 2 ^ 52)%Z; lia)) as [Hw Hwv].
  apply (le_pos_normal _ _ _ _ _ _ Hw Hkn). rewrite Hwv, Hkv. now apply IZR_le.
Qed.

Lemma round_trip_not_below_witness :
  le (of_Z 1000) (tokensToWords (wordsToTokens (of_Z 1000))) = true.
Proof. apply (round_trip_not_below 1000). lia. Defined.

(** ** Monotonicity in the usage counts *)

(** C9, as stated, fails: with no conversations the zero guard answers,
    and one user more leaves the message volume and the daily cost at 0. *)
Lemma more_users_same_volume :
  lt 1 2 = true
  /\ totalDailyMessages (calculateCosts (idleInput 1)) = 0
  /\ totalDailyMessages (calculateCosts (idleInput 2)) = 0
  /\ lt (totalDailyMessages (calculateCosts (idleInput 1)))
        (totalDailyMessages (calculateCosts (idleInput 2))) = false
  /\ lt (dailyCost (calculateCosts (idleInput 1)))
        (dailyCost (calculateCosts (idleInput 2))) = false.
Proof. repeat split. Qed.

(** C9, amended: for positive integer counts, raising any of the three
    without lowering another (volume at most [2^49], at most [2^20]
    messages per conversation) strictly increases [totalDailyMessages];
    and for a priced model, an integer number of chunks per query up to
    [2^20], word counts between 1 and [2^20] and at most [2^15] messages
    per conversation, it strictly increases [dailyCost]. *)
Theorem monotone_in_counts (input input' : CalculationInput) (a b c a' b' c' : Z) :
  countsAre input a b c -> countsAre input' a' b' c' -> sameContent input input' ->
  (1 <= a <= a')%Z -> (1 <= b <= b')%Z -> (1 <= c <= c')%Z ->
  (a * b * c < a' * b' * c')%Z -> (a' * b' * c' <= 2 ^ 49)%Z -> (c' <= 2 ^ 20)%Z ->
  let r := calculateCosts input in
  let r' := calculateCosts input' in
  lt (totalDailyMessages r) (totalDailyMessages r') = true
  /\ (forall kc m,
        realisticContent input kc -> (c' <= 2 ^ 15)%Z ->
        OPENAI_MODELS !! selectedModel input = Some m ->
        lt (dailyCost r) (dailyCost r') = true).
Proof.
  intros Hcnt Hcnt' Hsame Ha Hb Hc Hlt Hhi Hc20. cbv zeta.
  assert (H49 : (2 ^ 49 < 2 ^ 53)%Z) by reflexivity.
  assert (H20 : (2 ^ 20 <= 2 ^ 27 - 1)%Z) by (apply Z.leb_le; reflexivity).
  assert (Hpos : (0 < a * b * c)%Z) by nia.
  destruct (integer_counts_main input a b c Hcnt) as (Hg & Hf & HM); try lia.
  destruct (integer_counts_main input' a' b' c' Hcnt') as (Hg' & Hf' & HM'); try lia.
  split.
  - rewrite HM, HM'. apply of_Z_lt; lia.
  - intros kc m Hreal Hc15 Hm.
    destruct (realistic_tokens input kc Hreal) as (kch & kq & ko & Ech & Eq & Eo & Hkch & Hkq & Hko).
    destruct Hreal as (Hcpq & Hkc & _).
    destruct Hsame as (Hmodel & Swc & Sq & Sr & Scpq).
    destruct Hcnt as (_ & _ & Hmpc). destruct Hcnt' as (_ & _ & Hmpc').
    destruct (totalInputTokens_exact input kc kch kq ko c) as (HnT & HvT & HO);
      try assumption; try lia.
    destruct (totalInputTokens_exact input' kc kch kq ko c') as (HnT' & HvT' & HO');
      try assumption; try lia; try (rewrite <- ?Swc, <- ?Sq, <- ?Sr, <- ?Scpq; assumption).
    destruct (dailyCost_main input Hg Hf) as [-> _].
    destruct (dailyCost_main input' Hg' Hf') as [-> _].
    rewrite HM, HM', <- Hmodel, Hm, HO, HO'. cbn [inputPrice_or_0 outputPrice_or_0].
    pose proof (priced_model_is_gpt4o _ _ Hm) as Hid. rewrite Hid in Hm.
    destruct (gpt4o_prices m Hm) as [Hip Hop].
    assert (H21 : (2 ^ 21 < 2 ^ 53)%Z) by reflexivity.
    destruct (of_Z_pos_normal ko ltac:(lia)) as [HnO _].
    apply dailyCostOf_increasing; try assumption; try lia;
      try (eapply pos_normal_weaken; [eassumption|lia..]).
    rewrite HvT, HvT'.
    assert (IZR ((kq + ko) * (c - 1)) <= IZR ((kq + ko) * (c' - 1)))%R
      by (apply IZR_le; nia).
    lra.
Qed.

Lemma monotone_in_counts_witness :
  lt (totalDailyMessages (calculateCosts defaultInput))
     (totalDailyMessages (calculateCosts (withUsers 101 defaultInput))) = true
  /\ lt (dailyCost (calculateCosts defaultInput))
        (dailyCost (calculateCosts (withUsers 101 defaultInput))) = true.
Proof.
  assert (Hcnt : countsAre defaultInput 100 3 5) by (repeat split).
  assert (Hcnt' : countsAre (withUsers 101 defaultInput) 101 3 5) by (repeat split).
  assert (Hsame : sameContent defaultInput (withUsers 101 defaultInput))
    by (repeat split).
  destruct (monotone_in_counts _ _ _ _ _ _ _ _ Hcnt Hcnt' Hsame) as [Hm Hc]; try lia.
  split; [exact Hm|].
  eapply (Hc 2%Z); [|lia|vm_compute; reflexivity].
  repeat split; lia.
Defined.

(** ** Negative usage counts *)

(** C10, as stated, fails for the daily cost: with a negative number of
    chunks per query the input tokens per message are negative too, and
    the daily cost of [-1] users is positive. *)
Lemma negative_users_positive_cost :
  lt (dailyUsers negativeChunksInput) 0 = true
  /\ gt (conversationsPerUser negativeChunksInput) 0 = true
  /\ gt (messagesPerConversation negativeChunksInput) 0 = true
  /\ totalDailyMessages (calculateCosts negativeChunksInput) = -15
  /\ lt (dailyCost (calculateCosts negativeChunksInput)) 0 = false
  /\ gt (dailyCost (calculateCosts negativeChunksInput)) 0 = true.
Proof. repeat split. Qed.

(** C10, amended: a negative [dailyUsers] with positive
    [conversationsPerUser] and [messagesPerConversation] passes the zero
    guard; for integer counts (volume at most [2^49] in magnitude, at most
    [2^20] messages per conversation) the result's [totalDailyMessages]
    is the negative product; and for a priced model, an integer number of
    chunks per query from 1 to [2^20], word counts between 1 and [2^20]
    and at most [2^15] messages per conversation, [dailyCost] is negative. *)
Theorem negative_users_propagate (input : CalculationInput) :
  (lt (dailyUsers input) 0 = true ->
   gt (conversationsPerUser input) 0 = true ->
   gt (messagesPerConversation input) 0 = true ->
   zeroGuard input = false)
  /\ (forall a b c : Z,
        dailyUsers input = - of_Z a ->
        conversationsPerUser input = of_Z b ->
        messagesPerConversation input = of_Z c ->
        (1 <= a)%Z -> (1 <= b)%Z -> (1 <= c)%Z ->
        (a * b * c <= 2 ^ 49)%Z -> (c <= 2 ^ 20)%Z ->
        let r := calculateCosts input in
        totalDailyMessages r =
        dailyUsers input * conversationsPerUser input * messagesPerConversation input
        /\ totalDailyMessages r = - of_Z (a * b * c)
        /\ lt (totalDailyMessages r) 0 = true
        /\ (forall kc m,
              realisticContent input kc -> (c <= 2 ^ 15)%Z ->
              OPENAI_MODELS !! selectedModel input = Some m ->
              lt (dailyCost r) 0 = true)).
Proof.
  split.
  - intros Hu Hc Hm. unfold zeroGuard.
    now rewrite (lt_0_r_not_eq_0 _ Hu), (lt_0_not_eq_0 _ Hc), (lt_0_not_eq_0 _ Hm).
  - intros a b c Ha Hb Hc H1a H1b H1c Habc Hc20. cbv zeta.
    assert (H49 : (2 ^ 49 < 2 ^ 53)%Z) by reflexivity.
    assert (H20 : (2 ^ 20 <= 2 ^ 27 - 1)%Z) by (apply Z.leb_le; reflexivity).
    assert (Hg : zeroGuard input = false).
    { unfold zeroGuard. rewrite Ha, Hb, Hc.
      rewrite (lt_0_r_not_eq_0 (- of_Z a)), !of_Z_not_zero; [reflexivity|nia..|].
      destruct (of_Z_pos_normal a ltac:(nia)) as [Hn _].
      exact (opp_pos_normal_lt_0 _ _ _ Hn). }
    assert (Hf : arrayFault input = false).
    { unfold arrayFault. rewrite Hc, ToLength_of_Z by nia.
      apply Z.ltb_ge. unfold max_array_length. lia. }
    destruct (dailyCost_main input Hg Hf) as [Hcost HM].
    assert (HMv : totalDailyMessages (calculateCosts input) = - of_Z (a * b * c)).
    { rewrite HM, Ha, Hb, Hc, !mul_opp_l, !of_Z_mul; try reflexivity; nia. }
    destruct (of_Z_pos_normal (a * b * c) ltac:(nia)) as [HnM _].
    split; [exact HM|]. split; [exact HMv|]. split.
    + rewrite HMv. exact (opp_pos_normal_lt_0 _ _ _ HnM).
    + intros kc m Hreal Hc15 Hm.
      destruct (realistic_tokens input kc Hreal)
        as (kch & kq & ko & Ech & Eq & Eo & Hkch & Hkq & Hko).
      destruct Hreal as (Hcpq & Hkc & _).
      destruct (totalInputTokens_exact input kc kch kq ko c) as (HnT' & _ & HO);
        try assumption; try lia.
      assert (H21 : (2 ^ 21 < 2 ^ 53)%Z) by reflexivity.
      destruct (of_Z_pos_normal ko ltac:(lia)) as [HnO' _].
      assert (HnT : pos_normal (totalInputTokensOf (calculateCosts input)) (-53) 8)
        by (eapply pos_normal_weaken; [exact HnT'|lia..]).
      assert (HnO : pos_normal (of_Z ko) (-53) 8)
        by (eapply pos_normal_weaken; [exact HnO'|lia..]).
      rewrite Hcost, HMv, Hm, HO. cbn [inputPrice_or_0 outputPrice_or_0].
      pose proof (priced_model_is_gpt4o _ _ Hm) as Hid. rewrite Hid in Hm.
      destruct (gpt4o_prices m Hm) as [Hip Hop].
      destruct (dailyCostOf_approx _ _ _ _ (a * b * c) HnT HnO Hip Hop ltac:(nia))
        as [Hd _].
      destruct thousand_pos_normal as [H1000 _].
      destruct (mul_pos_normal _ _ _ _ _ _ HnT HnM ltac:(lia) ltac:(lia)) as (Ha1 & _).
      destruct (div_pos_normal _ _ _ _ _ _ Ha1 H1000 ltac:(lia) ltac:(lia)) as (Ha2 & _).
      destruct (mul_pos_normal _ _ _ _ _ _ Ha2 Hip ltac:(lia) ltac:(lia)) as (Ha3 & _).
      destruct (mul_pos_normal _ _ _ _ _ _ HnO HnM ltac:(lia) ltac:(lia)) as (Hb1 & _).
      destruct (div_pos_normal _ _ _ _ _ _ Hb1 H1000 ltac:(lia) ltac:(lia)) as (Hb2 & _).
      destruct (mul_pos_normal _ _ _ _ _ _ Hb2 Hop ltac:(lia) ltac:(lia)) as (Hb3 & _).
      rewrite (dailyCostOf_opp _ _ _ _ _ _ _ _ _ _ _ HnT HnO HnM).
      * exact (opp_pos_normal_lt_0 _ _ _ Hd).
      * eapply pos_normal_weaken; [exact Ha3|lia..].
      * eapply pos_normal_weaken; [exact Hb3|lia..].
Qed.

Lemma negative_users_propagate_witness :
  zeroGuard (withUsers (-1) defaultInput) = false
  /\ totalDailyMessages (calculateCosts (withUsers (-1) defaultInput)) = -15
  /\ lt (dailyCost (calculateCosts (withUsers (-1) defaultInput))) 0 = true.
Proof.
  destruct (negative_users_propagate (withUsers (-1) defaultInput)) as [Hg Hn].
  split; [apply Hg; reflexivity|].
  destruct (Hn 1 3 5)%Z as (_ & Hm & _ & Hc); try reflexivity; try lia.
  split; [exact Hm|].
  eapply (Hc 2%Z); [|lia|vm_compute; reflexivity].
  repeat split; lia.
Defined.

(** * Further properties

    Properties of the same functions that the claims above leave out. *)

(** ** A valid backcheck compared finite numbers *)

(** X1: a backcheck that reports valid has compared finite numbers only: the
    three usage counts, the message volume and the daily cost of the
    result it was given, and its own daily cost, are all finite. *)
Theorem valid_backcheck_is_finite (input : CalculationInput) (result : CalculationResult)
    (model : option OpenAIModel) (totalInputTokens outputTokens : number) :
  let b := performBackcheck input result model totalInputTokens outputTokens in
  isValid b = true ->
  is_finite (dailyUsers input) = true
  /\ is_finite (conversationsPerUser input) = true
  /\ is_finite (messagesPerConversation input) = true
  /\ is_finite (totalDailyMessages result) = true
  /\ is_finite (dailyCost result) = true
  /\ is_finite (Values.dailyCost (expectedValues (details b))) = true.
Proof.
  cbv zeta. cbn [performBackcheck isValid details expectedValues Values.dailyCost].
  rewrite !andb_true_r. intros [Hm Hc]%andb_prop.
  apply match_finite in Hm as [Hp Hr]. apply match_finite in Hc as [He Hd].
  apply is_finite_mul in Hp as [Hp Hmpc]. apply is_finite_mul in Hp as [Hdu Hcpu].
  auto 10.
Qed.

Lemma valid_backcheck_is_finite_witness :
  is_finite (dailyCost (calculateCosts defaultInput)) = true.
Proof.
  refine (proj1 (proj2 (proj2 (proj2 (proj2
    (valid_backcheck_is_finite defaultInput (calculateCosts defaultInput)
       (OPENAI_MODELS !! "gpt-4o"%string) 764 80 _)))))).
  reflexivity.
Defined.

(** ** Valid results *)



(** ** Guards of the unit costs *)



(** ** Tokens per message without rounding *)

(** X4: for positive integer counts and realistic content nothing is rounded
    on the way to the tokens per message: with [kch], [kq] and [ko] the
    chunk, query and response tokens, the message volume is the integer
    product of the counts, the total input tokens are
    [kc * kch + kq + (kq + ko) * (N - 1) / 2], the tokens per message are
    these plus [ko], and the reported average history is
    [(kq + ko) * (N - 1) / 2] rounded to the nearest integer, a half
    going up. *)
Theorem tokens_closed_form (input : CalculationInput) (a b c kc : Z) :
  countsAre input a b c -> realisticContent input kc ->
  (1 <= a)%Z -> (1 <= b)%Z -> (1 <= c <= 2 ^ 15)%Z -> (a * b * c < 2 ^ 53)%Z ->
  let r := calculateCosts input in
  exists kch kq ko : Z,
    wordsToTokens (wordsPerChunk input) = of_Z kch
    /\ wordsToTokens (userQueryWords input) = of_Z kq
    /\ wordsToTokens (responseWords input) = of_Z ko
    /\ (1 <= kch)%Z /\ (1 <= kq)%Z /\ (1 <= ko)%Z
    /\ totalDailyMessages r = of_Z (a * b * c)
    /\ B2R (totalInputTokensOf r)
       = (IZR (kc * kch + kq) + IZR ((kq + ko) * (c - 1)) / 2)%R
    /\ B2R (tokensPerMessage r)
       = (IZR (kc * kch + kq + ko) + IZR ((kq + ko) * (c - 1)) / 2)%R
    /\ B2R (averageHistoryTokens r) = IZR (((kq + ko) * (c - 1) + 1) / 2).
Proof.
  intros Hcnt Hreal Ha Hb Hc Habc. cbv zeta.
  assert (H15 : (2 ^ 15 <= 2 ^ 27 - 1)%Z) by (apply Z.leb_le; reflexivity).
  destruct (integer_counts_main input a b c Hcnt) as (Hg & Hf & HM); try lia.
  destruct (realistic_tokens input kc Hreal)
    as (kch & kq & ko & Ech & Eq & Eo & Hkch & Hkq & Hko).
  pose proof Hreal as (Hcpq & Hkc & _). pose proof Hcnt as (_ & _ & Hmpc).
  destruct (totalInputTokens_exact input kc kch kq ko c) as (HnT & HvT & _);
    try assumption; try lia.
  exists kch, kq, ko.
  split; [exact Ech|]. split; [exact Eq|]. split; [exact Eo|].
  split; [lia|]. split; [lia|]. split; [lia|].
  split; [exact HM|]. split; [exact HvT|].
  destruct (history_average_main input Hg Hf) as (-> & ->).
  split.
  { assert (H15' : (2 ^ 15 = 32768)%Z) by reflexivity.
    assert (H20 : (2 ^ 20 = 1048576)%Z) by reflexivity.
    assert (H21 : (2 ^ 21 = 2097152)%Z) by reflexivity.
    assert (H53 : (2 ^ 53 = 9007199254740992)%Z) by reflexivity.
    rewrite Eo.
    destruct (of_Z_pos_normal ko ltac:(lia)) as [HnO HvO].
    destruct (half_representable (2 * (kc * kch + kq + ko) + (kq + ko) * (c - 1))
                ltac:(nia)) as (z & Hnz & Hvz).
    destruct (add_pos_normal _ _ _ _ _ _ HnT HnO ltac:(lia) ltac:(lia) ltac:(lia))
      as (_ & _ & Hadd).
    rewrite (Hadd z _ _ Hnz).
    - rewrite Hvz, !plus_IZR, !mult_IZR, !plus_IZR, !mult_IZR. lra.
    - rewrite Hvz, HvT, HvO, !plus_IZR, !mult_IZR, !plus_IZR, !mult_IZR. lra. }
  rewrite Eq, Eo, Hmpc, ToLength_of_Z
    by (assert (2 ^ 15 < 2 ^ 53)%Z by reflexivity; lia).
  destruct (historyAverage_exact kq ko c Hkq Hko Hc) as [Hfin Hval].
  destruct (Math_round_nearest _ Hfin) as (k & -> & Hk).
  rewrite Hval in Hk. now rewrite (nearest_of_half _ _ Hk).
Qed.

Lemma tokens_closed_form_witness :
  exists kch kq ko : Z,
    wordsToTokens 200 = of_Z kch /\ wordsToTokens 18 = of_Z kq
    /\ wordsToTokens 60 = of_Z ko
    /\ B2R (averageHistoryTokens (calculateCosts defaultInput))
       = IZR (((kq + ko) * (5 - 1) + 1) / 2).
Proof.
  assert (Hcnt : countsAre defaultInput 100 3 5) by (repeat split).
  assert (Hreal : realisticContent defaultInput 2) by (repeat split; lia).
  destruct (tokens_closed_form defaultInput 100 3 5 2 Hcnt Hreal
              ltac:(lia) ltac:(lia) ltac:(lia) ltac:(lia))
    as (kch & kq & ko & H1 & H2 & H3 & _ & _ & _ & _ & _ & _ & H9).
  exists kch, kq, ko. auto.
Defined.

(** ** Words against tokens *)

(** X5: tokens are never fewer than words, and no more than twice as many:
    for every word count [w] between 1 and [2^20], integer or not,
    [wordsToTokens w >= w]; and for every integer [n] from 1 to [2^51],
    [n <= wordsToTokens n <= 2 n] and [tokensToWords n <= n]. *)
Theorem converters_bound_each_other :
  (forall w, le 1 w = true -> le w 1048576 = true -> le w (wordsToTokens w) = true)
  /\ (forall n : Z, (1 <= n <= 2 ^ 51)%Z ->
      le (of_Z n) (wordsToTokens (of_Z n)) = true
      /\ le (wordsToTokens (of_Z n)) (of_Z (2 * n)) = true
      /\ le (tokensToWords (of_Z n)) (of_Z n) = true).
Proof.
  split.
  - intros w Hlo Hhi.
    assert (H1 : pos_normal 1 (-52) (-52))
      by (exists 4503599627370496%positive, (-52)%Z; repeat split; lia).
    assert (H20 : pos_normal 1048576 (-32) (-32))
      by (exists 4503599627370496%positive, (-32)%Z; repeat split; lia).
    assert (Hw : pos_normal w (-52) (-32))
      by (apply (pos_normal_between w 1 1048576 (-52) (-52) (-32) (-32)); auto; lia).
    destruct ratio_pos_normal as [Hc Hcv].
    unfold wordsToTokens. rewrite (pos_normal_not_le_0 _ _ _ Hw).
    destruct (mul_pos_normal _ _ _ _ _ _ Hw Hc ltac:(lia) ltac:(lia)) as (Hp & Ep & _).
    destruct (Math_ceil_pos_normal _ _ _ Hp) as (k & Hk & Hkv & Hkb & Hkn).
    rewrite Hcv, ulp_half_val in Ep. apply Rabs_le_bounds in Ep.
    pose proof (pos_normal_B2R _ _ _ Hw) as [Hwpos _].
    apply (le_pos_normal _ _ _ _ _ _ Hw Hkn). rewrite Hkv. lra.
  - intros n Hn.
    assert (H51 : (2 ^ 51 = 2251799813685248)%Z) by reflexivity.
    assert (H52 : (2 ^ 52 = 4503599627370496)%Z) by reflexivity.
    assert (H53 : (2 ^ 53 = 9007199254740992)%Z) by reflexivity.
    destruct (of_Z_pos_normal n ltac:(lia)) as [Hw Hwv].
    destruct (of_Z_pos_normal (2 * n) ltac:(lia)) as [Hw2 Hwv2].
    destruct (wordsToTokens_value n Hn) as (k & Hkn & Hkv & Hk1 & Hk2).
    destruct (tokensToWords_value n ltac:(lia)) as (j & Hjn & Hjv & Hj1 & Hj2).
    assert (HnR : (1 <= IZR n)%R) by (apply IZR_le; lia).
    split; [|split].
    + apply (le_pos_normal _ _ _ _ _ _ Hw Hkn). rewrite Hwv, Hkv. lra.
    + apply (le_pos_normal _ _ _ _ _ _ Hkn Hw2). rewrite Hkv, Hwv2.
      apply IZR_le. assert (k < 2 * n + 1)%Z; [|lia].
      apply lt_IZR. rewrite plus_IZR, mult_IZR. lra.
    + apply (le_pos_normal _ _ _ _ _ _ Hjn Hw). rewrite Hjv, Hwv.
      apply IZR_le. assert (j < n + 1)%Z; [|lia].
      apply lt_IZR. rewrite plus_IZR. lra.
Qed.

Lemma converters_bound_each_other_witness :
  le 1.5 (wordsToTokens 1.5) = true
  /\ le (wordsToTokens (of_Z 200)) (of_Z (2 * 200)) = true.
Proof.
  destruct converters_bound_each_other as [Hw Hn]. split.
  - apply Hw; reflexivity.
  - apply (Hn 200%Z). lia.
Defined.

(** ** Monotone converters *)

(** X6: on integer counts from 1 to [2^49] more words always give more
    tokens, and more tokens never give fewer words. *)
Theorem converters_monotone (n n' : Z) :
  (1 <= n < n')%Z -> (n' <= 2 ^ 49)%Z ->
  lt (wordsToTokens (of_Z n)) (wordsToTokens (of_Z n')) = true
  /\ le (tokensToWords (of_Z n)) (tokensToWords (of_Z n')) = true.
Proof.
  intros Hn Hn'.
  assert (H49 : (2 ^ 49 = 562949953421312)%Z) by reflexivity.
  assert (H51 : (2 ^ 51 = 2251799813685248)%Z) by reflexivity.
  assert (H52 : (2 ^ 52 = 4503599627370496)%Z) by reflexivity.
  destruct (wordsToTokens_value n ltac:(lia)) as (k & Hkn & Hkv & Hk1 & Hk2).
  destruct (wordsToTokens_value n' ltac:(lia)) as (k' & Hkn' & Hkv' & Hk1' & Hk2').
  destruct (tokensToWords_value n ltac:(lia)) as (j & Hjn & Hjv & Hj1 & Hj2).
  destruct (tokensToWords_value n' ltac:(lia)) as (j' & Hjn' & Hjv' & Hj1' & Hj2').
  assert (HnR : (1 <= IZR n <= 562949953421312)%R) by (split; apply IZR_le; lia).
  assert (HnR' : (IZR n + 1 <= IZR n')%R)
    by (rewrite <- plus_IZR; apply IZR_le; lia).
  split.
  - apply (lt_pos_normal _ _ _ _ _ _ Hkn Hkn'). rewrite Hkv, Hkv'. lra.
  - apply (le_pos_normal _ _ _ _ _ _ Hjn Hjn'). rewrite Hjv, Hjv'.
    apply IZR_le. assert (j < j' + 1)%Z; [|lia].
    apply lt_IZR. rewrite plus_IZR. lra.
Qed.

Lemma converters_monotone_witness :
  lt (wordsToTokens (of_Z 3)) (wordsToTokens (of_Z 4)) = true.
Proof. apply (converters_monotone 3 4); lia. Defined.

(** ** Positive costs *)

(** X7: for positive integer counts, realistic content and a priced model
    every cost of the result is a positive finite number, and a year costs
    more than twelve months: [annualCost] is [dailyCost * 365], above
    [monthlyCost * 12]. *)
Theorem realistic_costs_positive (input : CalculationInput) (a b c kc : Z)
    (m : OpenAIModel) :
  countsAre input a b c -> realisticContent input kc ->
  (1 <= a)%Z -> (1 <= b)%Z -> (1 <= c <= 2 ^ 15)%Z -> (a * b * c < 2 ^ 53)%Z ->
  OPENAI_MODELS !! selectedModel input = Some m ->
  let r := calculateCosts input in
  (gt (dailyCost r) 0 = true /\ is_finite (dailyCost r) = true)
  /\ (gt (monthlyCost r) 0 = true /\ is_finite (monthlyCost r) = true)
  /\ (gt (annualCost r) 0 = true /\ is_finite (annualCost r) = true)
  /\ (gt (costPerMessage r) 0 = true /\ is_finite (costPerMessage r) = true)
  /\ (gt (costPerUser r) 0 = true /\ is_finite (costPerUser r) = true)
  /\ lt (monthlyCost r * 12) (annualCost r) = true.
Proof.
  intros Hcnt Hreal Ha Hb Hc Habc Hm. cbv zeta.
  assert (H15 : (2 ^ 15 <= 2 ^ 27 - 1)%Z) by (apply Z.leb_le; reflexivity).
  assert (H53 : (2 ^ 53 = 9007199254740992)%Z) by reflexivity.
  destruct (integer_counts_main input a b c Hcnt) as (Hg & Hf & HM); try lia.
  destruct (realistic_tokens input kc Hreal)
    as (kch & kq & ko & Ech & Eq & Eo & Hkch & Hkq & Hko).
  pose proof Hreal as (Hcpq & Hkc & _). pose proof Hcnt as (Hdu & _ & Hmpc).
  destruct (totalInputTokens_exact input kc kch kq ko c) as (HnT' & _ & HO);
    try assumption; try lia.
  assert (H21 : (2 ^ 21 < 2 ^ 53)%Z) by reflexivity.
  destruct (of_Z_pos_normal ko ltac:(lia)) as [HnO' _].
  assert (HnT : pos_normal (totalInputTokensOf (calculateCosts input)) (-53) 8)
    by (eapply pos_normal_weaken; [exact HnT'|lia..]).
  assert (HnO : pos_normal (of_Z ko) (-53) 8)
    by (eapply pos_normal_weaken; [exact HnO'|lia..]).
  pose proof (priced_model_is_gpt4o _ _ Hm) as Hid.
  assert (Hm' : OPENAI_MODELS !! "gpt-4o"%string = Some m) by (now rewrite <- Hid).
  destruct (gpt4o_prices m Hm') as [Hip Hop].
  destruct (dailyCostOf_approx _ _ _ _ (a * b * c) HnT HnO Hip Hop ltac:(nia)) as [Hd _].
  destruct (dailyCost_main input Hg Hf) as [Hcost _].
  rewrite HM, Hm, HO in Hcost. cbn [inputPrice_or_0 outputPrice_or_0] in Hcost.
  rewrite <- Hcost in Hd.
  destruct (of_Z_pos_normal (a * b * c) ltac:(nia)) as [HnM _].
  destruct (of_Z_pos_normal a ltac:(nia)) as [Hna _].
  destruct (of_Z_pos_normal 30 ltac:(lia)) as [H30 V30].
  destruct (of_Z_pos_normal 365 ltac:(lia)) as [H365 V365].
  destruct (of_Z_pos_normal 12 ltac:(lia)) as [H12 V12].
  change (of_Z 30) with 30 in H30, V30. change (of_Z 365) with 365 in H365, V365.
  change (of_Z 12) with 12 in H12, V12.
  rewrite calculateCosts_main in * by assumption.
  cbn [dailyCost monthlyCost annualCost costPerMessage costPerUser totalDailyMessages
       computeCosts] in *.
  unfold math.multiply, math.divide, math.add in *.
  rewrite Hdu in *.
  set (daily := (_ + _)%float) in *.
  destruct (mul_pos_normal _ _ _ _ _ _ Hd H30 ltac:(lia) ltac:(lia)) as (Hmo & Emo & _).
  destruct (mul_pos_normal _ _ _ _ _ _ Hd H365 ltac:(lia) ltac:(lia)) as (Han & Ean & _).
  destruct (mul_pos_normal _ _ _ _ _ _ Hmo H12 ltac:(lia) ltac:(lia)) as (Hm12 & Em12 & _).
  rewrite HM in *.
  destruct (mul_pos_normal _ _ _ _ _ _ HnM H30 ltac:(lia) ltac:(lia)) as (HM30 & _).
  destruct (div_pos_normal _ _ _ _ _ _ Hmo HM30 ltac:(lia) ltac:(lia)) as (Hpm & _).
  destruct (div_pos_normal _ _ _ _ _ _ Hmo Hna ltac:(lia) ltac:(lia)) as (Hpu & _).
  rewrite (pos_normal_gt_0 _ _ _ HnM), (pos_normal_gt_0 _ _ _ Hna).
  repeat split; try (eapply pos_normal_gt_0; eassumption);
    try (eapply pos_normal_finite; eassumption).
  apply (lt_pos_normal _ _ _ _ _ _ Hm12 Han).
  rewrite V30 in Emo. rewrite V365 in Ean. rewrite V12 in Em12.
  rewrite ulp_half_val in Emo, Ean, Em12.
  apply Rabs_le_bounds in Emo, Ean, Em12.
  pose proof (pos_normal_B2R _ _ _ Hd) as [Hdpos _].
  lra.
Qed.

Lemma realistic_costs_positive_witness :
  gt (costPerUser (calculateCosts defaultInput)) 0 = true
  /\ lt (monthlyCost (calculateCosts defaultInput) * 12)
        (annualCost (calculateCosts defaultInput)) = true.
Proof.
  assert (Hcnt : countsAre defaultInput 100 3 5) by (repeat split).
  assert (Hreal : realisticContent defaultInput 2) by (repeat split; lia).
  assert (Hm : OPENAI_MODELS !! selectedModel defaultInput
               = Some {| name := "GPT-40";
                         description :=
                           "Latest model with vision capabilities, 128K context (Oct 2023)";
                         inputPrice := 0.0025; outputPrice := 0.01 |})
    by (vm_compute; reflexivity).
  destruct (realistic_costs_positive _ _ _ _ _ _ Hcnt Hreal
              ltac:(lia) ltac:(lia) ltac:(lia) ltac:(lia) Hm)
    as (_ & _ & _ & _ & [Hu _] & Hy).
  split; assumption.
Defined.

(** ** Converters are never negative *)

(** X8: whatever number they are given, negative, infinite or [NaN], the two
    converters never return a negative number. *)
Theorem converters_never_negative (x : number) :
  lt (wordsToTokens x) 0 = false /\ lt (tokensToWords x) 0 = false.
Proof.
  split; apply unsigned_not_lt_0.
  - unfold wordsToTokens. destruct (le x 0) eqn:Hle; [reflexivity|].
    apply Math_ceil_unsigned. rewrite mul_spec.
    pose proof (not_le_0_spec x Hle) as Hx.
    change (Prim2SF WORDS_TO_TOKENS_RATIO)
      with (S754_finite false 5989787504402760 (-52)).
    destruct (Prim2SF x) as [s|s| |s m e]; try contradiction; try exact I.
    + subst s. reflexivity.
    + subst s. apply binary_round_aux_unsigned.
  - unfold tokensToWords. destruct (le x 0) eqn:Hle; [reflexivity|].
    apply Math_ceil_unsigned. rewrite div_spec.
    pose proof (not_le_0_spec x Hle) as Hx.
    change (Prim2SF WORDS_TO_TOKENS_RATIO)
      with (S754_finite false 5989787504402760 (-52)).
    destruct (Prim2SF x) as [s|s| |s m e]; try contradiction; try exact I.
    + subst s. reflexivity.
    + subst s. unfold SF64div, SFdiv.
      destruct (SFdiv_core_binary prec emax (Z.pos m) e 5989787504402760 (-52))
        as [[mz ez] lz].
      apply binary_round_aux_unsigned.
Qed.

(** ** The Randomize button *)

(** X9: whatever [Math.random] returns, zero or a normal number below 1, the
    Randomize button leaves the model and the daily users alone and draws
    integers: 1 to 5 conversations per user, 3 to 9 messages per
    conversation, 100 to 399 words per chunk, 8 to 39 query words, 30 to
    119 response words and 1 to 3 chunks per query. *)
Theorem randomizeSettings_ranges (random : nat -> number) (settings : CalculationInput) :
  (forall i, (i < 6)%nat -> unitInterval (random i)) ->
  let s := randomizeSettings random settings in
  selectedModel s = selectedModel settings
  /\ dailyUsers s = dailyUsers settings
  /\ exists b c w q o kc : Z,
       (conversationsPerUser s = of_Z b /\ (1 <= b <= 5)%Z)
       /\ (messagesPerConversation s = of_Z c /\ (3 <= c <= 9)%Z)
       /\ (wordsPerChunk s = of_Z w /\ (100 <= w <= 399)%Z)
       /\ (userQueryWords s = of_Z q /\ (8 <= q <= 39)%Z)
       /\ (responseWords s = of_Z o /\ (30 <= o <= 119)%Z)
       /\ (chunksPerQuery s = of_Z kc /\ (1 <= kc <= 3)%Z).
Proof.
  intros Hr. cbv zeta. split; [reflexivity|]. split; [reflexivity|].
  exact (randomizeSettings_integers random settings Hr).
Qed.

Lemma randomizeSettings_ranges_witness :
  exists c : Z,
    messagesPerConversation (randomizeSettings (fun _ => 0.5) defaultInput) = of_Z c
    /\ (3 <= c <= 9)%Z.
Proof.
  assert (Hr : forall i : nat, (i < 6)%nat -> unitInterval ((fun _ => 0.5) i)).
  { intros i _. right. exists 4503599627370496%positive, (-53)%Z. repeat split; lia. }
  destruct (randomizeSettings_ranges (fun _ => 0.5) defaultInput Hr)
    as (_ & _ & b & c & w & q & o & kc & _ & Hc & _).
  exists c. exact Hc.
Defined.

(** ** Randomized settings are calculated *)

(** X10: whatever [Math.random] returns, zero or a normal number below 1, and
    whichever model is selected, known or not, for 1 to [10^9] daily users
    the settings of the Randomize button are calculated on the main path,
    with a positive message volume and a backcheck that reports valid. *)
Theorem randomized_settings_valid (random : nat -> number) (settings : CalculationInput)
    (a : Z) :
  (forall i, (i < 6)%nat -> unitInterval (random i)) ->
  dailyUsers settings = of_Z a -> (1 <= a <= 1000000000)%Z ->
  let s := randomizeSettings random settings in
  let r := calculateCosts s in
  zeroGuard s = false /\ arrayFault s = false
  /\ gt (totalDailyMessages r) 0 = true
  /\ exists bk, backcheck r = Some bk /\ isValid bk = true.
Proof.
  intros Hr Ha Hab. cbv zeta.
  destruct (randomized_cost_bounded random settings a Hr Ha Hab)
    as (b & c & kc & Hcnt & Hreal & Hb & Hc & Hle).
  set (s := randomizeSettings random settings) in *.
  assert (H15 : (2 ^ 15 = 32768)%Z) by reflexivity.
  assert (H27 : (2 ^ 27 - 1 = 134217727)%Z) by reflexivity.
  assert (H53 : (2 ^ 53 = 9007199254740992)%Z) by reflexivity.
  assert (Hab1 : (1 <= a * b <= 5000000000)%Z) by nia.
  assert (HK1 : (1 <= a * b * c <= 45000000000)%Z) by nia.
  destruct (integer_counts_main s a b c Hcnt) as (Hg & Hf & HM); try lia.
  destruct (of_Z_pos_normal (a * b * c) ltac:(lia)) as [HnM _].
  split; [exact Hg|]. split; [exact Hf|]. split.
  - rewrite HM. exact (pos_normal_gt_0 _ _ _ HnM).
  - destruct (realistic_flags s a b c kc Hcnt Hreal ltac:(lia) ltac:(lia) ltac:(lia)
                ltac:(lia) Hle) as [Hfin Hd].
    rewrite calculateCosts_main in * by assumption.
    eexists. split; [reflexivity|].
    cbn [isValid performBackcheck computeCosts totalDailyMessages dailyCost] in *.
    rewrite !andb_true_r, match_self. apply andb_true_intro. split; assumption.
Qed.

Lemma randomized_settings_valid_witness :
  exists bk,
    backcheck (calculateCosts (randomizeSettings (fun _ => 0.5) defaultInput)) = Some bk
    /\ isValid bk = true.
Proof.
  assert (Hr : forall i : nat, (i < 6)%nat -> unitInterval ((fun _ => 0.5) i)).
  { intros i _. right. exists 4503599627370496%positive, (-53)%Z. repeat split; lia. }
  destruct (randomized_settings_valid (fun _ => 0.5) defaultInput 100 Hr eq_refl
              ltac:(lia)) as (_ & _ & _ & H).
  exact H.
Defined.

(** ** Random text *)

(** X11: for an integer word count [n] from 0 to [2^20] and enough fuel,
    whatever [Math.random] returns, zero or a normal number below 1,
    [generateRandomText] returns, after exactly [n] calls of
    [Math.random], [n] words of the vocabulary joined by single spaces;
    for [n >= 1] splitting the text at the spaces gives these [n] words
    back. *)
Theorem generateRandomText_words (random : nat -> number) (n : Z) (fuel calls : nat) :
  (forall i, unitInterval (random i)) -> (0 <= n <= 2 ^ 20)%Z ->
  (Z.to_nat n < fuel)%nat ->
  exists ws : list string,
    generateRandomText fuel (of_Z n) random calls
    = Some (Array_join " " (map Some ws), (calls + Z.to_nat n)%nat)
    /\ length ws = Z.to_nat n
    /\ Forall (fun w => In w loremWords) ws
    /\ ((1 <= n)%Z -> String_split_space (Array_join " " (map Some ws)) = ws).
Proof.
  intros Hr Hn Hf.
  destruct (generateRandomText_text random n fuel calls Hr Hn Hf) as (ws & Ht & Hl & Hall).
  exists ws. repeat split; try assumption.
  intros H1. apply split_join.
  - destruct ws; [cbn in Hl; lia|discriminate].
  - eapply Forall_impl; [exact Hall|exact loremWords_no_space].
Qed.

Lemma generateRandomText_words_witness :
  exists ws : list string,
    generateRandomText 4 (of_Z 3) (fun _ => 0.5) 0
    = Some (Array_join " " (map Some ws), 3%nat)
    /\ length ws = 3%nat.
Proof.
  assert (Hr : forall i : nat, unitInterval ((fun _ => 0.5) i)).
  { intros i. right. exists 4503599627370496%positive, (-53)%Z. repeat split; lia. }
  destruct (generateRandomText_words (fun _ => 0.5) 3 4 0 Hr ltac:(lia) ltac:(lia))
    as (ws & H1 & H2 & _).
  exists ws. split; assumption.
Defined.

(** ** Random text for degenerate word counts *)



(** ** Example conversations *)

(** X13: for integer arguments from 0 to [2^20] and enough fuel, whatever
    [Math.random] returns, zero or a normal number below 1,
    [generateConversation] returns as many messages as asked; each has a
    query, as many chunks as asked and a response, every text with the
    number of vocabulary words asked for it; and [Math.random] was called
    once for each word. *)
Theorem generateConversation_shape (random : nat -> number) (n uq kc wc rw : Z)
    (fuel calls : nat) :
  (forall i, unitInterval (random i)) ->
  (0 <= n <= 2 ^ 20)%Z -> (0 <= uq <= 2 ^ 20)%Z -> (0 <= kc <= 2 ^ 20)%Z ->
  (0 <= wc <= 2 ^ 20)%Z -> (0 <= rw <= 2 ^ 20)%Z ->
  (Z.to_nat n + Z.to_nat (Z.max uq (Z.max wc rw)) < fuel)%nat ->
  exists messages,
    generateConversation fuel (of_Z n) (of_Z uq) (of_Z kc) (of_Z wc) (of_Z rw)
      random calls
    = Some (Normal (messages,
                    (calls + Z.to_nat n
                             * (Z.to_nat uq + Z.to_nat kc * Z.to_nat wc + Z.to_nat rw))%nat))
    /\ length messages = Z.to_nat n
    /\ Forall (messageOf (Z.to_nat uq) (Z.to_nat kc) (Z.to_nat wc) (Z.to_nat rw))
         messages.
Proof.
  intros Hr Hn Huq Hkc Hwc Hrw Hf.
  destruct (generateConversation_loop_messages random n uq kc wc rw Hr Hn Huq Hkc Hwc Hrw
              (Z.to_nat n) 0 fuel calls []) as (ms & Hloop & Hl & Hms); try lia.
  exists ms. unfold generateConversation. change 0 with (of_Z 0).
  rewrite Hloop. cbn [app]. auto.
Qed.

Lemma generateConversation_shape_witness :
  exists messages,
    generateConversation 10 (of_Z 2) (of_Z 2) (of_Z 2) (of_Z 3) (of_Z 1)
      (fun _ => 0.5) 0
    = Some (Normal (messages, 18%nat))
    /\ length messages = 2%nat.
Proof.
  assert (Hr : forall i : nat, unitInterval ((fun _ => 0.5) i)).
  { intros i. right. exists 4503599627370496%positive, (-53)%Z. repeat split; lia. }
  destruct (generateConversation_shape (fun _ => 0.5) 2 2 2 3 1 10 0 Hr
              ltac:(lia) ltac:(lia) ltac:(lia) ltac:(lia) ltac:(lia) ltac:(cbn; lia))
    as (ms & H1 & H2 & _).
  exists ms. split; assumption.
Defined.

(** ** Example conversations for degenerate arguments *)


